(** * CareerLens AI: validation, retry, quota and cache-refresh logic

    A shallow embedding of the server actions of the repository
    ([src/actions/dashboard.js], [src/actions/interview.js],
    [src/actions/cover-letter.js]) and the properties stated about them.

    JavaScript strings are modelled as [string] (a sequence of 8-bit code
    units), timestamps as [Z] milliseconds, the values produced by
    [JSON.parse] as the inductive type [json], and the effectful server
    actions as computations in a state-and-exception monad over a [World]
    holding the clock, the session, the record store, the text-generation
    provider and the trace of observable events. *)

From Stdlib Require Import List String Ascii ZArith Lia Bool Arith PeanoNat.
From Stdlib Require Import Sorting.Permutation Sorting.Sorted.
From Stdlib Require DecimalString Decimal.
From Stdlib Require Import PrimFloat.
Import ListNotations.

Local Open Scope string_scope.
Local Open Scope list_scope.

(* ===================================================================== *)
(** * Strings *)
(* ===================================================================== *)

Module JsString.

Definition backtick : ascii := "`"%char.
Definition newline : ascii := ascii_of_nat 10.

(** White space and line terminators removed by [String.prototype.trim]
    (the code units below 256: TAB, LF, VT, FF, CR, SP, NBSP). *)
Definition isWhiteSpace (c : ascii) : bool :=
  let n := nat_of_ascii c in
  (Nat.leb 9 n && Nat.leb n 13) || Nat.eqb n 32 || Nat.eqb n 160.

Definition trimStart (s : list ascii) : list ascii :=
  (fix go (l : list ascii) : list ascii :=
     match l with
     | c :: r => if isWhiteSpace c then go r else l
     | [] => []
     end) s.

Definition trimEnd (s : list ascii) : list ascii :=
  List.rev (trimStart (List.rev s)).

Definition trimL (s : list ascii) : list ascii := trimStart (trimEnd s).

(** [s.trim()] *)
Definition trim (s : string) : string :=
  string_of_list_ascii (trimL (list_ascii_of_string s)).

(** The optional [(?:json)?] group of the fence pattern: consumes the
    four characters [json] when they come next. *)
Definition skipJsonTag (r : list ascii) : list ascii :=
  match r with
  | c1 :: r1 =>
      if Ascii.eqb c1 "j" then
        match r1 with
        | c2 :: r2 =>
            if Ascii.eqb c2 "s" then
              match r2 with
              | c3 :: r3 =>
                  if Ascii.eqb c3 "o" then
                    match r3 with
                    | c4 :: r4 => if Ascii.eqb c4 "n" then r4 else r
                    | [] => r
                    end
                  else r
              | [] => r
              end
            else r
        | [] => r
        end
      else r
  | [] => r
  end.

(** The optional [\n?] at the end of both fence patterns. *)
Definition skipNewline (r : list ascii) : list ascii :=
  match r with
  | c :: r' => if Ascii.eqb c newline then r' else r
  | [] => r
  end.

(** Global replacement of a fence pattern by the empty string, as a
    left-to-right scan deleting every non-overlapping match:
    - [stripFences true true s]   is [s.replace(/```(?:json)?\n?/g, "")],
    - [stripFences false true s]  is [s.replace(/```\n?/g, "")],
    - [stripFences false false s] is [s.replace(/```/g, "")]. *)
Fixpoint stripFences (tag nl : bool) (s : list ascii) : list ascii :=
  match s with
  | c1 :: r1 =>
      match r1 with
      | c2 :: r2 =>
          match r2 with
          | c3 :: r3 =>
              if Ascii.eqb c1 backtick && Ascii.eqb c2 backtick
                 && Ascii.eqb c3 backtick
              then stripFences tag nl
                     (let r := if tag then skipJsonTag r3 else r3 in
                      if nl then skipNewline r else r)
              else c1 :: stripFences tag nl r1
          | [] => c1 :: stripFences tag nl r1
          end
      | [] => c1 :: stripFences tag nl r1
      end
  | [] => []
  end.

(** The cleaning step of [generateAIInsights] and [generateQuiz]:
    [text.replace(/```(?:json)?\n?/g, "").replace(/```\n?/g, "").trim()] *)
Definition cleanText (text : string) : string :=
  string_of_list_ascii
    (trimL (stripFences false true
              (stripFences true true (list_ascii_of_string text)))).

(** The cleaning step of [analyzeResume] and [generateWithRetry]:
    [text.replace(/```(?:json)?\n?/g, "").replace(/```/g, "").trim()] *)
Definition cleanTextPlain (text : string) : string :=
  string_of_list_ascii
    (trimL (stripFences false false
              (stripFences true true (list_ascii_of_string text)))).

(** [`${n}`] for a non-negative integer. *)
Definition showNat (n : nat) : string :=
  DecimalString.NilZero.string_of_uint (Nat.to_uint n).

(** [s.toLowerCase()] on 8-bit code units: A-Z and the Latin-1 capitals. *)
Definition lowerChar (c : ascii) : ascii :=
  let n := nat_of_ascii c in
  if (Nat.leb 65 n && Nat.leb n 90)
     || (Nat.leb 192 n && Nat.leb n 222 && negb (Nat.eqb n 215))
  then ascii_of_nat (n + 32) else c.

Definition toLowerCase (s : string) : string :=
  string_of_list_ascii (map lowerChar (list_ascii_of_string s)).

(** [s.split(",")] *)
Fixpoint splitComma (s : string) : list string :=
  match s with
  | EmptyString => [EmptyString]
  | String c r =>
      if Ascii.eqb c ","%char then EmptyString :: splitComma r
      else match splitComma r with
           | w :: ws => String c w :: ws
           | [] => [String c EmptyString]
           end
  end.

(** [arr.join(", ")] *)
Definition joinComma (l : list string) : string := String.concat ", " l.

End JsString.

(* ===================================================================== *)
(** * Values, errors and the schema validators *)
(* ===================================================================== *)

Module Js.
Import JsString.
Local Open Scope string_scope.

(** The [Error] subclasses the code distinguishes ([instanceof]). *)
Inductive ErrorKind := KError | KSyntaxError | KTypeError.

Record JsError := mkJsError { kind : ErrorKind; message : string }.

Definition Error (msg : string) : JsError := mkJsError KError msg.
Definition SyntaxError (msg : string) : JsError := mkJsError KSyntaxError msg.
Definition TypeError (msg : string) : JsError := mkJsError KTypeError msg.

(** Completion of a call: [return a] or [throw e]. *)
Inductive Outcome (A : Type) :=
| Return (a : A)
| Throw (e : JsError).
Arguments Return {A} a.
Arguments Throw {A} e.

Definition obind {A B} (o : Outcome A) (k : A -> Outcome B) : Outcome B :=
  match o with
  | Return a => k a
  | Throw e => Throw e
  end.

(** The values [JSON.parse] produces.  Numbers are IEEE doubles; an object
    is its list of own properties, the first binding of a key being the
    one that is read. *)
#[warnings="-register-all"]
Inductive json :=
| JNull
| JBool (b : bool)
| JNum (x : float)
| JStr (s : string)
| JArr (items : list json)
| JObj (fields : list (string * json)).

Fixpoint lookupField (name : string) (fields : list (string * json))
  : option json :=
  match fields with
  | [] => None
  | (k, v) :: r => if String.eqb k name then Some v else lookupField name r
  end.

(** [v.name] on a value that is not [null]; [None] is [undefined].  Only
    used with names that no prototype defines. *)
Definition getProp (v : json) (name : string) : option json :=
  match v with
  | JObj fields => lookupField name fields
  | _ => None
  end.

(** [v.name]: reading a property of [null] throws.  The text of a
    [TypeError] is the engine's; only its kind is relied upon. *)
Definition readProp (v : json) (name : string) : Outcome (option json) :=
  match v with
  | JNull =>
      Throw (TypeError ("Cannot read properties of null (reading '"
                          ++ name ++ "')"))
  | _ => Return (getProp v name)
  end.

(** [name in v]: throws on a primitive.  Only used with names that no
    prototype defines and that are no array index. *)
Definition hasProp (name : string) (v : json) : Outcome bool :=
  match v with
  | JObj fields =>
      Return (match lookupField name fields with Some _ => true | None => false end)
  | JArr _ => Return false
  | _ =>
      Throw (TypeError ("Cannot use 'in' operator to search for '"
                          ++ name ++ "' in a primitive value"))
  end.

(** Truthiness ([!v] is its negation). *)
Definition truthy (v : json) : bool :=
  match v with
  | JNull => false
  | JBool b => b
  | JNum x => negb (PrimFloat.is_zero x || PrimFloat.is_nan x)
  | JStr s => negb (String.eqb s "")
  | JArr _ | JObj _ => true
  end.

Definition truthyOpt (o : option json) : bool :=
  match o with
  | Some v => truthy v
  | None => false
  end.

(** [typeof o === 'string'] *)
Definition isString (o : option json) : bool :=
  match o with
  | Some (JStr _) => true
  | _ => false
  end.

(** [Array.isArray(o)], with the elements when it holds. *)
Definition asArray (o : option json) : option (list json) :=
  match o with
  | Some (JArr items) => Some items
  | _ => None
  end.

(** The comparison of [Array.prototype.includes] (SameValueZero).  Two
    objects or arrays are the same only when they are one reference, which
    never holds between a property value and the elements of a sibling
    array in a freshly parsed tree. *)
Definition sameValueZero (a b : json) : bool :=
  match a, b with
  | JNull, JNull => true
  | JBool x, JBool y => Bool.eqb x y
  | JNum x, JNum y =>
      PrimFloat.eqb x y || (PrimFloat.is_nan x && PrimFloat.is_nan y)
  | JStr s, JStr t => String.eqb s t
  | _, _ => false
  end.

(** [arr.includes(o)]; [undefined] is no JSON value, hence in no array. *)
Definition includes (arr : list json) (o : option json) : bool :=
  match o with
  | Some v => existsb (sameValueZero v) arr
  | None => false
  end.

(** ** [validateQuizResponse] ([src/actions/interview.js]) *)

Definition validateQuestion (index : nat) (q : json) : Outcome unit :=
  let label := "Question " ++ showNat (index + 1) in
  obind (readProp q "question") (fun question =>
  if negb (truthyOpt question) || negb (isString question) then
    Throw (Error (label ++ ": missing or invalid question text"))
  else
    let options := getProp q "options" in
    match asArray options with
    | None => Throw (Error (label ++ ": must have exactly 4 options"))
    | Some opts =>
        if negb (Nat.eqb (List.length opts) 4) then
          Throw (Error (label ++ ": must have exactly 4 options"))
        else
          let correctAnswer := getProp q "correctAnswer" in
          if negb (truthyOpt correctAnswer)
             || negb (includes opts correctAnswer) then
            Throw (Error (label ++ ": correctAnswer must be one of the options"))
          else
            let explanation := getProp q "explanation" in
            if negb (truthyOpt explanation) || negb (isString explanation) then
              Throw (Error (label ++ ": missing or invalid explanation"))
            else Return tt
    end).

(** The [for (const [index, q] of quiz.questions.entries())] loop. *)
Fixpoint validateQuestions (index : nat) (qs : list json) : Outcome unit :=
  match qs with
  | [] => Return tt
  | q :: rest =>
      obind (validateQuestion index q) (fun _ =>
      validateQuestions (S index) rest)
  end.

Definition validateQuizResponse (quiz : json) : Outcome bool :=
  match (if truthy quiz then asArray (getProp quiz "questions") else None) with
  | None => Throw (Error "Invalid quiz format: missing questions array")
  | Some questions =>
      if negb (Nat.eqb (List.length questions) 10) then
        Throw (Error ("Invalid quiz format: expected 10 questions, got "
                        ++ showNat (List.length questions)))
      else
        obind (validateQuestions 0 questions) (fun _ => Return true)
  end.

(** ** [validateInsightsResponse] ([src/actions/dashboard.js]) *)

Definition requiredFields : list string :=
  [ "salaryRanges"; "growthRate"; "demandLevel"; "topSkills";
    "marketOutlook"; "keyTrends"; "recommendedSkills" ].

(** The [for (const field of requiredFields)] loop. *)
Fixpoint checkRequired (fields : list string) (data : json) : Outcome unit :=
  match fields with
  | [] => Return tt
  | field :: rest =>
      obind (hasProp field data) (fun present =>
      if negb present then
        Throw (Error ("Missing required field: " ++ field))
      else checkRequired rest data)
  end.

(** [!Array.isArray(o) || o.length < n] *)
Definition shorterThan (n : nat) (o : option json) : bool :=
  match asArray o with
  | Some items => Nat.ltb (List.length items) n
  | None => true
  end.

Definition demandLevels : list json := [JStr "HIGH"; JStr "MEDIUM"; JStr "LOW"].
Definition marketOutlooks : list json :=
  [JStr "POSITIVE"; JStr "NEUTRAL"; JStr "NEGATIVE"].

Definition validateInsightsResponse (data : json) : Outcome bool :=
  obind (checkRequired requiredFields data) (fun _ =>
  if shorterThan 3 (getProp data "salaryRanges") then
    Throw (Error "Invalid salaryRanges: must be array with at least 3 items")
  else if shorterThan 5 (getProp data "topSkills") then
    Throw (Error "Invalid topSkills: must be array with at least 5 items")
  else if negb (includes demandLevels (getProp data "demandLevel")) then
    Throw (Error "Invalid demandLevel: must be HIGH, MEDIUM, or LOW")
  else if negb (includes marketOutlooks (getProp data "marketOutlook")) then
    Throw (Error "Invalid marketOutlook: must be POSITIVE, NEUTRAL, or NEGATIVE")
  else Return true).

(** ** [validateInsights] (the scheduled job's validator) *)

(** [typeof v === 'object'] *)
Definition isObjectType (v : json) : bool :=
  match v with
  | JNull | JArr _ | JObj _ => true
  | _ => false
  end.

Definition validateInsights (insights : json) (industry : string)
  : Outcome bool :=
  if negb (truthy insights) || negb (isObjectType insights) then
    Throw (Error ("Invalid insights object for " ++ industry))
  else
    obind (checkRequired requiredFields insights) (fun _ =>
    if shorterThan 3 (getProp insights "salaryRanges") then
      Throw (Error "salaryRanges must be an array with at least 3 items")
    else if shorterThan 5 (getProp insights "topSkills") then
      Throw (Error "topSkills must be an array with at least 5 items")
    else if negb (includes demandLevels (getProp insights "demandLevel")) then
      Throw (Error "demandLevel must be HIGH, MEDIUM, or LOW")
    else if negb (includes marketOutlooks (getProp insights "marketOutlook")) then
      Throw (Error "marketOutlook must be POSITIVE, NEUTRAL, or NEGATIVE")
    else Return true).

End Js.

(* ===================================================================== *)
(** * The world the server actions run in *)
(* ===================================================================== *)

Module Runtime.
Import JsString Js.
Local Open Scope string_scope.

(** What one call of [model.generateContent(prompt)] followed by
    [response.text()] yields: a text, or a thrown transport error. *)
Inductive GenResult :=
| GenText (text : string)
| GenFail (message : string).

Record User := mkUser {
  user_id : nat;
  user_clerkUserId : string;
  user_email : string;
  user_name : option string;
  user_industry : option string;
  user_experience : Z;
  user_bio : option string;
  user_skills : list string
}.

(** A row of the industry-insight collection.  Column type checks of the
    store are not modelled: a column holds the value that was written. *)
Record Insight := mkInsight {
  ins_id : nat;
  ins_industry : string;
  ins_userId : option nat;
  ins_salaryRanges : json;
  ins_growthRate : json;
  ins_demandLevel : json;
  ins_topSkills : json;
  ins_marketOutlook : json;
  ins_keyTrends : json;
  ins_recommendedSkills : json;
  ins_lastUpdated : Z;
  ins_nextUpdate : Z
}.

Record CoverLetter := mkCoverLetter {
  cl_id : nat;
  cl_userId : nat;
  cl_content : string;
  cl_jobDescription : string;
  cl_companyName : string;
  cl_jobTitle : string;
  cl_status : string;
  cl_createdAt : Z
}.

(** The columns of an assessment row that the quota check reads. *)
Record Assessment := mkAssessment {
  as_id : nat;
  as_userId : nat;
  as_createdAt : Z
}.

Record Resume := mkResume {
  rs_userId : nat;
  rs_content : string;
  rs_updatedAt : Z
}.

Inductive Table := TUser | TInsight | TAssessment | TResume.

(** Observable effects, in the order they happen.  Console output is not
    recorded: it does not alter control flow.  The clock moves on by the
    suspensions; the time the calls themselves take is not modelled.  A
    write of the cover-letter collection is recorded with the row as
    written, so that the states a letter goes through can be read off
    the trace. *)
Inductive Event :=
| EvGenerate (prompt : string)          (* a call of the text-generation provider *)
| EvSleep (ms : Z)                      (* a timed suspension *)
| EvWrite (table : Table) (id : nat)    (* a row created or updated *)
| EvLetter (row : CoverLetter).         (* a cover letter, as created or updated *)

Record World := mkWorld {
  clock : Z;                               (* [Date.now()], in ms *)
  session : option string;                 (* the [userId] of [auth()] *)
  users : list User;
  insights : list Insight;
  coverLetters : list CoverLetter;
  assessments : list Assessment;
  resumes : list Resume;
  nextId : nat;                            (* source of fresh row ids *)
  gemini : nat -> string -> GenResult;     (* provider: call number, prompt *)
  geminiCalls : nat;
  trace : list Event
}.

(** What the run-time platform supplies.  Prompt wording is opaque: each
    template is a function of the values interpolated into it. *)
Inductive ParseResult :=
| Parsed (v : json)
| Unparsable (message : string).

Record CoverLetterInput := mkCoverLetterInput {
  in_jobTitle : string;
  in_companyName : string;
  in_jobDescription : string
}.

Record Platform := mkPlatform {
  JSON_parse : string -> ParseResult;
  startOfLocalDay : Z -> Z;                  (* [d.setHours(0, 0, 0, 0)] *)
  insightsPrompt : Z -> string -> string;    (* instant, industry *)
  createPrompt : Z -> string -> string;      (* instant, industry *)
  quizPrompt : User -> string;
  coverLetterPrompt : User -> CoverLetterInput -> string;
  getPromptForType : string -> string -> string -> string
}.

(** ** The monad of server actions: state and exceptions.  A thrown error
    keeps the effects that preceded it. *)
Definition M (A : Type) : Type := World -> Outcome A * World.

Definition ret {A} (a : A) : M A := fun w => (Return a, w).
Definition throw {A} (e : JsError) : M A := fun w => (Throw e, w).
Definition bind {A B} (c : M A) (k : A -> M B) : M B :=
  fun w => match c w with
           | (Return a, w') => k a w'
           | (Throw e, w') => (Throw e, w')
           end.
Definition tryCatch {A} (c : M A) (handler : JsError -> M A) : M A :=
  fun w => match c w with
           | (Return a, w') => (Return a, w')
           | (Throw e, w') => handler e w'
           end.
Definition lift {A} (o : Outcome A) : M A := fun w => (o, w).

Declare Scope action_scope.
Delimit Scope action_scope with action.
Notation "x <- c ;; k" := (bind c (fun x => k))
  (at level 61, c at next level, right associativity) : action_scope.
Notation "c ;;; k" := (bind c (fun _ => k))
  (at level 61, right associativity) : action_scope.
Local Open Scope action_scope.

(** ** Primitive effects *)

Definition emit (ev : Event) (w : World) : World :=
  mkWorld (clock w) (session w) (users w) (insights w) (coverLetters w)
          (assessments w) (resumes w) (nextId w) (gemini w) (geminiCalls w)
          (trace w ++ [ev])%list.

Definition advance (ms : Z) (w : World) : World :=
  mkWorld (clock w + ms)%Z (session w) (users w) (insights w) (coverLetters w)
          (assessments w) (resumes w) (nextId w) (gemini w) (geminiCalls w)
          (trace w).

Definition countCall (w : World) : World :=
  mkWorld (clock w) (session w) (users w) (insights w) (coverLetters w)
          (assessments w) (resumes w) (nextId w) (gemini w) (S (geminiCalls w))
          (trace w).

Definition setUsers (us : list User) (w : World) : World :=
  mkWorld (clock w) (session w) us (insights w) (coverLetters w)
          (assessments w) (resumes w) (nextId w) (gemini w) (geminiCalls w)
          (trace w).

Definition setInsights (l : list Insight) (w : World) : World :=
  mkWorld (clock w) (session w) (users w) l (coverLetters w)
          (assessments w) (resumes w) (nextId w) (gemini w) (geminiCalls w)
          (trace w).

Definition setCoverLetters (l : list CoverLetter) (w : World) : World :=
  mkWorld (clock w) (session w) (users w) (insights w) l
          (assessments w) (resumes w) (nextId w) (gemini w) (geminiCalls w)
          (trace w).

Definition bumpId (w : World) : World :=
  mkWorld (clock w) (session w) (users w) (insights w) (coverLetters w)
          (assessments w) (resumes w) (S (nextId w)) (gemini w) (geminiCalls w)
          (trace w).

(** [Date.now()] *)
Definition now : M Z := fun w => (Return (clock w), w).

(** [await new Promise(resolve => setTimeout(resolve, ms))] and the
    workflow runner's [step.sleep(label, ms)]: the clock moves on by
    [ms]. *)
Definition sleep (ms : Z) : M unit :=
  fun w => (Return tt, emit (EvSleep ms) (advance ms w)).

(** [auth()] *)
Definition auth : M (option string) := fun w => (Return (session w), w).

(** [genAI.getGenerativeModel(...).generateContent(prompt)] and
    [response.text()]. *)
Definition afterCall (prompt : string) (w : World) : World :=
  emit (EvGenerate prompt) (countCall w).

Definition generateContent (prompt : string) : M string :=
  fun w => match gemini w (geminiCalls w) prompt with
           | GenText text => (Return text, afterCall prompt w)
           | GenFail msg => (Throw (Error msg), afterCall prompt w)
           end.

(** [JSON.parse(text)] *)
Definition parseJson (P : Platform) (text : string) : M json :=
  match JSON_parse P text with
  | Parsed v => ret v
  | Unparsable msg => throw (SyntaxError msg)
  end.

(** [!s?.trim()] for a possibly missing string. *)
Definition blank (s : option string) : bool :=
  match s with
  | Some x => String.eqb (trim x) ""
  | None => true
  end.

(** [!s] for a possibly missing string. *)
Definition falsy (s : option string) : bool :=
  match s with
  | Some x => String.eqb x ""
  | None => true
  end.

Definition CACHE_DURATION_DAYS : Z := 7.
Definition msPerDay : Z := 24 * 60 * 60 * 1000.

End Runtime.

(* ===================================================================== *)
(** * The record store *)
(* ===================================================================== *)

Module Store.
Import JsString Js Runtime.
Local Open Scope string_scope.
Local Open Scope action_scope.

(** The [data] argument of a write to the insight collection: a column
    left [undefined] ([None]) is not written. *)
Record InsightData := mkInsightData {
  d_industry : option string;
  d_userId : option nat;
  d_salaryRanges : option json;
  d_growthRate : option json;
  d_demandLevel : option json;
  d_topSkills : option json;
  d_marketOutlook : option json;
  d_keyTrends : option json;
  d_recommendedSkills : option json;
  d_lastUpdated : option Z;
  d_nextUpdate : option Z
}.

Definition orElse {A} (o : option A) (a : A) : A :=
  match o with Some x => x | None => a end.

(** Modelled from the spec: the record store's [update(key, fields)] on
    the insight collection (the store client and its schema are not part
    of the sources); it overwrites the columns given and no other. *)
Definition patchInsight (d : InsightData) (i : Insight) : Insight :=
  mkInsight (ins_id i)
            (orElse (d_industry d) (ins_industry i))
            (match d_userId d with Some u => Some u | None => ins_userId i end)
            (orElse (d_salaryRanges d) (ins_salaryRanges i))
            (orElse (d_growthRate d) (ins_growthRate i))
            (orElse (d_demandLevel d) (ins_demandLevel i))
            (orElse (d_topSkills d) (ins_topSkills i))
            (orElse (d_marketOutlook d) (ins_marketOutlook i))
            (orElse (d_keyTrends d) (ins_keyTrends i))
            (orElse (d_recommendedSkills d) (ins_recommendedSkills i))
            (orElse (d_lastUpdated d) (ins_lastUpdated i))
            (orElse (d_nextUpdate d) (ins_nextUpdate i)).

(** Modelled from the spec: the row a [create(fields)] on the insight
    collection builds.  [industry], the seven insight columns and
    [nextUpdate] are required; [lastUpdated] defaults to the time of the
    write. *)
Definition newInsight (id : nat) (t : Z) (d : InsightData) : option Insight :=
  match d_industry d, d_salaryRanges d, d_growthRate d, d_demandLevel d,
        d_topSkills d, d_marketOutlook d, d_keyTrends d,
        d_recommendedSkills d, d_nextUpdate d with
  | Some ind, Some sr, Some gr, Some dl, Some ts, Some mo, Some kt, Some rs,
    Some nu =>
      Some (mkInsight id ind (d_userId d) sr gr dl ts mo kt rs
                      (orElse (d_lastUpdated d) t) nu)
  | _, _, _, _, _, _, _, _, _ => None
  end.

Definition findInsight (industry : string) (l : list Insight) : option Insight :=
  find (fun i => String.eqb (ins_industry i) industry) l.

(** [db.industryInsight.findUnique({ where: { industry } })] *)
Definition insightFindUnique (industry : string) : M (option Insight) :=
  fun w => (Return (findInsight industry (insights w)), w).

(** [db.industryInsight.create({ data })]; [industry] is a unique key. *)
Definition insightCreate (d : InsightData) : M Insight :=
  fun w =>
    match newInsight (nextId w) (clock w) d with
    | None => (Throw (Error "Invalid create() invocation: argument missing"), w)
    | Some row =>
        match findInsight (ins_industry row) (insights w) with
        | Some _ =>
            (Throw (Error "Unique constraint failed on the fields: (industry)"), w)
        | None =>
            (Return row,
             emit (EvWrite TInsight (ins_id row))
                  (bumpId (setInsights (insights w ++ [row])%list w)))
        end
    end.

(** [db.industryInsight.update({ where, data })], [sel] being the unique
    key of [where]: the row it selects is overwritten with [data]. *)
Definition insightUpdateWhere (sel : Insight -> bool) (d : InsightData)
  : M Insight :=
  fun w =>
    match find sel (insights w) with
    | None => (Throw (Error "Record to update not found."), w)
    | Some old =>
        let row := patchInsight d old in
        (Return row,
         emit (EvWrite TInsight (ins_id row))
              (setInsights
                 (map (fun i => if sel i then patchInsight d i else i)
                      (insights w)) w))
    end.

Definition insightUpdateById (id : nat) (d : InsightData) : M Insight :=
  insightUpdateWhere (fun i => Nat.eqb (ins_id i) id) d.

Definition insightUpdateByIndustry (industry : string) (d : InsightData)
  : M Insight :=
  insightUpdateWhere (fun i => String.eqb (ins_industry i) industry) d.

(** [db.industryInsight.upsert({ where: { industry }, update, create })] *)
Definition insightUpsert (industry : string) (update create : InsightData)
  : M Insight :=
  fun w =>
    match findInsight industry (insights w) with
    | Some _ => insightUpdateByIndustry industry update w
    | None => insightCreate create w
    end.

(** [db.industryInsight.findMany({ distinct: ['industry'],
    select: { industry: true }, where: { industry: { not: null } } })],
    in the order of the collection. *)
Definition insightDistinctIndustries : M (list string) :=
  fun w => (Return (nodup string_dec (map ins_industry (insights w))), w).

(** [db.user.findUnique({ where: { clerkUserId } })] *)
Definition userFindUnique (clerkId : string) : M (option User) :=
  fun w => (Return (find (fun u => String.eqb (user_clerkUserId u) clerkId)
                         (users w)), w).

(** Modelled from the spec: the relation behind
    [include: { industryInsight: true }] (the schema is not part of the
    sources), many users to one insight row: the row
    whose [industry] key the user's [industry] refers to. *)
Definition industryInsightOf (u : User) (w : World) : option Insight :=
  match user_industry u with
  | Some ind => findInsight ind (insights w)
  | None => None
  end.

(** The [update] and [create] arguments of [db.user.upsert]. *)
Record UserData := mkUserData {
  ud_email : string;
  ud_name : option string;
  ud_industry : option string;
  ud_experience : Z;
  ud_bio : option string;
  ud_skills : list string
}.

(** [db.user.upsert({ where: { clerkUserId }, update, create })]: the
    update writes [industry], [experience], [bio] and [skills]. *)
Definition userUpsert (clerkId : string) (d : UserData) : M User :=
  fun w =>
    match find (fun u => String.eqb (user_clerkUserId u) clerkId) (users w) with
    | Some old =>
        let row := mkUser (user_id old) (user_clerkUserId old) (user_email old)
                          (user_name old) (ud_industry d) (ud_experience d)
                          (ud_bio d) (ud_skills d) in
        (Return row,
         emit (EvWrite TUser (user_id row))
              (setUsers (map (fun u => if Nat.eqb (user_id u) (user_id row)
                                       then row else u) (users w)) w))
    | None =>
        let row := mkUser (nextId w) clerkId (ud_email d) (ud_name d)
                          (ud_industry d) (ud_experience d) (ud_bio d)
                          (ud_skills d) in
        (Return row,
         emit (EvWrite TUser (user_id row))
              (bumpId (setUsers (users w ++ [row])%list w)))
    end.

(** [db.coverLetter.count({ where: { userId, createdAt: { gte: since } } })] *)
Definition countCoverLetters (userId : nat) (since : Z) (l : list CoverLetter)
  : nat :=
  List.length (filter (fun c => Nat.eqb (cl_userId c) userId
                                && Z.leb since (cl_createdAt c)) l).

Definition coverLetterCount (userId : nat) (since : Z) : M nat :=
  fun w => (Return (countCoverLetters userId since (coverLetters w)), w).

(** Modelled from the spec: [db.coverLetter.create({ data })] with the
    schema's defaults (the schema is not part of the sources): a fresh
    [id], and [createdAt] the time of the write. *)
Definition coverLetterCreate (userId : nat) (input : CoverLetterInput)
           (content status : string) : M CoverLetter :=
  fun w =>
    let row := mkCoverLetter (nextId w) userId content
                             (in_jobDescription input) (in_companyName input)
                             (in_jobTitle input) status (clock w) in
    (Return row,
     emit (EvLetter row)
          (bumpId (setCoverLetters (coverLetters w ++ [row])%list w))).

(** [db.coverLetter.update({ where: { id }, data })]; [content] is
    written only when given. *)
Definition coverLetterUpdate (id : nat) (content : option string)
           (status : string) : M CoverLetter :=
  fun w =>
    match find (fun c => Nat.eqb (cl_id c) id) (coverLetters w) with
    | None => (Throw (Error "Record to update not found."), w)
    | Some old =>
        let row := mkCoverLetter (cl_id old) (cl_userId old)
                                 (orElse content (cl_content old))
                                 (cl_jobDescription old) (cl_companyName old)
                                 (cl_jobTitle old) status (cl_createdAt old) in
        (Return row,
         emit (EvLetter row)
              (setCoverLetters
                 (map (fun c => if Nat.eqb (cl_id c) id then row else c)
                      (coverLetters w)) w))
    end.

(** [db.assessment.count({ where: { userId, createdAt: { gte: since } } })] *)
Definition countAssessments (userId : nat) (since : Z) (l : list Assessment)
  : nat :=
  List.length (filter (fun a => Nat.eqb (as_userId a) userId
                                && Z.leb since (as_createdAt a)) l).

Definition assessmentCount (userId : nat) (since : Z) : M nat :=
  fun w => (Return (countAssessments userId since (assessments w)), w).

(** [db.resume.findMany({ where: { userId, updatedAt: { gte: since } } })] *)
Definition recentResumes (userId : nat) (since : Z) (l : list Resume)
  : list Resume :=
  filter (fun r => Nat.eqb (rs_userId r) userId
                   && Z.leb since (rs_updatedAt r)) l.

Definition resumeFindMany (userId : nat) (since : Z) : M (list Resume) :=
  fun w => (Return (recentResumes userId since (resumes w)), w).

End Store.

(* ===================================================================== *)
(** * The retry executor *)
(* ===================================================================== *)

Module Retry.
Import JsString Js Runtime.
Local Open Scope string_scope.
Local Open Scope action_scope.

Section Executor.
Context {A : Type}.
(** The body of the [try] block: one attempt. *)
Variable attemptFn : M A.
(** The back-off unit, in ms. *)
Variable baseDelay : Z.
(** The text of the final error, from the number of attempts and the
    message of the last error caught. *)
Variable exhausted : nat -> string -> string.

(** The loop [for (let attempt = 0; attempt <= maxRetries; attempt++)]
    shared by [callGeminiWithRetry] and [generateWithRetry], with the
    [throw] that follows it; [remaining] is [maxRetries + 1 - attempt]. *)
Fixpoint retryLoop (maxRetries remaining attempt : nat)
         (lastError : option JsError) : M A :=
  match remaining with
  | O =>
      match lastError with
      | Some e => throw (Error (exhausted (maxRetries + 1) (message e)))
      | None =>
          throw (TypeError
                   "Cannot read properties of undefined (reading 'message')")
      end
  | S k =>
      tryCatch attemptFn (fun error =>
        (if Nat.ltb attempt maxRetries
         then sleep (baseDelay * (Z.of_nat attempt + 1))
         else ret tt) ;;;
        retryLoop maxRetries k (S attempt) (Some error))
  end.

Definition execute (maxRetries : nat) : M A :=
  retryLoop maxRetries (S maxRetries) 0 None.
End Executor.

End Retry.

(* ===================================================================== *)
(** * Insight cache manager ([src/actions/dashboard.js], first part) *)
(* ===================================================================== *)

Module Dashboard.
Import JsString Js Runtime Store.
Local Open Scope string_scope.
Local Open Scope action_scope.

Section WithPlatform.
Variable P : Platform.

(** The user comes with its [industryInsight] relation. *)
Definition getAuthenticatedUser : M (User * option Insight) :=
  userId <- auth ;;
  if falsy userId then throw (Error "Unauthorized") else
  user <- userFindUnique (orElse userId "") ;;
  match user with
  | None => throw (Error "User not found")
  | Some u => fun w => (Return (u, industryInsightOf u w), w)
  end.

Definition generateAIInsights (industry : option string) : M json :=
  if blank industry then
    throw (Error "Industry is required to generate insights")
  else
    t <- now ;;
    let prompt := insightsPrompt P t (orElse industry "") in
    tryCatch
      (text <- generateContent prompt ;;
       let cleanedText := cleanText text in
       parsed <- parseJson P cleanedText ;;
       lift (validateInsightsResponse parsed) ;;;
       ret parsed)
      (fun error =>
         match kind error with
         | KSyntaxError =>
             throw (Error "Failed to parse AI response as valid JSON")
         | _ =>
             throw (Error ("Failed to generate industry insights: "
                             ++ message error))
         end).

Definition shouldRefreshInsights (insight : option Insight) : M bool :=
  match insight with
  | None => ret true
  | Some i => t <- now ;; ret (Z.ltb (ins_nextUpdate i) t)
  end.

Definition getNextUpdateDate : M Z :=
  t <- now ;; ret (t + CACHE_DURATION_DAYS * msPerDay)%Z.

(** The seven insight columns read off the generated object. *)
Definition insightColumns (insights : json) : InsightData :=
  mkInsightData None None
                (getProp insights "salaryRanges")
                (getProp insights "growthRate")
                (getProp insights "demandLevel")
                (getProp insights "topSkills")
                (getProp insights "marketOutlook")
                (getProp insights "keyTrends")
                (getProp insights "recommendedSkills")
                None None.

Definition withIndustry (industry : option string) (userId : option nat)
           (d : InsightData) : InsightData :=
  mkInsightData industry userId (d_salaryRanges d) (d_growthRate d)
                (d_demandLevel d) (d_topSkills d) (d_marketOutlook d)
                (d_keyTrends d) (d_recommendedSkills d) (d_lastUpdated d)
                (d_nextUpdate d).

Definition withNextUpdate (t : Z) (d : InsightData) : InsightData :=
  mkInsightData (d_industry d) (d_userId d) (d_salaryRanges d)
                (d_growthRate d) (d_demandLevel d) (d_topSkills d)
                (d_marketOutlook d) (d_keyTrends d) (d_recommendedSkills d)
                (d_lastUpdated d) (Some t).

Definition withLastUpdated (t : Z) (d : InsightData) : InsightData :=
  mkInsightData (d_industry d) (d_userId d) (d_salaryRanges d)
                (d_growthRate d) (d_demandLevel d) (d_topSkills d)
                (d_marketOutlook d) (d_keyTrends d) (d_recommendedSkills d)
                (Some t) (d_nextUpdate d).

(** The tail shared by [getIndustryInsights] and
    [refreshIndustryInsights]: generate, then update the existing row
    or create one. *)
Definition generateAndStore (user : User) (existing : option Insight)
  : M Insight :=
  insights <- generateAIInsights (user_industry user) ;;
  match existing with
  | Some row =>
      next <- getNextUpdateDate ;;
      insightUpdateById (ins_id row)
                        (withNextUpdate next (insightColumns insights))
  | None =>
      next <- getNextUpdateDate ;;
      insightCreate
        (withNextUpdate next
           (withIndustry (user_industry user) (Some (user_id user))
                         (insightColumns insights)))
  end.

Definition getIndustryInsights : M Insight :=
  ui <- getAuthenticatedUser ;;
  let '(user, industryInsight) := ui in
  if blank (user_industry user) then
    throw (Error "User industry not set. Please update your profile.")
  else
    match industryInsight with
    | Some row =>
        refresh <- shouldRefreshInsights industryInsight ;;
        if negb refresh then ret row
        else generateAndStore user industryInsight
    | None => generateAndStore user industryInsight
    end.

Definition refreshIndustryInsights : M Insight :=
  ui <- getAuthenticatedUser ;;
  let '(user, industryInsight) := ui in
  if blank (user_industry user) then
    throw (Error "User industry not set. Please update your profile.")
  else generateAndStore user industryInsight.

End WithPlatform.
End Dashboard.

(* ===================================================================== *)
(** * Profile setup ([updateUser]) *)
(* ===================================================================== *)

Module UserActions.
Import JsString Js Runtime Store.
Local Open Scope string_scope.
Local Open Scope action_scope.

(** The shapes [data.skills] can take. *)
Inductive SkillsInput :=
| SkillsArray (items : list string)
| SkillsText (text : string)
| SkillsOther.

Definition nonEmpty (s : string) : bool := negb (String.eqb s "").

Definition normalizeSkills (skills : SkillsInput) : list string :=
  match skills with
  | SkillsArray items => filter nonEmpty (map trim items)
  | SkillsText text =>
      if String.eqb text "" then []
      else filter nonEmpty (map trim (splitComma text))
  | SkillsOther => []
  end.

Record ProfileInput := mkProfileInput {
  pi_industry : string;
  pi_experience : Z;          (* [Number(data.experience)] *)
  pi_bio : option string;
  pi_skills : SkillsInput;
  pi_email : string;
  pi_name : option string
}.

(** The row created when no insight exists for the industry. *)
Definition placeholderData (industry : string) (t : Z) : InsightData :=
  mkInsightData (Some industry) None
                (Some (JArr [])) (Some (JNum 0%float)) (Some (JStr "MEDIUM"))
                (Some (JArr [])) (Some (JStr "NEUTRAL")) (Some (JArr []))
                (Some (JArr []))
                None (Some (t + 7 * 24 * 60 * 60 * 1000)%Z).

Section WithPlatform.
Variable P : Platform.

(** Step 0 of [updateUser]: make sure an insight row exists for the
    industry before the user row refers to it. *)
Definition ensureIndustryInsight (industry : string) : M unit :=
  existingInsight <- insightFindUnique industry ;;
  match existingInsight with
  | Some _ => ret tt
  | None =>
      t <- now ;;
      insightCreate (placeholderData industry t) ;;;
      tryCatch
        (insights <- Dashboard.generateAIInsights P (Some industry) ;;
         insightUpdateByIndustry industry
                                 (Dashboard.insightColumns insights) ;;;
         ret tt)
        (fun aiError => ret tt)
  end.

Definition updateUser (data : ProfileInput) : M User :=
  userId <- auth ;;
  if falsy userId then throw (Error "Unauthorized") else
  tryCatch
    (let normalizedSkills := normalizeSkills (pi_skills data) in
     ensureIndustryInsight (pi_industry data) ;;;
     userUpsert (orElse userId "")
                (mkUserData (pi_email data) (pi_name data)
                            (Some (pi_industry data)) (pi_experience data)
                            (pi_bio data) normalizedSkills))
    (fun error => throw (Error "Failed to update profile")).

End WithPlatform.
End UserActions.

(* ===================================================================== *)
(** * Resume improvement ([callGeminiWithRetry], [improveWithAI]) *)
(* ===================================================================== *)

Module ResumeActions.
Import JsString Js Runtime Store.
Local Open Scope string_scope.
Local Open Scope action_scope.

Definition HOURLY_AI_LIMIT : nat := 20.

Definition getAuthenticatedUser : M User :=
  userId <- auth ;;
  if falsy userId then throw (Error "Unauthorized") else
  user <- userFindUnique (orElse userId "") ;;
  match user with
  | None => throw (Error "User not found")
  | Some u => ret u
  end.

(** One attempt of [callGeminiWithRetry]: the body of its [try]. *)
Definition callGeminiAttempt (prompt : string) : M string :=
  raw <- generateContent prompt ;;
  let text := trim raw in
  if String.eqb text "" then throw (Error "Empty response from AI")
  else ret text.

Definition unavailableMessage (attempts : nat) (last : string) : string :=
  "AI service unavailable after " ++ showNat attempts ++ " attempts: " ++ last.

Definition callGeminiWithRetry (prompt : string) (maxRetries : nat) : M string :=
  Retry.execute (callGeminiAttempt prompt) 1000 unavailableMessage maxRetries.

Definition validTypes : list string :=
  ["summary"; "experience"; "skill"; "project"; "education"].

Record ImproveInput := mkImproveInput {
  im_current : string;
  im_type : string
}.

Section WithPlatform.
Variable P : Platform.

Definition improveWithAI (input : ImproveInput) : M string :=
  let current := im_current input in
  let type := im_type input in
  if String.eqb current "" || String.eqb (trim current) "" then
    throw (Error "Current content is required and cannot be empty")
  else if Nat.ltb 5000 (String.length current) then
    throw (Error "Content is too long (max 5000 characters per section)")
  else if String.eqb type "" then
    throw (Error "Content type is required")
  else
    let normalizedType := toLowerCase type in
    if negb (existsb (String.eqb normalizedType) validTypes) then
      throw (Error ("Invalid type. Must be one of: " ++ joinComma validTypes))
    else
      user <- getAuthenticatedUser ;;
      if falsy (user_industry user) then
        throw (Error "Please set your industry in your profile before using AI improvements")
      else
        t <- now ;;
        let oneHourAgo := (t - 60 * 60 * 1000)%Z in
        recentImprovements <- resumeFindMany (user_id user) oneHourAgo ;;
        if Nat.leb HOURLY_AI_LIMIT (List.length recentImprovements) then
          throw (Error ("Rate limit reached (" ++ showNat HOURLY_AI_LIMIT
                          ++ " improvements per hour). Please try again later."))
        else
          let prompt := getPromptForType P normalizedType current
                                         (orElse (user_industry user) "") in
          tryCatch
            (improvedText <- callGeminiWithRetry prompt 2 ;;
             if Nat.ltb (String.length improvedText) 10 then
               throw (Error "AI returned suspiciously short content")
             else ret improvedText)
            (fun error =>
               throw (Error ("Failed to improve resume: " ++ message error))).

End WithPlatform.
End ResumeActions.

(* ===================================================================== *)
(** * The scheduled batch refresh ([generateIndustryInsights]) *)
(* ===================================================================== *)

Module InngestFunctions.
Import JsString Js Runtime Store.
Local Open Scope string_scope.
Local Open Scope action_scope.

Definition DELAY_BETWEEN_INDUSTRIES_MS : Z := 2000.
Definition MAX_RETRIES : nat := 2.

Record Failure := mkFailure {
  f_industry : string;
  f_error : string;
  f_timestamp : Z
}.

Record Stats := mkStats {
  total : nat;
  successful : nat;
  failed : nat;
  skipped : nat;
  startTime : Z;
  failures : list Failure;
  endTime : option Z;
  durationMs : option Z;
  durationMinutes : option Z;
  statsMessage : option string
}.

Definition failedAfterMessage (attempts : nat) (last : string) : string :=
  "Failed after " ++ showNat attempts ++ " attempts: " ++ last.

(** [Math.round(ms / 1000 / 60)] *)
Definition roundMinutes (ms : Z) : Z := ((ms + 30000) / 60000)%Z.

(** [step.run(label, fn)]: runs [fn] and yields its result or error. *)
Definition stepRun {A} (label : string) (fn : M A) : M A := fn.

Section WithPlatform.
Variable P : Platform.

(** One attempt of [generateWithRetry]: the body of its [try]. *)
Definition generateAttempt (prompt industry : string) : M json :=
  text <- generateContent prompt ;;
  if String.eqb text "" || Nat.eqb (String.length (trim text)) 0 then
    throw (Error "Empty response from AI")
  else
    let cleanedText := cleanTextPlain text in
    parsed <- parseJson P cleanedText ;;
    lift (validateInsights parsed industry) ;;;
    ret parsed.

Definition generateWithRetry (prompt industry : string) : M json :=
  Retry.execute (generateAttempt prompt industry) 2000 failedAfterMessage
                MAX_RETRIES.

(** The [update] argument of the job's upsert; its [create] argument
    adds the [industry]. *)
Definition refreshData (insights : json) (t : Z) : InsightData :=
  Dashboard.withNextUpdate (t + CACHE_DURATION_DAYS * msPerDay)%Z
    (Dashboard.withLastUpdated t (Dashboard.insightColumns insights)).

Definition succeeded (s : Stats) : Stats :=
  mkStats (total s) (S (successful s)) (failed s) (skipped s) (startTime s)
          (failures s) (endTime s) (durationMs s) (durationMinutes s)
          (statsMessage s).

Definition failedWith (f : Failure) (s : Stats) : Stats :=
  mkStats (total s) (successful s) (S (failed s)) (skipped s) (startTime s)
          (failures s ++ [f])%list (endTime s) (durationMs s)
          (durationMinutes s) (statsMessage s).

Definition skippedOne (s : Stats) : Stats :=
  mkStats (total s) (successful s) (failed s) (S (skipped s)) (startTime s)
          (failures s) (endTime s) (durationMs s) (durationMinutes s)
          (statsMessage s).

(** The [try] block of the loop body for one industry. *)
Definition refreshIndustry (industry : string) : M unit :=
  insights <- stepRun ("Generate insights for " ++ industry)
                (t <- now ;;
                 let prompt := createPrompt P t industry in
                 generateWithRetry prompt industry) ;;
  stepRun ("Update " ++ industry ++ " in database")
    (t <- now ;;
     insightUpsert industry (refreshData insights t)
       (Dashboard.withIndustry (Some industry) None (refreshData insights t)) ;;;
     ret tt).

(** The loop [for (let i = 0; i < industries.length; i++)] from index
    [i] on, [rest] being [industries.slice(i)] and [len] the length of
    [industries]. *)
Fixpoint processIndustries (len i : nat) (rest : list string) (stats : Stats)
  : M Stats :=
  match rest with
  | [] => ret stats
  | industry :: tl =>
      if String.eqb industry "" || Nat.eqb (String.length (trim industry)) 0
      then processIndustries len (S i) tl (skippedOne stats)
      else
        stats' <- tryCatch
                    (refreshIndustry industry ;;; ret (succeeded stats))
                    (fun error =>
                       t <- now ;;
                       ret (failedWith (mkFailure industry (message error) t)
                                       stats)) ;;
        (if Nat.ltb i (len - 1)
         then sleep DELAY_BETWEEN_INDUSTRIES_MS
         else ret tt) ;;;
        processIndustries len (S i) tl stats'
  end.

Definition generateIndustryInsights : M Stats :=
  start <- now ;;
  industries <- stepRun "Fetch unique industries" insightDistinctIndustries ;;
  let stats := mkStats (List.length industries) 0 0 0 start [] None None None
                       None in
  if Nat.eqb (List.length industries) 0 then
    ret (mkStats (total stats) (successful stats) (failed stats)
                 (skipped stats) (startTime stats) (failures stats) None None
                 None (Some "No industries to update"))
  else
    stats <- processIndustries (List.length industries) 0 industries stats ;;
    finish <- now ;;
    ret (mkStats (total stats) (successful stats) (failed stats)
                 (skipped stats) (startTime stats) (failures stats)
                 (Some finish) (Some (finish - startTime stats)%Z)
                 (Some (roundMinutes (finish - startTime stats)))
                 (statsMessage stats)).

End WithPlatform.
End InngestFunctions.

(* ===================================================================== *)
(** * Quiz generation ([src/actions/interview.js]) *)
(* ===================================================================== *)

Module Interview.
Import JsString Js Runtime Store.
Local Open Scope string_scope.
Local Open Scope action_scope.

Definition DAILY_QUIZ_LIMIT : nat := 5.

Definition getAuthenticatedUser : M User := ResumeActions.getAuthenticatedUser.

Section WithPlatform.
Variable P : Platform.

Definition generateQuiz : M (list json) :=
  user <- getAuthenticatedUser ;;
  t <- now ;;
  let today := startOfLocalDay P t in
  todayQuizCount <- assessmentCount (user_id user) today ;;
  if Nat.leb DAILY_QUIZ_LIMIT todayQuizCount then
    throw (Error ("Daily quiz limit reached (" ++ showNat DAILY_QUIZ_LIMIT
                    ++ " per day). Try again tomorrow."))
  else if falsy (user_industry user) then
    throw (Error "Please set your industry in your profile before generating quizzes")
  else
    let prompt := quizPrompt P user in
    tryCatch
      (text <- generateContent prompt ;;
       if String.eqb (trim text) "" then
         throw (Error "Empty response from AI")
       else
         let cleanedText := cleanText text in
         quiz <- parseJson P cleanedText ;;
         lift (validateQuizResponse quiz) ;;;
         ret (orElse (asArray (getProp quiz "questions")) []))
      (fun error =>
         match kind error with
         | KSyntaxError =>
             throw (Error "Failed to parse AI response as valid JSON")
         | _ =>
             throw (Error ("Failed to generate quiz questions: "
                             ++ message error))
         end).

End WithPlatform.
End Interview.

(* ===================================================================== *)
(** * Cover letters ([src/actions/cover-letter.js]) *)
(* ===================================================================== *)

Module CoverLetterActions.
Import JsString Js Runtime Store.
Local Open Scope string_scope.
Local Open Scope action_scope.

Definition DAILY_LIMIT : nat := 10.

Definition getAuthenticatedUser : M User := ResumeActions.getAuthenticatedUser.

(** [!data?.jobTitle || !data?.companyName || !data?.jobDescription] *)
Definition missingFields (data : option CoverLetterInput) : bool :=
  match data with
  | None => true
  | Some d =>
      String.eqb (in_jobTitle d) "" || String.eqb (in_companyName d) ""
      || String.eqb (in_jobDescription d) ""
  end.

Definition emptyInput : CoverLetterInput := mkCoverLetterInput "" "" "".

Section WithPlatform.
Variable P : Platform.

Definition generateCoverLetter (data : option CoverLetterInput)
  : M CoverLetter :=
  if missingFields data then
    throw (Error "Missing required fields: jobTitle, companyName, and jobDescription")
  else
    let input := orElse data emptyInput in
    user <- getAuthenticatedUser ;;
    t <- now ;;
    let today := startOfLocalDay P t in
    todayCount <- coverLetterCount (user_id user) today ;;
    if Nat.leb DAILY_LIMIT todayCount then
      throw (Error ("Daily limit of " ++ showNat DAILY_LIMIT
                      ++ " cover letters reached. Try again tomorrow."))
    else
      let prompt := coverLetterPrompt P user input in
      coverLetter <- coverLetterCreate (user_id user) input "" "pending" ;;
      tryCatch
        (raw <- generateContent prompt ;;
         let content := trim raw in
         if String.eqb content "" then
           throw (Error "Empty response from AI")
         else
           coverLetterUpdate (cl_id coverLetter) (Some content) "completed")
        (fun error =>
           coverLetterUpdate (cl_id coverLetter) None "failed" ;;;
           throw (Error ("Failed to generate cover letter: "
                           ++ message error))).

End WithPlatform.
End CoverLetterActions.

(* ===================================================================== *)
(** * Further operations on values *)
(* ===================================================================== *)

Module JsOps.
Import JsString Js.
Local Open Scope string_scope.

(** [typeof o === 'number'] *)
Definition isNumber (o : option json) : bool :=
  match o with
  | Some (JNum _) => true
  | _ => false
  end.

(** [Array.isArray(o)] *)
Definition isArray (o : option json) : bool :=
  match asArray o with
  | Some _ => true
  | None => false
  end.

(** [a === b].  Two objects or arrays are equal only when they are one
    reference, which never holds between values that reach an action as
    separate arguments. *)
Definition strictEquals (a b : option json) : bool :=
  match a, b with
  | None, None => true
  | Some JNull, Some JNull => true
  | Some (JBool x), Some (JBool y) => Bool.eqb x y
  | Some (JNum x), Some (JNum y) => PrimFloat.eqb x y
  | Some (JStr s), Some (JStr t) => String.eqb s t
  | _, _ => false
  end.

(** [o || fallback] *)
Definition orValue (o : option json) (fallback : json) : json :=
  match o with
  | Some v => if truthy v then v else fallback
  | None => fallback
  end.

(** [s.slice(0, n)] *)
Definition sliceStart (n : nat) (s : string) : string := substring 0 n s.

End JsOps.

(* ===================================================================== *)
(** * Further operations of the record store *)
(* ===================================================================== *)

Module StoreOps.
Import JsString Js Runtime Store.
Local Open Scope string_scope.
Local Open Scope action_scope.

Definition setAssessments (l : list Assessment) (w : World) : World :=
  mkWorld (clock w) (session w) (users w) (insights w) (coverLetters w)
          l (resumes w) (nextId w) (gemini w) (geminiCalls w) (trace w).

Definition setResumes (l : list Resume) (w : World) : World :=
  mkWorld (clock w) (session w) (users w) (insights w) (coverLetters w)
          (assessments w) l (nextId w) (gemini w) (geminiCalls w) (trace w).

(** The error the store throws for a request it cannot carry out: beside
    its message it bears a [code], which [deleteResume] inspects. *)
Record KnownRequestError := mkKnownRequestError {
  kre_code : string;
  kre_message : string
}.

(** The error of a [delete] that selects no row (code [P2025]); the
    wording of the message is the store's. *)
Definition recordNotFound : KnownRequestError :=
  mkKnownRequestError "P2025" "Record to delete does not exist.".

(** A store call that can throw a [KnownRequestError]. *)
Definition Fallible (A : Type) : Type := World -> (KnownRequestError + A) * World.

(** [try { a = await call; ... } catch (error) { ... }] around a store
    call. *)
Definition tryStore {A B} (call : Fallible A) (ok : A -> M B)
           (handler : KnownRequestError -> M B) : M B :=
  fun w => match call w with
           | (inr a, w') => ok a w'
           | (inl error, w') => handler error w'
           end.

(** A store call whose error is left to the caller of the action. *)
Definition orThrow {A} (call : Fallible A) : M A :=
  tryStore call ret (fun error => throw (Error (kre_message error))).

(** [orderBy: { createdAt: "desc" }].  The store leaves the order of rows
    with equal keys open; here they keep the order of the collection. *)
Fixpoint insertDesc {A} (key : A -> Z) (x : A) (l : list A) : list A :=
  match l with
  | [] => [x]
  | y :: r => if Z.leb (key y) (key x) then x :: l else y :: insertDesc key x r
  end.

Definition orderByDesc {A} (key : A -> Z) (l : list A) : list A :=
  fold_right (insertDesc key) [] l.

(** ** Cover letters *)

Definition ownedBy (userId : nat) (c : CoverLetter) : bool :=
  Nat.eqb (cl_userId c) userId.

(** The key [{ id, userId }] of [findUnique] and [delete]. *)
Definition letterKey (id userId : nat) (c : CoverLetter) : bool :=
  Nat.eqb (cl_id c) id && Nat.eqb (cl_userId c) userId.

(** [db.coverLetter.findMany({ where: { userId },
    orderBy: { createdAt: "desc" } })] *)
Definition coverLetterFindMany (userId : nat) : M (list CoverLetter) :=
  fun w => (Return (orderByDesc cl_createdAt
                      (filter (ownedBy userId) (coverLetters w))), w).

(** [db.coverLetter.findUnique({ where: { id, userId } })] *)
Definition coverLetterFindUnique (id userId : nat) : M (option CoverLetter) :=
  fun w => (Return (find (letterKey id userId) (coverLetters w)), w).

(** [db.coverLetter.delete({ where: { id, userId } })]: the row selected
    is removed and returned.  The trace records calls, suspensions and
    rows written; a removal shows in the collection only. *)
Definition coverLetterDelete (id userId : nat) : Fallible CoverLetter :=
  fun w => match find (letterKey id userId) (coverLetters w) with
           | None => (inl recordNotFound, w)
           | Some row =>
               (inr row,
                setCoverLetters
                  (filter (fun c => negb (letterKey id userId c))
                          (coverLetters w)) w)
           end.

(** ** Assessments *)

Definition assessmentKey (id userId : nat) (a : Assessment) : bool :=
  Nat.eqb (as_id a) id && Nat.eqb (as_userId a) userId.

(** Modelled from the spec: [db.assessment.create({ data })] with the
    schema's defaults (the schema is not part of the sources): a fresh
    [id], and [createdAt] the time of the write.  The collection keeps
    the columns of [Assessment]; the other columns written are part of
    the value the action returns. *)
Definition assessmentCreate (userId : nat) : M Assessment :=
  fun w =>
    let row := mkAssessment (nextId w) userId (clock w) in
    (Return row,
     emit (EvWrite TAssessment (as_id row))
          (bumpId (setAssessments (assessments w ++ [row])%list w))).

(** [db.assessment.delete({ where: { id, userId } })] *)
Definition assessmentDelete (id userId : nat) : Fallible Assessment :=
  fun w => match find (assessmentKey id userId) (assessments w) with
           | None => (inl recordNotFound, w)
           | Some row =>
               (inr row,
                setAssessments
                  (filter (fun a => negb (assessmentKey id userId a))
                          (assessments w)) w)
           end.

(** ** Resumes: [userId] is the unique key *)

Definition resumeOf (userId : nat) (r : Resume) : bool :=
  Nat.eqb (rs_userId r) userId.

Definition findResume (userId : nat) (l : list Resume) : option Resume :=
  find (resumeOf userId) l.

(** [db.resume.findUnique({ where: { userId } })] *)
Definition resumeFindUnique (userId : nat) : M (option Resume) :=
  fun w => (Return (findResume userId (resumes w)), w).

(** Modelled from the spec: [db.resume.upsert({ where: { userId },
    update: { content, updatedAt }, create: { userId, content } })]; a
    row created has [updatedAt] the time of the write (the schema is not
    part of the sources).  Rows of this collection are identified in the
    trace by their [userId]. *)
Definition resumeUpsert (userId : nat) (content : string) (updatedAt : Z)
  : M Resume :=
  fun w =>
    match findResume userId (resumes w) with
    | Some old =>
        let row := mkResume (rs_userId old) content updatedAt in
        (Return row,
         emit (EvWrite TResume userId)
              (setResumes (map (fun r => if resumeOf userId r then row else r)
                               (resumes w)) w))
    | None =>
        let row := mkResume userId content (clock w) in
        (Return row,
         emit (EvWrite TResume userId)
              (setResumes (resumes w ++ [row])%list w))
    end.

(** [db.resume.delete({ where: { userId } })] *)
Definition resumeDelete (userId : nat) : Fallible Resume :=
  fun w => match findResume userId (resumes w) with
           | None => (inl recordNotFound, w)
           | Some row =>
               (inr row,
                setResumes (filter (fun r => negb (resumeOf userId r))
                                   (resumes w)) w)
           end.

(** [db.user.findUnique({ where: { clerkUserId }, select: { industry: true } })] *)
Definition userFindIndustry (clerkId : string) : M (option (option string)) :=
  fun w => (Return (option_map user_industry
                      (find (fun u => String.eqb (user_clerkUserId u) clerkId)
                            (users w))), w).

End StoreOps.

(* ===================================================================== *)
(** * Onboarding status ([getUserOnboardingStatus]) *)
(* ===================================================================== *)

Module Onboarding.
Import JsString Js Runtime Store StoreOps.
Local Open Scope string_scope.
Local Open Scope action_scope.

Record OnboardingStatus := mkOnboardingStatus { isOnboarded : bool }.

(** [!!user?.industry] *)
Definition hasIndustry (user : option (option string)) : bool :=
  match user with
  | Some industry => negb (falsy industry)
  | None => false
  end.

Definition getUserOnboardingStatus : M OnboardingStatus :=
  userId <- auth ;;
  if falsy userId then throw (Error "Unauthorized") else
  user <- userFindIndustry (orElse userId "") ;;
  ret (mkOnboardingStatus (hasIndustry user)).

End Onboarding.

(* ===================================================================== *)
(** * Resume storage and critique ([saveResume], [getResume],
      [analyzeResume], [deleteResume]) *)
(* ===================================================================== *)

Module ResumeStorage.
Import JsString Js JsOps Runtime Store StoreOps.
Local Open Scope string_scope.
Local Open Scope action_scope.

Definition MAX_RESUME_LENGTH : Z := 50000.

Definition getAuthenticatedUser : M User := ResumeActions.getAuthenticatedUser.

(** [revalidatePath], called after a successful write, invalidates a
    page cache of the web framework; it reads and changes nothing of
    the world modelled here and has no counterpart below. *)
Definition saveResume (content : option json) : M Resume :=
  match content with
  | Some (JStr text) =>
      if String.eqb text "" then throw (Error "Invalid resume content") else
      let trimmedContent := trim text in
      if Nat.eqb (String.length trimmedContent) 0 then
        throw (Error "Resume content cannot be empty")
      else if Z.ltb MAX_RESUME_LENGTH (Z.of_nat (String.length trimmedContent)) then
        throw (Error ("Resume is too long (max "
                        ++ showNat (Z.to_nat MAX_RESUME_LENGTH)
                        ++ " characters)"))
      else
        user <- getAuthenticatedUser ;;
        tryCatch
          (t <- now ;;
           resumeUpsert (user_id user) trimmedContent t)
          (fun error =>
             throw (Error ("Failed to save resume: " ++ message error)))
  | _ => throw (Error "Invalid resume content")
  end.

Definition getResume : M (option Resume) :=
  user <- getAuthenticatedUser ;;
  resumeFindUnique (user_id user).

Record DeleteStatus := mkDeleteStatus {
  success : bool;
  ds_message : option string
}.

Definition deleteResume : M DeleteStatus :=
  user <- getAuthenticatedUser ;;
  tryStore (resumeDelete (user_id user))
    (fun _ => ret (mkDeleteStatus true None))
    (fun error =>
       if String.eqb (kre_code error) "P2025" then
         ret (mkDeleteStatus true (Some "Resume already deleted"))
       else
         throw (Error ("Failed to delete resume: " ++ kre_message error))).

Section WithPlatform.
Variable P : Platform.
(** The prompt of [analyzeResume], from the industry, the part of the
    resume that is quoted, and whether the quote is marked truncated. *)
Variable analysisPrompt : string -> string -> bool -> string.

Definition analyzeResume : M json :=
  user <- getAuthenticatedUser ;;
  if falsy (user_industry user) then
    throw (Error "Please set your industry in your profile before analyzing your resume")
  else
    resume <- resumeFindUnique (user_id user) ;;
    match resume with
    | None =>
        throw (Error "No resume found to analyze. Please create a resume first.")
    | Some r =>
        if String.eqb (rs_content r) ""
           || Nat.eqb (String.length (trim (rs_content r))) 0 then
          throw (Error "No resume found to analyze. Please create a resume first.")
        else
          let prompt :=
            analysisPrompt (orElse (user_industry user) "")
                           (sliceStart (Z.to_nat 10000) (rs_content r))
                           (Z.ltb 10000 (Z.of_nat (String.length (rs_content r)))) in
          tryCatch
            (text <- ResumeActions.callGeminiWithRetry prompt 2 ;;
             let cleanedText := cleanTextPlain text in
             analysis <- parseJson P cleanedText ;;
             score <- lift (readProp analysis "score") ;;
             if negb (isNumber score)
                || negb (isArray (getProp analysis "strengths"))
                || negb (isArray (getProp analysis "improvements")) then
               throw (Error "Invalid analysis format from AI")
             else ret analysis)
            (fun error =>
               match kind error with
               | KSyntaxError =>
                   throw (Error "Failed to parse AI analysis response")
               | _ =>
                   throw (Error ("Failed to analyze resume: "
                                   ++ message error))
               end)
    end.

End WithPlatform.
End ResumeStorage.

(* ===================================================================== *)
(** * Reading and deleting cover letters ([getCoverLetters],
      [getCoverLetter], [deleteCoverLetter]) *)
(* ===================================================================== *)

Module CoverLetterQueries.
Import JsString Js Runtime Store StoreOps.
Local Open Scope string_scope.
Local Open Scope action_scope.

Definition getAuthenticatedUser : M User := ResumeActions.getAuthenticatedUser.

Definition getCoverLetters : M (list CoverLetter) :=
  user <- getAuthenticatedUser ;;
  coverLetterFindMany (user_id user).

(** The [id] argument is [None] when it is missing or empty ([!id]). *)
Definition getCoverLetter (id : option nat) : M CoverLetter :=
  match id with
  | None => throw (Error "Cover letter ID is required")
  | Some i =>
      user <- getAuthenticatedUser ;;
      coverLetter <- coverLetterFindUnique i (user_id user) ;;
      match coverLetter with
      | None => throw (Error "Cover letter not found")
      | Some c => ret c
      end
  end.

Definition deleteCoverLetter (id : option nat) : M CoverLetter :=
  match id with
  | None => throw (Error "Cover letter ID is required")
  | Some i =>
      user <- getAuthenticatedUser ;;
      orThrow (coverLetterDelete i (user_id user))
  end.

End CoverLetterQueries.

(* ===================================================================== *)
(** * Quiz results ([saveQuizResult], [deleteAssessment]) *)
(* ===================================================================== *)

Module QuizResults.
Import JsString Js JsOps Runtime Store StoreOps.
Local Open Scope string_scope.
Local Open Scope action_scope.

Definition getAuthenticatedUser : M User := ResumeActions.getAuthenticatedUser.

(** An element of [questionResults]. *)
Record QuestionResult := mkQuestionResult {
  qr_question : option json;
  qr_answer : option json;
  qr_userAnswer : json;
  qr_isCorrect : bool;
  qr_explanation : option json
}.

(** The value [saveQuizResult] returns: the row created, with the
    columns written beside those of [Assessment]. *)
Record SavedAssessment := mkSavedAssessment {
  sa_row : Assessment;
  sa_quizScore : float;
  sa_questions : list QuestionResult;
  sa_category : string;
  sa_improvementTip : string
}.

(** [typeof score !== 'number' || score < 0 || score > 100] *)
Definition invalidScore (score : option json) : bool :=
  match score with
  | Some (JNum x) => PrimFloat.ltb x 0 || PrimFloat.ltb 100 x
  | _ => true
  end.

Definition scoreOf (score : option json) : float :=
  match score with
  | Some (JNum x) => x
  | _ => 0%float
  end.

(** [questions.map((q, index) => ({ ... }))], from index [index] on. *)
Fixpoint questionResultsFrom (index : nat) (questions answers : list json)
  : Outcome (list QuestionResult) :=
  match questions with
  | [] => Return []
  | q :: rest =>
      obind (readProp q "question") (fun question =>
      let correctAnswer := getProp q "correctAnswer" in
      let given := nth_error answers index in
      let result :=
        mkQuestionResult question correctAnswer
                         (orValue given (JStr "Not answered"))
                         (strictEquals correctAnswer given)
                         (getProp q "explanation") in
      obind (questionResultsFrom (S index) rest answers) (fun results =>
      Return (result :: results)))
  end.

Definition fallbackTip : string :=
  "Keep practicing! Review the explanations for questions you missed and focus on those topics.".

Definition perfectTip : string :=
  "Perfect score! You've demonstrated excellent knowledge. Keep it up!".

Section WithPrompt.
(** The prompt asking for a tip, from the user, the number of wrong
    answers and the wrong answers that are quoted. *)
Variable improvementPrompt : User -> nat -> list QuestionResult -> string.

Definition saveQuizResult (questions answers score : option json)
  : M SavedAssessment :=
  match asArray questions with
  | None => throw (Error "Invalid questions array")
  | Some qs =>
      if Nat.eqb (List.length qs) 0 then
        throw (Error "Invalid questions array")
      else
        match asArray answers with
        | None => throw (Error "Invalid answers array")
        | Some ans =>
            if invalidScore score then
              throw (Error "Invalid score: must be between 0 and 100")
            else if negb (Nat.eqb (List.length qs) (List.length ans)) then
              throw (Error "Questions and answers length mismatch")
            else
              user <- getAuthenticatedUser ;;
              questionResults <- lift (questionResultsFrom 0 qs ans) ;;
              let wrongAnswers :=
                filter (fun q => negb (qr_isCorrect q)) questionResults in
              improvementTip <-
                (if Nat.ltb 0 (List.length wrongAnswers) then
                   let prompt :=
                     improvementPrompt user (List.length wrongAnswers)
                                       (firstn 3 wrongAnswers) in
                   tryCatch
                     (text <- generateContent prompt ;; ret (trim text))
                     (fun err => ret fallbackTip)
                 else ret perfectTip) ;;
              tryCatch
                (row <- assessmentCreate (user_id user) ;;
                 ret (mkSavedAssessment row (scoreOf score) questionResults
                                        "Technical" improvementTip))
                (fun error =>
                   throw (Error ("Failed to save quiz result: "
                                   ++ message error)))
        end
  end.

End WithPrompt.

(** The [id] argument is [None] when it is missing or empty ([!id]). *)
Definition deleteAssessment (id : option nat) : M Assessment :=
  match id with
  | None => throw (Error "Assessment ID is required")
  | Some i =>
      user <- getAuthenticatedUser ;;
      orThrow (assessmentDelete i (user_id user))
  end.

End QuizResults.

(* ===================================================================== *)
(** * Vocabulary of the properties, and the scenarios they are tried on *)
(* ===================================================================== *)

Module SanitizerSpec.
Import JsString.

Definition allWhite (l : list ascii) : bool := forallb isWhiteSpace l.

(** A string of white space only. *)
Definition whiteString (s : string) : bool := allWhite (list_ascii_of_string s).

(** The tail a fence match goes on with. *)
Definition afterFence (tag nl : bool) (r : list ascii) : list ascii :=
  let r' := if tag then skipJsonTag r else r in
  if nl then skipNewline r' else r'.

Definition fence : list ascii := [backtick; backtick; backtick].
Definition jsonFence : list ascii :=
  (fence ++ ["j"; "s"; "o"; "n"])%char.

(** [s] is [x] with white space around it. *)
Definition padded (x s : list ascii) : Prop :=
  exists w1 w2, allWhite w1 = true /\ allWhite w2 = true /\ s = w1 ++ x ++ w2.

(** [t] inside a fenced block tagged json, with optional white space
    around the block and between the fences and [t]. *)
Definition fenced (pre inner1 t inner2 post : string) : string :=
  (pre ++ "```json" ++ inner1 ++ t ++ inner2 ++ "```" ++ post)%string.
End SanitizerSpec.

Module ValidatorSpec.
Import JsString Js.
Local Open Scope string_scope.

(** The seven fields an industry insight must carry. *)
Definition insightFieldNames : list string :=
  [ "salaryRanges"; "growthRate"; "demandLevel"; "topSkills";
    "marketOutlook"; "keyTrends"; "recommendedSkills" ].

(** Field [f] of [data] is present and, where a constraint is stated for
    it, meets the constraint. *)
Definition fieldValid (data : json) (f : string) : Prop :=
  exists v, getProp data f = Some v
    /\ (f = "salaryRanges" ->
        exists items, v = JArr items /\ 3 <= List.length items)
    /\ (f = "topSkills" ->
        exists items, v = JArr items /\ 5 <= List.length items)
    /\ (f = "demandLevel" ->
        v = JStr "HIGH" \/ v = JStr "MEDIUM" \/ v = JStr "LOW")
    /\ (f = "marketOutlook" ->
        v = JStr "POSITIVE" \/ v = JStr "NEUTRAL" \/ v = JStr "NEGATIVE").

Definition insightsWellFormed (data : json) : Prop :=
  forall f, In f insightFieldNames -> fieldValid data f.

(** The error message names field [f]. *)
Definition names (msg f : string) : Prop :=
  exists before after, msg = before ++ f ++ after.
End ValidatorSpec.

Module QuizSpec.
Import JsString Js.
Local Open Scope string_scope.

(** A question with a non-empty string [question], exactly four
    [options], a [correctAnswer] equal to one of them, and a non-empty
    string [explanation]. *)
Definition questionWellFormed (q : json) : Prop :=
  (exists s, getProp q "question" = Some (JStr s) /\ s <> "")
  /\ (exists opts, getProp q "options" = Some (JArr opts)
        /\ List.length opts = 4
        /\ exists a, getProp q "correctAnswer" = Some a
             /\ truthy a = true
             /\ existsb (sameValueZero a) opts = true)
  /\ (exists e, getProp q "explanation" = Some (JStr e) /\ e <> "").

Definition quizWellFormed (quiz : json) : Prop :=
  exists qs, getProp quiz "questions" = Some (JArr qs)
    /\ List.length qs = 10
    /\ Forall questionWellFormed qs.

(** The four per-question clauses, as the validator words them. *)
Definition clauseTexts : list string :=
  [ "missing or invalid question text";
    "must have exactly 4 options";
    "correctAnswer must be one of the options";
    "missing or invalid explanation" ].

Definition goodQuestion : json :=
  JObj [ ("question", JStr "What is a closure?");
         ("options", JArr [JStr "A"; JStr "B"; JStr "C"; JStr "D"]);
         ("correctAnswer", JStr "B");
         ("explanation", JStr "B is the definition.") ].

(** A parsed quiz of ten items whose first item is [null]. *)
Definition quizWithNullItem : json :=
  JObj [ ("questions", JArr (JNull :: repeat goodQuestion 9)) ].
End QuizSpec.

Module Scenario.
Import JsString Js Runtime Store.
Local Open Scope string_scope.

Definition day : Z := 24 * 60 * 60 * 1000.
Definition hour : Z := 60 * 60 * 1000.

Definition salary (role : string) : json :=
  JObj [ ("role", JStr role); ("min", JNum 120000%float);
         ("max", JNum 180000%float); ("median", JNum 150000%float);
         ("location", JStr "United States") ].

(** A generated report that meets every constraint. *)
Definition sampleInsights : json :=
  JObj [ ("salaryRanges",
          JArr [salary "Engineer"; salary "Analyst"; salary "Manager"]);
         ("growthRate", JNum 15.5%float);
         ("demandLevel", JStr "HIGH");
         ("topSkills",
          JArr [JStr "Python"; JStr "SQL"; JStr "React"; JStr "AWS"; JStr "Go"]);
         ("marketOutlook", JStr "POSITIVE");
         ("keyTrends", JArr [JStr "AI"; JStr "Remote"; JStr "Cloud";
                             JStr "Security"; JStr "Green"]);
         ("recommendedSkills",
          JArr [JStr "ML"; JStr "DevOps"; JStr "Data"; JStr "Agile"; JStr "Rust"]) ].

(** The text the provider answers with in the scenarios. *)
Definition insightsText : string := "{ the report above, as JSON text }".

(** A platform: a host on UTC, short prompts, and a parser that reads
    the one text used here. *)
Definition platform : Platform :=
  mkPlatform
    (fun text => if String.eqb text insightsText then Parsed sampleInsights
                 else Unparsable "Unexpected token")
    (fun t => (t - t mod day)%Z)
    (fun _ industry => "Analyze the " ++ industry ++ " industry")
    (fun _ industry => "Weekly analysis of the " ++ industry ++ " industry")
    (fun u => "Generate 10 interview questions")
    (fun u d => "Write a cover letter for " ++ in_jobTitle d)
    (fun type current industry => "Improve this " ++ type).

Definition answering (text : string) : nat -> string -> GenResult :=
  fun _ _ => GenText text.

Definition unavailable : nat -> string -> GenResult :=
  fun _ _ => GenFail "503 Service Unavailable".

Definition alice : User :=
  mkUser 1 "user_alice" "alice@example.org" (Some "Alice") (Some "Tech") 5
         None ["Python"; "SQL"].

(** A record written at time 0, due seven days later. *)
Definition staleRow : Insight :=
  mkInsight 2 "Tech" None (JArr []) (JNum 0%float) (JStr "MEDIUM") (JArr [])
            (JStr "NEUTRAL") (JArr []) (JArr []) 0 (7 * day).

(** Day 8: the record's [nextUpdate] was yesterday. *)
Definition staleWorld (provider : nat -> string -> GenResult) : World :=
  mkWorld (8 * day) (Some "user_alice") [alice] [staleRow] [] [] [] 10
          provider 0 [].

(** Alice signed in, before any insight record exists. *)
Definition emptyWorld (provider : nat -> string -> GenResult) : World :=
  mkWorld (8 * day) (Some "user_alice") [alice] [] [] [] [] 10 provider 0 [].

Definition aliceProfile : UserActions.ProfileInput :=
  UserActions.mkProfileInput "Tech" 5 None (UserActions.SkillsText "Python, SQL")
                             "alice@example.org" (Some "Alice").
End Scenario.

Module RetrySpec.
Import JsString Js Runtime.
Local Open Scope string_scope.

(** One failed attempt followed by its back-off: the provider call, then
    the suspension for [baseDelay] times the 1-indexed attempt number. *)
Definition failedRound (prompt : string) (baseDelay : Z) (k : nat)
  : list Event :=
  [EvGenerate prompt; EvSleep (baseDelay * Z.of_nat k)].

(** The events of [n + 1] failed attempts: [n] rounds with back-off, then
    the last attempt with no delay after it. *)
Definition exhaustionEvents (prompt : string) (baseDelay : Z) (n : nat)
  : list Event :=
  (flat_map (failedRound prompt baseDelay) (seq 1 n) ++ [EvGenerate prompt])%list.

Definition totalDelay (baseDelay : Z) (ks : list nat) : Z :=
  fold_right (fun k acc => baseDelay * Z.of_nat k + acc)%Z 0%Z ks.

(** The world after [n + 1] failed attempts started in [w]. *)
Definition exhaustedWorld (prompt : string) (baseDelay : Z) (n : nat)
           (w : World) : World :=
  mkWorld (clock w + totalDelay baseDelay (seq 1 n))%Z (session w) (users w)
          (insights w) (coverLetters w) (assessments w) (resumes w)
          (nextId w) (gemini w) (geminiCalls w + (n + 1))
          (trace w ++ exhaustionEvents prompt baseDelay n)%list.

(** What an attempt of [callGeminiWithRetry] makes of the provider's
    answer. *)
Definition callGeminiOutcome (r : GenResult) : Outcome string :=
  match r with
  | GenFail msg => Throw (Error msg)
  | GenText raw =>
      if String.eqb (trim raw) "" then Throw (Error "Empty response from AI")
      else Return (trim raw)
  end.

(** What an attempt of [generateWithRetry] makes of the provider's
    answer. *)
Definition generateOutcome (P : Platform) (industry : string) (r : GenResult)
  : Outcome json :=
  match r with
  | GenFail msg => Throw (Error msg)
  | GenText text =>
      if String.eqb text "" || Nat.eqb (String.length (trim text)) 0 then
        Throw (Error "Empty response from AI")
      else
        match JSON_parse P (cleanTextPlain text) with
        | Unparsable msg => Throw (SyntaxError msg)
        | Parsed v => obind (validateInsights v industry) (fun _ => Return v)
        end
  end.

Definition thrown {A} (o : Outcome A) : option JsError :=
  match o with
  | Throw e => Some e
  | Return _ => None
  end.

(** The world after the failed attempts number [attempt + 1] to
    [attempt + remaining]. *)
Definition exhaustedFrom (prompt : string) (baseDelay : Z)
           (attempt remaining : nat) (w : World) : World :=
  match remaining with
  | O => w
  | S k =>
      mkWorld (clock w + totalDelay baseDelay (seq (attempt + 1) k))%Z
              (session w) (users w) (insights w) (coverLetters w)
              (assessments w) (resumes w) (nextId w) (gemini w)
              (geminiCalls w + remaining)
              (trace w ++ flat_map (failedRound prompt baseDelay)
                                   (seq (attempt + 1) k)
                       ++ [EvGenerate prompt])%list
  end.

(** The [throw] that follows the loop. *)
Definition finalThrow {A} (exhausted : nat -> string -> string)
           (maxRetries : nat) (last : option JsError) : Outcome A :=
  match last with
  | Some e => Throw (Error (exhausted (maxRetries + 1) (message e)))
  | None =>
      Throw (TypeError
               "Cannot read properties of undefined (reading 'message')")
  end.

(** A provider that is down, and a world to call it in. *)
Definition downWorld : World :=
  mkWorld 0 None [] [] [] [] [] 0 (fun _ _ => GenFail "503 Service Unavailable")
          0 [].

Definition countGenerate (evs : list Event) : nat :=
  List.length (filter (fun ev => match ev with EvGenerate _ => true | _ => false end)
                      evs).

Definition sleepsOf (evs : list Event) : list Z :=
  flat_map (fun ev => match ev with EvSleep ms => [ms] | _ => [] end) evs.
End RetrySpec.

Module CacheSpec.
Import JsString Js Runtime Store.
Local Open Scope string_scope.

(** The session belongs to the stored user [u]. *)
Definition signedIn (w : World) (u : User) : Prop :=
  exists uid, session w = Some uid /\ uid <> ""
    /\ find (fun x => String.eqb (user_clerkUserId x) uid) (users w) = Some u.

(** The error [generateAIInsights] rethrows for a caught [error]. *)
Definition wrapInsightError (error : JsError) : JsError :=
  match kind error with
  | KSyntaxError => Error "Failed to parse AI response as valid JSON"
  | _ => Error ("Failed to generate industry insights: " ++ message error)
  end.

(** What [generateAIInsights] makes of the provider's answer. *)
Definition insightsOutcome (P : Platform) (r : GenResult) : Outcome json :=
  match r with
  | GenFail msg => Throw (wrapInsightError (Error msg))
  | GenText text =>
      match JSON_parse P (cleanText text) with
      | Unparsable msg => Throw (wrapInsightError (SyntaxError msg))
      | Parsed v =>
          match validateInsightsResponse v with
          | Return _ => Return v
          | Throw e => Throw (wrapInsightError e)
          end
      end
  end.

(** The answer the provider gives to the next call, made in [w] for
    [industry]. *)
Definition nextInsights (P : Platform) (industry : string) (w : World)
  : Outcome json :=
  insightsOutcome P (gemini w (geminiCalls w)
                            (insightsPrompt P (clock w) industry)).

Definition sevenDays : Z := 7 * 24 * 60 * 60 * 1000.



(** Day 8 with a record that is due on day 10. *)
Definition freshRow : Insight :=
  mkInsight 2 "Tech" None (JArr []) (JNum 0%float) (JStr "MEDIUM") (JArr [])
            (JStr "NEUTRAL") (JArr []) (JArr []) (3 * Scenario.day)
            (10 * Scenario.day).

Definition freshWorld : World :=
  mkWorld (8 * Scenario.day) (Some "user_alice") [Scenario.alice] [freshRow]
          [] [] [] 10 Scenario.unavailable 0 [].
End CacheSpec.

Module BatchSpec.
Import JsString Js Runtime Store RetrySpec CacheSpec.
Local Open Scope string_scope.

(** The industry key passes the loop's guard against blank keys. *)
Definition notBlank (industry : string) : Prop :=
  String.eqb industry "" || Nat.eqb (String.length (trim industry)) 0 = false.

(** The world after the job has refreshed [industry] with the generated
    [insights]: one provider call, then every column, [lastUpdated] and
    [nextUpdate] of the row overwritten. *)
Definition refreshedWorld (P : Platform) (industry : string) (insights : json)
           (id : nat) (w : World) : World :=
  emit (EvWrite TInsight id)
       (setInsights
          (map (fun i => if String.eqb (ins_industry i) industry
                         then patchInsight
                                (InngestFunctions.refreshData insights (clock w)) i
                         else i)
               (Runtime.insights w))
          (afterCall (createPrompt P (clock w) industry) w)).

(** The inter-item delay, taken unless the item is the last. *)
Definition delayed (len i : nat) (w : World) : World :=
  if Nat.ltb i (len - 1)
  then emit (EvSleep InngestFunctions.DELAY_BETWEEN_INDUSTRIES_MS)
            (advance InngestFunctions.DELAY_BETWEEN_INDUSTRIES_MS w)
  else w.

Definition blankRow (id : nat) (industry : string) : Insight :=
  mkInsight id industry None (JArr []) (JNum 0%float) (JStr "MEDIUM") (JArr [])
            (JStr "NEUTRAL") (JArr []) (JArr []) 0 (7 * Scenario.day).

(** A provider that is down for the Retail report and answers the
    others. *)
Definition retailDown : nat -> string -> GenResult :=
  fun _ prompt =>
    if String.eqb prompt "Weekly analysis of the Retail industry"
    then GenFail "503 Service Unavailable"
    else GenText Scenario.insightsText.

Definition threeIndustries : World :=
  mkWorld (8 * Scenario.day) None []
          [blankRow 1 "Tech"; blankRow 2 "Retail"; blankRow 3 "Health"]
          [] [] [] 10 retailDown 0 [].
End BatchSpec.

Module QuotaSpec.
Import JsString Js Runtime Store RetrySpec CacheSpec.
Local Open Scope string_scope.


(** The input of [improveWithAI] passes its validation. *)
Definition validImprove (input : ResumeActions.ImproveInput) : Prop :=
  String.eqb (ResumeActions.im_current input) ""
  || String.eqb (trim (ResumeActions.im_current input)) "" = false
  /\ Nat.ltb 5000 (String.length (ResumeActions.im_current input)) = false
  /\ String.eqb (ResumeActions.im_type input) "" = false
  /\ existsb (String.eqb (toLowerCase (ResumeActions.im_type input)))
             ResumeActions.validTypes = true.

(** [userId] is the unique key of the resume collection: no two rows
    belong to one user. *)
Definition uniqueResumes (w : World) : Prop :=
  NoDup (map rs_userId (resumes w)).

(** Every stored cover letter has an id below the next fresh one. *)
Definition freshIds (w : World) : Prop :=
  Forall (fun c => cl_id c < nextId w) (coverLetters w).

Definition letterInput : CoverLetterInput :=
  mkCoverLetterInput "Engineer" "Initech" "Build and verify services.".



(** The rows a run of [generateCoverLetter] stores for user [u] and
    input [d]: the placeholder, and what it becomes. *)
Definition letterRow (w : World) (u : User) (d : CoverLetterInput)
           (content status : string) : CoverLetter :=
  mkCoverLetter (nextId w) (user_id u) content (in_jobDescription d)
                (in_companyName d) (in_jobTitle d) status (clock w).

Definition finalLetter (P : Platform) (w : World) (u : User)
           (d : CoverLetterInput) : CoverLetter :=
  match callGeminiOutcome (gemini w (geminiCalls w) (coverLetterPrompt P u d)) with
  | Return content => letterRow w u d content "completed"
  | Throw _ => letterRow w u d "" "failed"
  end.

(** Noon on day 8, two letters of the day stored, the provider
    answering. *)
Definition noonLetter (id : nat) : CoverLetter :=
  mkCoverLetter id 1 "Dear team" "Build and verify services." "Initech"
                "Engineer" "completed" (8 * Scenario.day + Scenario.hour).

Definition noonWorld : World :=
  mkWorld (8 * Scenario.day + 12 * Scenario.hour) (Some "user_alice")
          [Scenario.alice] [] (map noonLetter (seq 100 2)) [] [] 200
          (Scenario.answering "Dear hiring manager") 0 [].
End QuotaSpec.

Module FenceSpec.
Import JsString.

(** [s] begins with three backticks. *)
Definition startsFence (s : list ascii) : bool :=
  match s with
  | c1 :: c2 :: c3 :: _ =>
      Ascii.eqb c1 backtick && Ascii.eqb c2 backtick && Ascii.eqb c3 backtick
  | _ => false
  end.

(** Three backticks in a row occur somewhere in [s]. *)
Fixpoint hasFence (s : list ascii) : bool :=
  match s with
  | [] => false
  | _ :: r => startsFence s || hasFence r
  end.

Definition containsFence (s : string) : bool :=
  hasFence (list_ascii_of_string s).

(** The first replacement alone, then [trim]. *)
Definition firstPassOnly (text : string) : string :=
  string_of_list_ascii
    (trimL (stripFences true true (list_ascii_of_string text))).

(** A double quote, and a JSON text whose one string value holds a
    fence marker. *)
Definition dquote : string := String (ascii_of_nat 34) EmptyString.

Definition fenceInValue : string :=
  ("{" ++ dquote ++ "a" ++ dquote ++ ":" ++ dquote ++ "```json" ++ dquote
       ++ "}")%string.

Definition emptyValue : string :=
  ("{" ++ dquote ++ "a" ++ dquote ++ ":" ++ dquote ++ dquote ++ "}")%string.
End FenceSpec.

Module SkillsSpec.
Import JsString.
Local Open Scope string_scope.

Definition hasComma (s : string) : bool :=
  existsb (Ascii.eqb ","%char) (list_ascii_of_string s).

(** A skill as [normalizeSkills] leaves it: not empty, no white space
    at either end. *)
Definition cleanSkill (s : string) : Prop := s <> "" /\ trim s = s.
End SkillsSpec.

Module AttemptSpec.
Import JsString Js Runtime RetrySpec.
Local Open Scope string_scope.

(** The events of [k] failed attempts, each followed by its back-off,
    and of one more attempt. *)
Definition attemptEvents (prompt : string) (baseDelay : Z) (k : nat)
  : list Event :=
  (flat_map (failedRound prompt baseDelay) (seq 1 k) ++ [EvGenerate prompt])%list.

(** The world after the attempts number [attempt + 1] to
    [attempt + k + 1], all but the last followed by their back-off. *)
Definition attemptsFrom (prompt : string) (baseDelay : Z) (attempt k : nat)
           (w : World) : World :=
  mkWorld (clock w + totalDelay baseDelay (seq (attempt + 1) k))%Z
          (session w) (users w) (insights w) (coverLetters w)
          (assessments w) (resumes w) (nextId w) (gemini w)
          (geminiCalls w + S k)
          (trace w ++ flat_map (failedRound prompt baseDelay)
                               (seq (attempt + 1) k)
                   ++ [EvGenerate prompt])%list.

(** Nothing but the clock, the provider's call count and the trace
    differs between [w] and [w']: session, collections and the source of
    ids are the same. *)
Definition sameStore (w w' : World) : Prop :=
  session w' = session w /\ users w' = users w /\ insights w' = insights w
  /\ coverLetters w' = coverLetters w /\ assessments w' = assessments w
  /\ resumes w' = resumes w /\ nextId w' = nextId w /\ gemini w' = gemini w.

(** A provider whose first answer is an error and whose later answers
    are [text]. *)
Definition failingOnce (text : string) : nat -> string -> GenResult :=
  fun call _ => match call with
                | O => GenFail "503 Service Unavailable"
                | S _ => GenText text
                end.

Definition flakyWorld (text : string) : World :=
  mkWorld 0 None [] [] [] [] [] 0 (failingOnce text) 0 [].
End AttemptSpec.

Module FrameSpec.
Import JsString Js Runtime.

(** Every run of [c] relates the world it starts in to the world it
    ends in by [R], whether it returns or throws. *)
Definition keeps {A} (R : World -> World -> Prop) (c : M A) : Prop :=
  forall w, R w (snd (c w)).

(** [f] has the same value after as before. *)
Definition same {X} (f : World -> X) : World -> World -> Prop :=
  fun w w' => f w' = f w.

(** The number of provider calls grows by at most [n]. *)
Definition callsWithin (n : nat) (w w' : World) : Prop :=
  geminiCalls w <= geminiCalls w' <= geminiCalls w + n.

Record Preorder (R : World -> World -> Prop) : Prop := mkPreorder {
  pre_refl : forall w, R w w;
  pre_trans : forall a b c, R a b -> R b c -> R a c
}.

(** [R] holds across a provider call and across a suspension. *)
Record CallSafe (R : World -> World -> Prop) : Prop := mkCallSafe {
  safe_call : forall prompt w, R w (afterCall prompt w);
  safe_sleep : forall ms w, R w (emit (EvSleep ms) (advance ms w))
}.
End FrameSpec.

Module ImproveSpec.
Import JsString Js Runtime Store StoreOps.
Local Open Scope string_scope.

(** Alice at noon of day 8, her resume saved a minute ago. *)
Definition resumeWorld (provider : nat -> string -> GenResult) : World :=
  mkWorld (8 * Scenario.day + 12 * Scenario.hour) (Some "user_alice")
          [Scenario.alice] [] [] []
          [mkResume 1 "Engineer with five years of experience."
                    (8 * Scenario.day + 12 * Scenario.hour - 60000)]
          10 provider 0 [].
End ImproveSpec.

Module ResumeSpec.
Import JsString Js JsOps Runtime Store StoreOps.
Local Open Scope string_scope.

(** An analysis as [analyzeResume] lets it through: a numeric [score],
    and [strengths] and [improvements] that are arrays. *)
Definition analysisWellFormed (a : json) : Prop :=
  (exists x, getProp a "score" = Some (JNum x))
  /\ (exists l, getProp a "strengths" = Some (JArr l))
  /\ (exists l, getProp a "improvements" = Some (JArr l)).

(** The prompt [analyzeResume] sends for a resume with content
    [content]. *)
Definition analysisPromptFor (analysisPrompt : string -> string -> bool -> string)
           (u : User) (content : string) : string :=
  analysisPrompt (orElse (user_industry u) "")
                 (sliceStart (Z.to_nat 10000) content)
                 (Z.ltb 10000 (Z.of_nat (String.length content))).

Definition shortPrompt : string -> string -> bool -> string :=
  fun industry _ _ => "Analyze this " ++ industry ++ " resume".

(** Alice signed in, no resume stored. *)
Definition noResumeWorld : World :=
  mkWorld (8 * Scenario.day) (Some "user_alice") [Scenario.alice] [] [] []
          [] 10 Scenario.unavailable 0 [].
End ResumeSpec.

Module LetterSpec.
Import JsString Js Runtime Store StoreOps.
Local Open Scope string_scope.

(** [id] is the primary key of the cover-letter collection. *)
Definition uniqueLetterIds (w : World) : Prop :=
  NoDup (map cl_id (coverLetters w)).

(** Newest first. *)
Definition newestFirst (l : list CoverLetter) : Prop :=
  StronglySorted (fun a b => (cl_createdAt b <= cl_createdAt a)%Z) l.

(** Two users, Alice (id 1) and Bob (id 2), and their letters. *)
Definition bob : User :=
  mkUser 2 "user_bob" "bob@example.org" (Some "Bob") (Some "Retail") 3 None [].

Definition letterOf (id userId : nat) (createdAt : Z) : CoverLetter :=
  mkCoverLetter id userId "Dear team" "Build and verify services." "Initech"
                "Engineer" "completed" createdAt.

Definition sharedWorld : World :=
  mkWorld (8 * Scenario.day + 12 * Scenario.hour) (Some "user_alice")
          [Scenario.alice; bob] []
          [letterOf 100 1 (8 * Scenario.day); letterOf 101 2 (8 * Scenario.day);
           letterOf 102 1 (8 * Scenario.day + Scenario.hour)]
          [] [] 200 (Scenario.answering "Dear hiring manager") 0 [].
End LetterSpec.

Module OnboardingSpec.
Import JsString Js Runtime Store StoreOps.
Local Open Scope string_scope.

(** A session whose user has no row yet. *)
Definition newcomerWorld : World :=
  mkWorld (8 * Scenario.day) (Some "user_carol") [Scenario.alice] [] [] [] []
          10 Scenario.unavailable 0 [].
End OnboardingSpec.

Module AccountingSpec.
Import JsString Js Runtime Store InngestFunctions.
Local Open Scope string_scope.

(** The industries handled so far, whatever the outcome. *)
Definition handled (s : Stats) : nat := successful s + failed s + skipped s.

(** The industries the job enumerates: the distinct [industry] keys of
    the insight collection. *)
Definition industriesOf (w : World) : list string :=
  nodup string_dec (map ins_industry (insights w)).
End AccountingSpec.

Module ReadBackSpec.
Import JsString Js Runtime Store.
Local Open Scope string_scope.

(** [id] is the primary key of the insight collection. *)
Definition uniqueInsightIds (w : World) : Prop :=
  NoDup (map ins_id (insights w)).
End ReadBackSpec.

Module ResultSpec.
Import JsString Js JsOps Runtime Store StoreOps QuizResults.
Local Open Scope string_scope.

(** [id] is the primary key of the assessment collection. *)
Definition uniqueAssessmentIds (w : World) : Prop :=
  NoDup (map as_id (assessments w)).

(** The results that count as wrong. *)
Definition wrongAnswers (results : list QuestionResult) : list QuestionResult :=
  filter (fun q => negb (qr_isCorrect q)) results.

Definition tipPrompt : User -> nat -> list QuestionResult -> string :=
  fun _ n _ => "Give one tip for " ++ showNat n ++ " wrong answers".

Definition question (text answer : string) : json :=
  JObj [ ("question", JStr text);
         ("options", JArr [JStr "A"; JStr "B"; JStr "C"; JStr "D"]);
         ("correctAnswer", JStr answer);
         ("explanation", JStr "See the documentation.") ].

(** Alice at noon of day 8 with four quizzes of the day saved, the
    provider down. *)
Definition quizWorld : World :=
  mkWorld (8 * Scenario.day + 12 * Scenario.hour) (Some "user_alice")
          [Scenario.alice] [] []
          (map (fun id => mkAssessment id 1 (8 * Scenario.day + Scenario.hour))
               (seq 100 4))
          [] 200 Scenario.unavailable 0 [].
End ResultSpec.

(* ===================================================================== *)
(** * Properties *)
(* ===================================================================== *)

Module SanitizerProofs.
Import JsString Js Runtime SanitizerSpec FenceSpec.
Lemma white_not_backtick c :
  isWhiteSpace c = true -> Ascii.eqb c backtick = false.
Proof.
  intros H. destruct (Ascii.eqb_spec c backtick) as [->|]; [discriminate H | reflexivity].
Qed.

Lemma white_not_tag c :
  isWhiteSpace c = true ->
  Ascii.eqb c "j" = false /\ Ascii.eqb c "s" = false
  /\ Ascii.eqb c "o" = false /\ Ascii.eqb c "n" = false.
Proof.
  intros H. repeat split;
    match goal with
    | |- Ascii.eqb c ?x = false =>
        destruct (Ascii.eqb_spec c x) as [->|]; [discriminate H | reflexivity]
    end.
Qed.

Lemma stripFences_fence tag nl r :
  stripFences tag nl (backtick :: backtick :: backtick :: r)
  = stripFences tag nl (afterFence tag nl r).
Proof. reflexivity. Qed.

Lemma stripFences_keep1 tag nl c r :
  Ascii.eqb c backtick = false ->
  stripFences tag nl (c :: r) = c :: stripFences tag nl r.
Proof.
  intros H. destruct r as [|c2 [|c3 r3]]; simpl; try reflexivity.
  rewrite H. reflexivity.
Qed.

Lemma stripFences_unfold3 tag nl c1 c2 c3 r :
  stripFences tag nl (c1 :: c2 :: c3 :: r)
  = if Ascii.eqb c1 backtick && Ascii.eqb c2 backtick && Ascii.eqb c3 backtick
    then stripFences tag nl (afterFence tag nl r)
    else c1 :: stripFences tag nl (c2 :: c3 :: r).
Proof. reflexivity. Qed.

Lemma stripFences_keep2 tag nl c1 c2 r :
  Ascii.eqb c2 backtick = false ->
  stripFences tag nl (c1 :: c2 :: r) = c1 :: stripFences tag nl (c2 :: r).
Proof.
  intros H. destruct r as [|c3 r3]; [reflexivity|].
  cbn [stripFences]. rewrite H, andb_false_r. reflexivity.
Qed.

Lemma stripFences_white tag nl w u :
  allWhite w = true ->
  stripFences tag nl (w ++ u) = w ++ stripFences tag nl u.
Proof.
  induction w as [|c w IH]; intros H; [reflexivity|].
  simpl in H. apply andb_true_iff in H as [Hc Hw].
  change ((c :: w) ++ u) with (c :: (w ++ u)).
  rewrite stripFences_keep1 by (apply white_not_backtick; exact Hc).
  rewrite IH by exact Hw. reflexivity.
Qed.

Lemma stripFences_all_white tag nl w :
  allWhite w = true -> stripFences tag nl w = w.
Proof.
  intros H. rewrite <- (app_nil_r w) at 1.
  rewrite stripFences_white by exact H. simpl. apply app_nil_r.
Qed.

Lemma afterFence_length tag nl r : List.length (afterFence tag nl r) <= List.length r.
Proof.
  unfold afterFence.
  assert (Hj : List.length (skipJsonTag r) <= List.length r).
  { unfold skipJsonTag.
    repeat match goal with
           | |- context [match ?x with _ => _ end] => destruct x
           end; simpl; lia. }
  assert (Hn : forall x, List.length (skipNewline x) <= List.length x).
  { intros x. unfold skipNewline.
    repeat match goal with
           | |- context [match ?x with _ => _ end] => destruct x
           end; simpl; lia. }
  pose proof (Hn (skipJsonTag r)). pose proof (Hn r).
  destruct tag, nl; cbv zeta; lia.
Qed.

Lemma skipJsonTag_app r sfx :
  (forall c r', sfx = c :: r' ->
     Ascii.eqb c "j" = false /\ Ascii.eqb c "s" = false
     /\ Ascii.eqb c "o" = false /\ Ascii.eqb c "n" = false) ->
  skipJsonTag (r ++ sfx) = skipJsonTag r ++ sfx.
Proof.
  intros H.
  assert (Hs : skipJsonTag sfx = sfx).
  { destruct sfx as [|c r']; [reflexivity|].
    unfold skipJsonTag. destruct (H c r' eq_refl) as [-> _]. reflexivity. }
  destruct r as [|c1 [|c2 [|c3 [|c4 r4]]]]; simpl.
  - exact Hs.
  - destruct (Ascii.eqb c1 "j"); [|reflexivity].
    destruct sfx as [|c r']; [reflexivity|].
    destruct (H c r' eq_refl) as (_ & -> & _). reflexivity.
  - destruct (Ascii.eqb c1 "j"); [|reflexivity].
    destruct (Ascii.eqb c2 "s"); [|reflexivity].
    destruct sfx as [|c r']; [reflexivity|].
    destruct (H c r' eq_refl) as (_ & _ & -> & _). reflexivity.
  - destruct (Ascii.eqb c1 "j"); [|reflexivity].
    destruct (Ascii.eqb c2 "s"); [|reflexivity].
    destruct (Ascii.eqb c3 "o"); [|reflexivity].
    destruct sfx as [|c r']; [reflexivity|].
    destruct (H c r' eq_refl) as (_ & _ & _ & ->). reflexivity.
  - destruct (Ascii.eqb c1 "j"); [|reflexivity].
    destruct (Ascii.eqb c2 "s"); [|reflexivity].
    destruct (Ascii.eqb c3 "o"); [|reflexivity].
    destruct (Ascii.eqb c4 "n"); reflexivity.
Qed.

Lemma skipNewline_app r sfx :
  r <> [] -> skipNewline (r ++ sfx) = skipNewline r ++ sfx.
Proof.
  destruct r as [|c r]; [congruence|]. intros _. simpl.
  destruct (Ascii.eqb c newline); reflexivity.
Qed.

(** A fence match followed by the closing fence: the fence is left intact. *)
Lemma afterFence_app_fence tag nl r :
  afterFence tag nl (r ++ fence) = afterFence tag nl r ++ fence.
Proof.
  assert (Hj : skipJsonTag (r ++ fence) = skipJsonTag r ++ fence).
  { apply skipJsonTag_app. intros c r' E. injection E as <- _.
    repeat split; reflexivity. }
  assert (Hn : forall x, skipNewline (x ++ fence) = skipNewline x ++ fence).
  { intros [|c x]; [reflexivity|]. apply skipNewline_app. discriminate. }
  unfold afterFence. destruct tag, nl; cbv zeta; rewrite ?Hj, ?Hn; reflexivity.
Qed.

(** A fence match followed by white space: some white space is left. *)
Lemma afterFence_app_white tag nl r w :
  allWhite w = true ->
  exists w', allWhite w' = true
             /\ afterFence tag nl (r ++ w) = afterFence tag nl r ++ w'.
Proof.
  intros Hw.
  assert (Hj : skipJsonTag (r ++ w) = skipJsonTag r ++ w).
  { apply skipJsonTag_app. intros c r' ->. apply white_not_tag.
    simpl in Hw. apply andb_true_iff in Hw. tauto. }
  assert (Hn : forall x, exists w', allWhite w' = true
                                    /\ skipNewline (x ++ w) = skipNewline x ++ w').
  { intros [|c x].
    - destruct w as [|d w]; [exists []; split; reflexivity|].
      simpl. simpl in Hw. apply andb_true_iff in Hw as [Hd Hw].
      destruct (Ascii.eqb d newline).
      + exists w. split; [exact Hw | reflexivity].
      + exists (d :: w). split; [simpl; rewrite Hd; exact Hw | reflexivity].
    - exists w. split; [exact Hw | apply skipNewline_app; discriminate]. }
  unfold afterFence. destruct tag, nl; cbv zeta; rewrite ?Hj.
  - apply Hn.
  - exists w. split; [exact Hw | reflexivity].
  - apply Hn.
  - exists w. split; [exact Hw | reflexivity].
Qed.

(** Appending the closing fence changes nothing. *)
Lemma stripFences_app_fence tag nl :
  forall n t, List.length t <= n ->
    stripFences tag nl (t ++ fence) = stripFences tag nl t.
Proof.
  induction n as [|n IH]; intros t Hlen.
  - destruct t; [|simpl in Hlen; lia]. destruct tag, nl; reflexivity.
  - destruct t as [|c1 [|c2 [|c3 r3]]].
    + destruct tag, nl; reflexivity.
    + destruct (Ascii.eqb_spec c1 backtick) as [->|Hne].
      * destruct tag, nl; reflexivity.
      * apply Ascii.eqb_neq in Hne.
        change ([c1] ++ fence) with (c1 :: ([] ++ fence)).
        rewrite !stripFences_keep1 by exact Hne.
        rewrite IH by (simpl in *; lia). reflexivity.
    + destruct (Ascii.eqb_spec c1 backtick) as [->|Hne].
      * destruct (Ascii.eqb_spec c2 backtick) as [->|Hne2].
        -- destruct tag, nl; reflexivity.
        -- apply Ascii.eqb_neq in Hne2.
           change ([backtick; c2] ++ fence) with (backtick :: c2 :: fence).
           rewrite !stripFences_keep2 by exact Hne2.
           change (c2 :: fence) with ([c2] ++ fence).
           rewrite (IH [c2]) by (simpl in *; lia). reflexivity.
      * apply Ascii.eqb_neq in Hne.
        change ([c1; c2] ++ fence) with (c1 :: ([c2] ++ fence)).
        rewrite !stripFences_keep1 by exact Hne.
        rewrite IH by (simpl in *; lia). reflexivity.
    + change ((c1 :: c2 :: c3 :: r3) ++ fence)
        with (c1 :: c2 :: c3 :: (r3 ++ fence)).
      destruct (Ascii.eqb c1 backtick && Ascii.eqb c2 backtick
                && Ascii.eqb c3 backtick) eqn:E.
      * apply andb_true_iff in E as [E E3]. apply andb_true_iff in E as [E1 E2].
        apply Ascii.eqb_eq in E1, E2, E3. subst.
        rewrite !stripFences_fence, afterFence_app_fence.
        apply IH. pose proof (afterFence_length tag nl r3). simpl in Hlen. lia.
      * rewrite !stripFences_unfold3, E.
        change (c2 :: c3 :: r3 ++ fence) with ((c2 :: c3 :: r3) ++ fence).
        rewrite IH by (simpl in *; lia). reflexivity.
Qed.

Lemma allWhite_app a b :
  allWhite (a ++ b) = allWhite a && allWhite b.
Proof. apply forallb_app. Qed.

(** Appending white space leaves white space behind the result. *)
Lemma stripFences_app_white tag nl :
  forall n t w, List.length t <= n -> allWhite w = true ->
    exists w', allWhite w' = true
               /\ stripFences tag nl (t ++ w) = stripFences tag nl t ++ w'.
Proof.
  induction n as [|n IH]; intros t w Hlen Hw.
  - destruct t; [|simpl in Hlen; lia].
    exists w. split; [exact Hw | apply stripFences_all_white; exact Hw].
  - destruct t as [|c1 [|c2 [|c3 r3]]].
    + exists w. split; [exact Hw | apply stripFences_all_white; exact Hw].
    + exists w. split; [exact Hw|].
      destruct w as [|d w]; [reflexivity|].
      simpl in Hw. apply andb_true_iff in Hw as [Hd Hw].
      change ([c1] ++ d :: w) with (c1 :: d :: w).
      rewrite stripFences_keep2 by (apply white_not_backtick; exact Hd).
      rewrite (stripFences_all_white tag nl (d :: w))
        by (simpl; rewrite Hd; exact Hw).
      reflexivity.
    + destruct (IH [c2] w) as (w' & Hw' & E); [simpl in *; lia | exact Hw |].
      exists w'. split; [exact Hw'|].
      destruct w as [|d w].
      * rewrite app_nil_r in *.
        assert (w' = []) as ->.
        { apply (app_inv_head (stripFences tag nl [c2])).
          rewrite <- E, app_nil_r. reflexivity. }
        rewrite app_nil_r. reflexivity.
      * simpl in Hw. apply andb_true_iff in Hw as [Hd Hw].
        change ([c1; c2] ++ d :: w) with (c1 :: c2 :: d :: w).
        rewrite stripFences_unfold3, (white_not_backtick d Hd), andb_false_r.
        change (c2 :: d :: w) with ([c2] ++ d :: w). rewrite E.
        reflexivity.
    + change ((c1 :: c2 :: c3 :: r3) ++ w) with (c1 :: c2 :: c3 :: (r3 ++ w)).
      rewrite !stripFences_unfold3.
      destruct (Ascii.eqb c1 backtick && Ascii.eqb c2 backtick
                && Ascii.eqb c3 backtick).
      * destruct (afterFence_app_white tag nl r3 w Hw) as (w1 & Hw1 & ->).
        apply IH; [|exact Hw1].
        pose proof (afterFence_length tag nl r3). simpl in Hlen. lia.
      * destruct (IH (c2 :: c3 :: r3) w) as (w' & Hw' & E);
          [simpl in *; lia | exact Hw |].
        exists w'. split; [exact Hw'|].
        change (c2 :: c3 :: r3 ++ w) with ((c2 :: c3 :: r3) ++ w).
        rewrite E. reflexivity.
Qed.

(** ** Trimming *)

Lemma trimStart_white w s :
  allWhite w = true -> trimStart (w ++ s) = trimStart s.
Proof.
  induction w as [|c w IH]; intros H; [reflexivity|].
  simpl in H. apply andb_true_iff in H as [Hc Hw].
  simpl. rewrite Hc. apply IH. exact Hw.
Qed.

Lemma trimStart_snoc l c :
  trimStart (l ++ [c])
  = match trimStart l with
    | [] => if isWhiteSpace c then [] else [c]
    | x => x ++ [c]
    end.
Proof.
  induction l as [|d l IH]; simpl.
  - destruct (isWhiteSpace c); reflexivity.
  - destruct (isWhiteSpace d); [exact IH | reflexivity].
Qed.

Lemma trimEnd_cons c s :
  trimEnd (c :: s)
  = match trimEnd s with
    | [] => if isWhiteSpace c then [] else [c]
    | x => c :: x
    end.
Proof.
  unfold trimEnd. simpl List.rev. rewrite trimStart_snoc.
  destruct (trimStart (List.rev s)) as [|d l] eqn:E.
  - simpl. destruct (isWhiteSpace c); reflexivity.
  - remember (d :: l) as dl eqn:Edl.
    rewrite rev_app_distr. simpl.
    destruct (List.rev dl) eqn:E'; [|reflexivity].
    apply (f_equal (@List.length ascii)) in E'.
    rewrite length_rev, Edl in E'. discriminate.
Qed.

Lemma allWhite_rev w : allWhite (List.rev w) = allWhite w.
Proof.
  induction w as [|c w IH]; [reflexivity|].
  simpl. rewrite allWhite_app, IH. simpl. rewrite andb_true_r. apply andb_comm.
Qed.

Lemma trimEnd_white s w :
  allWhite w = true -> trimEnd (s ++ w) = trimEnd s.
Proof.
  intros H. unfold trimEnd. rewrite rev_app_distr, trimStart_white; [reflexivity|].
  rewrite allWhite_rev. exact H.
Qed.

Lemma trimL_white_l w s : allWhite w = true -> trimL (w ++ s) = trimL s.
Proof.
  induction w as [|c w IH]; intros H; [reflexivity|].
  simpl in H. apply andb_true_iff in H as [Hc Hw].
  specialize (IH Hw). unfold trimL in *.
  change ((c :: w) ++ s) with (c :: (w ++ s)). rewrite trimEnd_cons.
  destruct (trimEnd (w ++ s)) as [|d l].
  - rewrite Hc. rewrite <- IH. reflexivity.
  - rewrite <- IH. simpl. rewrite Hc. reflexivity.
Qed.

Lemma trimL_white_r s w : allWhite w = true -> trimL (s ++ w) = trimL s.
Proof. intros H. unfold trimL. rewrite trimEnd_white by exact H. reflexivity. Qed.

(** ** Text surrounded by white space *)

Lemma padded_refl x : padded x x.
Proof.
  exists [], []. split; [reflexivity|]. split; [reflexivity|].
  rewrite app_nil_r. reflexivity.
Qed.

Lemma padded_stripFences tag nl x s :
  padded x s -> padded (stripFences tag nl x) (stripFences tag nl s).
Proof.
  intros (w1 & w2 & H1 & H2 & ->).
  destruct (stripFences_app_white tag nl (List.length x) x w2 (le_n _) H2)
    as (w' & Hw' & E).
  exists w1, w'. split; [exact H1|]. split; [exact Hw'|].
  rewrite stripFences_white by exact H1. rewrite E. reflexivity.
Qed.

Lemma padded_trimL x s : padded x s -> trimL s = trimL x.
Proof.
  intros (w1 & w2 & H1 & H2 & ->).
  rewrite trimL_white_l by exact H1. apply trimL_white_r. exact H2.
Qed.

Lemma padded_trans x y z : padded x y -> padded y z -> padded x z.
Proof.
  intros (a1 & a2 & Ha1 & Ha2 & ->) (b1 & b2 & Hb1 & Hb2 & ->).
  exists (b1 ++ a1), (a2 ++ b2). rewrite !allWhite_app, Ha1, Ha2, Hb1, Hb2.
  split; [reflexivity|]. split; [reflexivity|].
  rewrite <- !app_assoc. reflexivity.
Qed.

(** The first pass on fenced text: what is left is the first pass of the
    bare text, up to surrounding white space. *)
Lemma firstPass_fenced pre inner1 t inner2 post :
  allWhite pre = true -> allWhite inner1 = true ->
  allWhite inner2 = true -> allWhite post = true ->
  exists x,
    padded x (stripFences true true
                (pre ++ jsonFence ++ inner1 ++ t ++ inner2 ++ fence ++ post))
    /\ padded x (stripFences true true t).
Proof.
  intros Hpre Hi1 Hi2 Hpost.
  rewrite stripFences_white by exact Hpre.
  change (jsonFence ++ inner1 ++ t ++ inner2 ++ fence ++ post)
    with (backtick :: backtick :: backtick
            :: ("j" :: "s" :: "o" :: "n"
                  :: (inner1 ++ t ++ inner2 ++ fence ++ post))%char).
  rewrite stripFences_fence.
  change (afterFence true true
            ("j" :: "s" :: "o" :: "n"
               :: (inner1 ++ t ++ inner2 ++ fence ++ post))%char)
    with (skipNewline (inner1 ++ t ++ inner2 ++ fence ++ post)).
  (* the text after the opening fence, as body ++ fence ++ post *)
  assert (Hbody : exists x body,
             padded x t /\ padded x body
             /\ skipNewline (inner1 ++ t ++ inner2 ++ fence ++ post)
                = (body ++ fence) ++ post).
  { destruct inner1 as [|d i1].
    - destruct t as [|c t'].
      + exists [], (skipNewline inner2). split; [apply padded_refl|]. split.
        * exists [], (skipNewline inner2).
          split; [reflexivity|]. split; [|reflexivity].
          destruct inner2 as [|e i2]; [reflexivity|].
          simpl in Hi2. apply andb_true_iff in Hi2 as [He Hi2]. simpl.
          destruct (Ascii.eqb e newline); [exact Hi2 | simpl; rewrite He; exact Hi2].
        * simpl app at 1. simpl app at 1.
          destruct inner2 as [|e i2]; [reflexivity|].
          rewrite skipNewline_app by discriminate.
          rewrite <- app_assoc. reflexivity.
      + cbn [app skipNewline].
        destruct (Ascii.eqb c newline) eqn:Ec.
        * exists t', (t' ++ inner2). split; [|split].
          -- exists [c], []. apply Ascii.eqb_eq in Ec. subst c.
             split; [reflexivity|]. split; [reflexivity|].
             rewrite app_nil_r. reflexivity.
          -- exists [], inner2.
             split; [reflexivity|]. split; [exact Hi2 | reflexivity].
          -- rewrite <- !app_assoc. reflexivity.
        * exists (c :: t'), ((c :: t') ++ inner2). split; [apply padded_refl|].
          split.
          -- exists [], inner2.
             split; [reflexivity|]. split; [exact Hi2 | reflexivity].
          -- rewrite <- !app_assoc. reflexivity.
    - simpl in Hi1. apply andb_true_iff in Hi1 as [Hd Hi1].
      cbn [app skipNewline].
      destruct (Ascii.eqb d newline) eqn:Ed.
      + exists t, (i1 ++ t ++ inner2). split; [apply padded_refl|]. split.
        * exists i1, inner2.
          split; [exact Hi1|]. split; [exact Hi2 | reflexivity].
        * rewrite <- !app_assoc. reflexivity.
      + exists t, ((d :: i1) ++ t ++ inner2). split; [apply padded_refl|]. split.
        * exists (d :: i1), inner2.
          split; [simpl; rewrite Hd; exact Hi1|].
          split; [exact Hi2 | reflexivity].
        * rewrite <- !app_assoc. reflexivity. }
  destruct Hbody as (x & body & Hxt & Hxb & ->).
  destruct (stripFences_app_white true true _ (body ++ fence) post (le_n _) Hpost)
    as (w' & Hw' & ->).
  rewrite stripFences_app_fence with (n := List.length body) by apply le_n.
  exists (stripFences true true x). split.
  - apply padded_trans with (y := stripFences true true body).
    + apply padded_stripFences. exact Hxb.
    + exists pre, w'. split; [exact Hpre|]. split; [exact Hw' | reflexivity].
  - apply padded_stripFences. exact Hxt.
Qed.

Lemma list_ascii_of_string_app a b :
  list_ascii_of_string (a ++ b)
  = (list_ascii_of_string a ++ list_ascii_of_string b)%list.
Proof. induction a as [|c a IH]; simpl; [reflexivity | rewrite IH; reflexivity]. Qed.

(** Both cleaning steps agree on fenced and bare text. *)
Lemma clean_fenced (nl : bool) pre inner1 t inner2 post :
  allWhite pre = true -> allWhite inner1 = true ->
  allWhite inner2 = true -> allWhite post = true ->
  trimL (stripFences false nl
           (stripFences true true
              (pre ++ jsonFence ++ inner1 ++ t ++ inner2 ++ fence ++ post)))
  = trimL (stripFences false nl (stripFences true true t)).
Proof.
  intros Hpre Hi1 Hi2 Hpost.
  destruct (firstPass_fenced pre inner1 t inner2 post Hpre Hi1 Hi2 Hpost)
    as (x & Hwrapped & Hbare).
  rewrite (padded_trimL _ _ (padded_stripFences false nl _ _ Hwrapped)).
  rewrite (padded_trimL _ _ (padded_stripFences false nl _ _ Hbare)).
  reflexivity.
Qed.

Lemma fenced_chars pre inner1 t inner2 post :
  list_ascii_of_string (fenced pre inner1 t inner2 post)
  = (list_ascii_of_string pre ++ jsonFence ++ list_ascii_of_string inner1
       ++ list_ascii_of_string t ++ list_ascii_of_string inner2 ++ fence
       ++ list_ascii_of_string post)%list.
Proof. unfold fenced. rewrite !list_ascii_of_string_app. reflexivity. Qed.

(** ** Text without fence markers *)

Lemma stripFences_keep tag nl c r :
  startsFence (c :: r) = false ->
  stripFences tag nl (c :: r) = c :: stripFences tag nl r.
Proof.
  intros H. destruct r as [|c2 [|c3 r3]]; try reflexivity.
  rewrite stripFences_unfold3. cbn [startsFence] in H. rewrite H. reflexivity.
Qed.


(** Where there is no fence the replacement changes nothing. *)
Lemma stripFences_id tag nl s :
  hasFence s = false -> stripFences tag nl s = s.
Proof.
  induction s as [|c r IH]; intros H; [reflexivity|].
  cbn [hasFence] in H. apply orb_false_iff in H as [Hs Hr].
  rewrite stripFences_keep by exact Hs. rewrite IH by exact Hr. reflexivity.
Qed.


(** ** What [trim] removes *)

Lemma trimStart_split s :
  exists w, allWhite w = true /\ s = w ++ trimStart s.
Proof.
  induction s as [|c s (w & Hw & E)].
  - exists []. split; reflexivity.
  - simpl. destruct (isWhiteSpace c) eqn:Ec.
    + exists (c :: w). simpl. rewrite Ec. split; [exact Hw|].
      f_equal. exact E.
    + exists []. split; reflexivity.
Qed.

Lemma trimEnd_split s :
  exists w, allWhite w = true /\ s = trimEnd s ++ w.
Proof.
  destruct (trimStart_split (List.rev s)) as (w & Hw & E).
  exists (List.rev w). split; [rewrite allWhite_rev; exact Hw|].
  unfold trimEnd. rewrite <- rev_app_distr, <- E, rev_involutive. reflexivity.
Qed.

Lemma trimL_padded s : padded (trimL s) s.
Proof.
  destruct (trimEnd_split s) as (w2 & Hw2 & E2).
  destruct (trimStart_split (trimEnd s)) as (w1 & Hw1 & E1).
  exists w1, w2. split; [exact Hw1|]. split; [exact Hw2|].
  unfold trimL. rewrite app_assoc, <- E1. exact E2.
Qed.


Lemma string_of_list_ascii_app a b :
  string_of_list_ascii (a ++ b)
  = (string_of_list_ascii a ++ string_of_list_ascii b)%string.
Proof. induction a as [|c a IH]; simpl; [reflexivity | rewrite IH; reflexivity]. Qed.

(** Cleaning text that holds no fence marker only trims it. *)
Lemma clean_noFence (nl : bool) (t : string) :
  containsFence t = false ->
  string_of_list_ascii
    (trimL (stripFences false nl (stripFences true true (list_ascii_of_string t))))
  = trim t.
Proof.
  intros H. unfold containsFence in H. unfold trim.
  rewrite (stripFences_id true true _ H), (stripFences_id false nl _ H).
  reflexivity.
Qed.

(** What [trim] returns is the text less white space at its ends. *)
Lemma trim_padded (t : string) :
  exists w1 w2,
    whiteString w1 = true /\ whiteString w2 = true
    /\ t = (w1 ++ trim t ++ w2)%string.
Proof.
  destruct (trimL_padded (list_ascii_of_string t)) as (a & b & Ha & Hb & E).
  exists (string_of_list_ascii a), (string_of_list_ascii b).
  unfold whiteString, trim. rewrite !list_ascii_of_string_of_list_ascii.
  split; [exact Ha|]. split; [exact Hb|].
  rewrite <- !string_of_list_ascii_app, <- E.
  symmetry. apply string_of_list_ascii_of_string.
Qed.

Local Open Scope string_scope.

(** C9 (as the code has it).  Cleaning text wrapped in a json-tagged
    fence, with any white space around the fences, gives the very text
    that cleaning the bare text gives, hence both parse to the same
    value; this holds for every text and for both cleaning steps of the
    code.  When the enclosed text holds no run of three backticks, what
    is left is the enclosed text itself, less the white space at its
    two ends: the fence markup is stripped and the content is not
    altered. *)
Theorem fenced_text_cleans_like_bare_text (P : Platform)
        (pre inner1 t inner2 post : string) :
  whiteString pre = true -> whiteString inner1 = true ->
  whiteString inner2 = true -> whiteString post = true ->
  (cleanText (fenced pre inner1 t inner2 post) = cleanText t
   /\ JSON_parse P (cleanText (fenced pre inner1 t inner2 post))
      = JSON_parse P (cleanText t)
   /\ cleanTextPlain (fenced pre inner1 t inner2 post) = cleanTextPlain t
   /\ JSON_parse P (cleanTextPlain (fenced pre inner1 t inner2 post))
      = JSON_parse P (cleanTextPlain t))
  /\ (containsFence t = false ->
      cleanText (fenced pre inner1 t inner2 post) = trim t
      /\ cleanTextPlain (fenced pre inner1 t inner2 post) = trim t
      /\ JSON_parse P (cleanText (fenced pre inner1 t inner2 post))
         = JSON_parse P (trim t)
      /\ exists w1 w2,
           whiteString w1 = true /\ whiteString w2 = true
           /\ t = w1 ++ cleanText (fenced pre inner1 t inner2 post) ++ w2).
Proof.
  intros Hpre Hi1 Hi2 Hpost.
  assert (E1 : cleanText (fenced pre inner1 t inner2 post) = cleanText t).
  { unfold cleanText. rewrite fenced_chars.
    rewrite (clean_fenced true) by assumption. reflexivity. }
  assert (E2 : cleanTextPlain (fenced pre inner1 t inner2 post)
               = cleanTextPlain t).
  { unfold cleanTextPlain. rewrite fenced_chars.
    rewrite (clean_fenced false) by assumption. reflexivity. }
  rewrite E1, E2. split; [repeat split; reflexivity|].
  intros Hno.
  assert (T1 : cleanText t = trim t) by (apply (clean_noFence true); exact Hno).
  assert (T2 : cleanTextPlain t = trim t)
    by (apply (clean_noFence false); exact Hno).
  rewrite T1, T2. split; [reflexivity|]. split; [reflexivity|].
  split; [reflexivity|]. apply trim_padded.
Qed.

(** The theorem at a report fenced the usual way: the opening fence, a
    line break, the text, a line break, the closing fence. *)
Lemma fenced_text_cleans_like_bare_text_witness :
  cleanText (fenced "" (String newline "") " { } " (String newline "") " ")
  = "{ }".
Proof.
  apply (fenced_text_cleans_like_bare_text
           Scenario.platform
           "" (String newline "") " { } " (String newline "") " ");
    reflexivity.
Defined.

(** C9, as stated, fails for content that holds a fence marker: the
    JSON text whose one string value is a json-tagged fence marker,
    wrapped in a fenced block, is cleaned to the JSON text with the
    empty string as value.  The marker inside the string is removed
    with the fences around the block, so the enclosed content is
    altered. *)
Lemma fence_marker_in_content_is_removed :
  containsFence fenceInValue = true
  /\ trim fenceInValue = fenceInValue
  /\ cleanText (fenced "" (String newline "") fenceInValue
                       (String newline "") "")
     = emptyValue
  /\ cleanTextPlain (fenced "" (String newline "") fenceInValue
                            (String newline "") "")
     = emptyValue
  /\ cleanText fenceInValue = emptyValue
  /\ emptyValue <> fenceInValue.
Proof.
  split; [reflexivity|]. split; [reflexivity|]. split; [reflexivity|].
  split; [reflexivity|]. split; [reflexivity|]. discriminate.
Qed.
End SanitizerProofs.

Module ValidatorProofs.
Import JsString Js ValidatorSpec.
Local Open Scope string_scope.

Lemma append_nil_r_compat (s : string) : s ++ "" = s.
Proof. induction s as [|c s IH]; simpl; [reflexivity | rewrite IH; reflexivity]. Qed.

Lemma checkRequired_object fields fs :
  (checkRequired fs (JObj fields) = Return tt
   /\ forall f, In f fs -> exists v, lookupField f fields = Some v)
  \/ (exists f, In f fs /\ lookupField f fields = None
                /\ checkRequired fs (JObj fields)
                   = Throw (Error ("Missing required field: " ++ f))).
Proof.
  induction fs as [|f fs IH].
  - left. split; [reflexivity | intros f []].
  - simpl. destruct (lookupField f fields) as [v|] eqn:E.
    + simpl. destruct IH as [[H1 H2] | (g & Hin & Hg & H)].
      * left. split; [exact H1|]. intros g [<- | Hg]; [eauto | auto].
      * right. exists g. auto.
    + right. exists f. simpl. auto.
Qed.

Lemma shorterThan_false n o :
  shorterThan n o = false ->
  exists items, o = Some (JArr items) /\ n <= List.length items.
Proof.
  unfold shorterThan, asArray. destruct o as [[| | | |items|]|]; try discriminate.
  intros H. apply Nat.ltb_ge in H. eauto.
Qed.

Lemma shorterThan_true n items :
  shorterThan n (Some (JArr items)) = true -> ~ n <= List.length items.
Proof. unfold shorterThan. simpl. intros H. apply Nat.ltb_lt in H. lia. Qed.

Lemma includes_strings (a b c : string) o :
  includes [JStr a; JStr b; JStr c] o = true <->
  o = Some (JStr a) \/ o = Some (JStr b) \/ o = Some (JStr c).
Proof.
  destruct o as [v|]; simpl.
  - destruct v; simpl; try (split; [discriminate | intros [H|[H|H]]; discriminate]).
    rewrite !orb_true_iff, !String.eqb_eq.
    split.
    + intros [H|[H|[H|H]]]; subst; auto; discriminate.
    + intros [H|[H|H]]; inversion H; subst; auto.
  - split; [discriminate | intros [H|[H|H]]; discriminate].
Qed.

(** What both insight validators decide on a value with all seven fields. *)
Lemma constraints_decided data :
  (forall f, In f requiredFields -> exists v, getProp data f = Some v) ->
  (insightsWellFormed data
   /\ shorterThan 3 (getProp data "salaryRanges") = false
   /\ shorterThan 5 (getProp data "topSkills") = false
   /\ includes demandLevels (getProp data "demandLevel") = true
   /\ includes marketOutlooks (getProp data "marketOutlook") = true)
  \/ (~ fieldValid data "salaryRanges"
      /\ shorterThan 3 (getProp data "salaryRanges") = true)
  \/ (~ fieldValid data "topSkills"
      /\ shorterThan 3 (getProp data "salaryRanges") = false
      /\ shorterThan 5 (getProp data "topSkills") = true)
  \/ (~ fieldValid data "demandLevel"
      /\ shorterThan 3 (getProp data "salaryRanges") = false
      /\ shorterThan 5 (getProp data "topSkills") = false
      /\ includes demandLevels (getProp data "demandLevel") = false)
  \/ (~ fieldValid data "marketOutlook"
      /\ shorterThan 3 (getProp data "salaryRanges") = false
      /\ shorterThan 5 (getProp data "topSkills") = false
      /\ includes demandLevels (getProp data "demandLevel") = true
      /\ includes marketOutlooks (getProp data "marketOutlook") = false).
Proof.
  intros Hall.
  destruct (shorterThan 3 (getProp data "salaryRanges")) eqn:E1.
  { right. left. split; [|reflexivity].
    intros (v & Hv & H & _). destruct (H eq_refl) as (items & -> & Hlen).
    rewrite Hv in E1. apply shorterThan_true in E1. contradiction. }
  destruct (shorterThan 5 (getProp data "topSkills")) eqn:E2.
  { right. right. left. split; [|auto].
    intros (v & Hv & _ & H & _). destruct (H eq_refl) as (items & -> & Hlen).
    rewrite Hv in E2. apply shorterThan_true in E2. contradiction. }
  destruct (includes demandLevels (getProp data "demandLevel")) eqn:E3.
  2:{ right. right. right. left. split; [|auto].
      intros (v & Hv & _ & _ & H & _). specialize (H eq_refl).
      assert (includes demandLevels (getProp data "demandLevel") = true);
        [|congruence].
      apply includes_strings. rewrite Hv.
      destruct H as [ -> | [ -> | -> ] ]; auto. }
  destruct (includes marketOutlooks (getProp data "marketOutlook")) eqn:E4.
  2:{ right. right. right. right. split; [|auto].
      intros (v & Hv & _ & _ & _ & H). specialize (H eq_refl).
      assert (includes marketOutlooks (getProp data "marketOutlook") = true);
        [|congruence].
      apply includes_strings. rewrite Hv.
      destruct H as [ -> | [ -> | -> ] ]; auto. }
  left. split; [|auto].
  apply shorterThan_false in E1 as (i1 & E1 & L1).
  apply shorterThan_false in E2 as (i2 & E2 & L2).
  apply includes_strings in E3. apply includes_strings in E4.
  intros f Hf. destruct (Hall f Hf) as (v & Hv).
  exists v. split; [exact Hv|].
  repeat split; intros ->.
  - rewrite E1 in Hv. inversion Hv. eauto.
  - rewrite E2 in Hv. inversion Hv. eauto.
  - rewrite Hv in E3. destruct E3 as [H|[H|H]]; inversion H; auto.
  - rewrite Hv in E4. destruct E4 as [H|[H|H]]; inversion H; auto.
Qed.

Lemma wellFormed_present data f :
  insightsWellFormed data -> In f requiredFields ->
  exists v, getProp data f = Some v.
Proof. intros H Hf. destruct (H f Hf) as (v & Hv & _). eauto. Qed.

Lemma wellFormed_object data :
  insightsWellFormed data -> exists fields, data = JObj fields.
Proof.
  intros H. destruct (wellFormed_present data "salaryRanges" H) as (v & Hv);
    [simpl; auto|].
  destruct data; try discriminate Hv. eauto.
Qed.

Lemma throws_naming {A} (msg f before after : string) :
  msg = before ++ f ++ after ->
  exists m, @Throw A (Error msg) = Throw (Error m) /\ names m f.
Proof. intros H. exists msg. split; [reflexivity|]. exists before, after. exact H. Qed.

(** The verdict of both validators on an object or an array. *)
Lemma insight_validators_verdict data industry :
  (exists fields, data = JObj fields) \/ (exists items, data = JArr items) ->
  (insightsWellFormed data
   /\ validateInsightsResponse data = Return true
   /\ validateInsights data industry = Return true)
  \/ exists f, In f insightFieldNames /\ ~ fieldValid data f
       /\ (exists m, validateInsightsResponse data = Throw (Error m) /\ names m f)
       /\ (exists m, validateInsights data industry = Throw (Error m)
                     /\ names m f).
Proof.
  intros [(fields & ->) | (items & ->)].
  - destruct (checkRequired_object fields requiredFields)
      as [[Hreq Hall] | (f & Hin & Hf & Hreq)].
    + unfold validateInsightsResponse, validateInsights.
      cbn [truthy isObjectType negb orb]. rewrite Hreq. cbn [obind].
      destruct (constraints_decided (JObj fields) Hall)
        as [(Hwf & -> & -> & -> & ->)
           | [(Hbad & ->)
             | [(Hbad & -> & ->)
               | [(Hbad & -> & -> & ->) | (Hbad & -> & -> & -> & ->)]]]];
        cbn [negb].
      * left. auto.
      * right. exists "salaryRanges". split; [simpl; tauto|]. split; [exact Hbad|].
        split; [apply (throws_naming _ _ "Invalid " ": must be array with at least 3 items")
               | apply (throws_naming _ _ "" " must be an array with at least 3 items")]; reflexivity.
      * right. exists "topSkills". split; [simpl; tauto|]. split; [exact Hbad|].
        split; [apply (throws_naming _ _ "Invalid " ": must be array with at least 5 items")
               | apply (throws_naming _ _ "" " must be an array with at least 5 items")]; reflexivity.
      * right. exists "demandLevel". split; [simpl; tauto|]. split; [exact Hbad|].
        split; [apply (throws_naming _ _ "Invalid " ": must be HIGH, MEDIUM, or LOW")
               | apply (throws_naming _ _ "" " must be HIGH, MEDIUM, or LOW")]; reflexivity.
      * right. exists "marketOutlook". split; [simpl; tauto|]. split; [exact Hbad|].
        split; [apply (throws_naming _ _ "Invalid " ": must be POSITIVE, NEUTRAL, or NEGATIVE")
               | apply (throws_naming _ _ "" " must be POSITIVE, NEUTRAL, or NEGATIVE")]; reflexivity.
    + right. exists f. split; [exact Hin|]. split.
      * intros (v & Hv & _). simpl in Hv. congruence.
      * unfold validateInsightsResponse, validateInsights.
        cbn [truthy isObjectType negb orb]. rewrite Hreq. cbn [obind].
        split; apply (throws_naming _ _ "Missing required field: " "");
          rewrite append_nil_r_compat; reflexivity.
  - right. exists "salaryRanges". split; [simpl; tauto|]. split.
    + intros (v & Hv & _). discriminate Hv.
    + split; apply (throws_naming _ _ "Missing required field: " "");
        reflexivity.
Qed.

(** Whatever the job's validator returns normally is well formed. *)
Lemma validateInsights_returns_wellFormed data industry ok :
  validateInsights data industry = Return ok -> insightsWellFormed data.
Proof.
  intros H.
  assert (Hobj : (exists fields, data = JObj fields)
                 \/ (exists items, data = JArr items)).
  { destruct data; eauto; exfalso; revert H; unfold validateInsights;
      cbn [truthy isObjectType];
      rewrite ?orb_true_r;
      repeat match goal with
             | |- context [if ?x then _ else _] => destruct x
             end; discriminate. }
  destruct (insight_validators_verdict data industry Hobj)
    as [(Hwf & _) | (f & _ & _ & _ & (m & Hm & _))]; [exact Hwf | congruence].
Qed.

(** C7. Both industry-insight validators accept a value exactly when all
    seven named fields are present, [salaryRanges] is an array of at least
    3 items, [topSkills] an array of at least 5, [demandLevel] one of
    HIGH, MEDIUM, LOW and [marketOutlook] one of POSITIVE, NEUTRAL,
    NEGATIVE.  On any other object (or array) both throw an [Error]
    whose message names a field that is missing or invalid.  A primitive
    value is rejected without a field being named. *)
Theorem insight_validators_accept_iff_well_formed data industry :
  (validateInsightsResponse data = Return true <-> insightsWellFormed data)
  /\ (validateInsights data industry = Return true <-> insightsWellFormed data)
  /\ match data with
     | JObj _ | JArr _ =>
         insightsWellFormed data
         \/ exists f, In f insightFieldNames /\ ~ fieldValid data f
              /\ (exists m, validateInsightsResponse data = Throw (Error m)
                            /\ names m f)
              /\ (exists m, validateInsights data industry = Throw (Error m)
                            /\ names m f)
     | _ =>
         (exists m, validateInsightsResponse data = Throw (TypeError m))
         /\ validateInsights data industry
            = Throw (Error ("Invalid insights object for " ++ industry))
     end.
Proof.
  assert (Hobj : (exists fields, data = JObj fields)
                 \/ (exists items, data = JArr items)
                 \/ (~ insightsWellFormed data
                     /\ (exists m, validateInsightsResponse data
                                   = Throw (TypeError m))
                     /\ validateInsights data industry
                        = Throw (Error ("Invalid insights object for "
                                          ++ industry)))).
  { destruct data; eauto;
      right; right;
      (split; [intros H; apply wellFormed_object in H as (? & ?); discriminate|]);
      (split; [eexists; reflexivity|]);
      try reflexivity.
    - destruct b; reflexivity.
    - unfold validateInsights. cbn [truthy isObjectType].
      destruct (negb (negb (PrimFloat.is_zero x || PrimFloat.is_nan x)));
        reflexivity.
    - unfold validateInsights. cbn [truthy isObjectType].
      rewrite orb_true_r. reflexivity. }
  assert (Hverdict := insight_validators_verdict data industry).
  split; [|split].
  - split.
    + intros Hacc.
      destruct Hobj as [Ho | [Ho | (_ & (m & Hm) & _)]];
        [| | congruence];
        (destruct Hverdict as [(Hwf & _) | (f & _ & _ & (m & Hm & _) & _)];
         [now auto | exact Hwf | congruence]).
    + intros Hwf. destruct (wellFormed_object data Hwf) as (fields & E).
      destruct Hverdict as [(_ & H & _) | (f & Hin & Hbad & _)];
        [eauto | exact H | elim Hbad; apply Hwf; exact Hin].
  - split.
    + intros Hacc.
      destruct Hobj as [Ho | [Ho | (_ & _ & Hm)]];
        [| | congruence];
        (destruct Hverdict as [(Hwf & _) | (f & _ & _ & _ & (m & Hm & _))];
         [now auto | exact Hwf | congruence]).
    + intros Hwf. destruct (wellFormed_object data Hwf) as (fields & E).
      destruct Hverdict as [(_ & _ & H) | (f & Hin & Hbad & _)];
        [eauto | exact H | elim Hbad; apply Hwf; exact Hin].
  - destruct data;
      try (destruct Hobj as [(? & ?) | [(? & ?) | (_ & H)]];
           [discriminate | discriminate | exact H]).
    + destruct Hverdict as [(Hwf & _) | H]; [eauto | now left | now right].
    + destruct Hverdict as [(Hwf & _) | H]; [eauto | now left | now right].
Qed.
End ValidatorProofs.

Module QuizProofs.
Import JsString Js QuizSpec.
Local Open Scope string_scope.

Lemma nonEmpty_string s : negb (String.eqb s "") = true <-> s <> "".
Proof.
  rewrite negb_true_iff. split.
  - intros H ->. discriminate H.
  - intros H. apply String.eqb_neq. exact H.
Qed.

(** A string field is truthy and a string exactly when it is a non-empty
    string. *)
Lemma string_field_check o :
  negb (truthyOpt o) || negb (isString o) = false
  <-> exists s, o = Some (JStr s) /\ s <> "".
Proof.
  rewrite orb_false_iff, !negb_false_iff. split.
  - intros [Ht Hs]. destruct o as [[| | |s| |]|]; try discriminate Hs.
    exists s. split; [reflexivity|]. apply nonEmpty_string. exact Ht.
  - intros (s & -> & Hs). split; [|reflexivity]. apply nonEmpty_string. exact Hs.
Qed.

(** The verdict of [validateQuestion] on an item that is not [null]. *)
Lemma validateQuestion_verdict index q :
  q <> JNull ->
  (validateQuestion index q = Return tt /\ questionWellFormed q)
  \/ (~ questionWellFormed q
      /\ exists clause, In clause clauseTexts
           /\ validateQuestion index q
              = Throw (Error ("Question " ++ showNat (index + 1)
                                ++ ": " ++ clause))).
Proof.
  intros Hq. unfold validateQuestion.
  assert (Hread : readProp q "question" = Return (getProp q "question"))
    by (destruct q; [congruence | reflexivity ..]).
  rewrite Hread. cbn [obind].
  destruct (negb (truthyOpt (getProp q "question"))
            || negb (isString (getProp q "question"))) eqn:E1.
  { right. split.
    - intros (Hs & _). apply string_field_check in Hs. congruence.
    - exists "missing or invalid question text". split; [simpl; tauto|].
      reflexivity. }
  apply string_field_check in E1.
  destruct (asArray (getProp q "options")) as [opts|] eqn:E2.
  2:{ right. split.
      - intros (_ & (opts & Ho & _) & _). rewrite Ho in E2. discriminate.
      - exists "must have exactly 4 options". split; [simpl; tauto|].
        reflexivity. }
  assert (Ho : getProp q "options" = Some (JArr opts)).
  { destruct (getProp q "options") as [[| | | |items|]|]; try discriminate E2.
    inversion E2. reflexivity. }
  destruct (Nat.eqb (List.length opts) 4) eqn:E3; cbn [negb].
  2:{ right. split.
      - intros (_ & (opts' & Ho' & Hlen & _) & _).
        rewrite Ho in Ho'. inversion Ho'. subst opts'.
        apply Nat.eqb_neq in E3. contradiction.
      - exists "must have exactly 4 options". split; [simpl; tauto|].
        reflexivity. }
  apply Nat.eqb_eq in E3.
  destruct (negb (truthyOpt (getProp q "correctAnswer"))
            || negb (includes opts (getProp q "correctAnswer"))) eqn:E4.
  { right. split.
    - intros (_ & (opts' & Ho' & _ & (a & Ha & Ht & Hin)) & _).
      rewrite Ho in Ho'. inversion Ho'. subst opts'.
      rewrite Ha in E4. simpl in E4. rewrite Ht, Hin in E4. discriminate.
    - exists "correctAnswer must be one of the options". split; [simpl; tauto|].
      reflexivity. }
  apply orb_false_iff in E4 as [E4 E5].
  apply negb_false_iff in E4, E5.
  destruct (negb (truthyOpt (getProp q "explanation"))
            || negb (isString (getProp q "explanation"))) eqn:E6.
  { right. split.
    - intros (_ & _ & Hs). apply string_field_check in Hs. congruence.
    - exists "missing or invalid explanation". split; [simpl; tauto|].
      reflexivity. }
  apply string_field_check in E6.
  left. split; [reflexivity|].
  split; [exact E1|]. split; [|exact E6].
  exists opts. split; [exact Ho|]. split; [exact E3|].
  destruct (getProp q "correctAnswer") as [a|]; [|discriminate E4].
  exists a. auto.
Qed.

Lemma validateQuestion_null index :
  validateQuestion index JNull
  = Throw (TypeError "Cannot read properties of null (reading 'question')").
Proof. reflexivity. Qed.

Lemma null_not_wellFormed : ~ questionWellFormed JNull.
Proof. intros ((s & Hs & _) & _). discriminate Hs. Qed.

Lemma json_null_dec (q : json) : {q = JNull} + {q <> JNull}.
Proof. destruct q; (now left) || (right; discriminate). Qed.

Lemma validateQuestions_accepts qs :
  forall index,
    validateQuestions index qs = Return tt <-> Forall questionWellFormed qs.
Proof.
  induction qs as [|q qs IH]; intros index; simpl.
  - split; [constructor | reflexivity].
  - destruct (json_null_dec q) as [-> | Hq].
    + simpl. split; [discriminate|].
      intros H. inversion H. elim null_not_wellFormed. assumption.
    + destruct (validateQuestion_verdict index q Hq)
        as [[-> Hwf] | (Hbad & clause & _ & ->)]; simpl.
      * rewrite IH. split; [constructor; assumption|].
        intros H. inversion H. assumption.
      * split; [discriminate|]. intros H. inversion H. contradiction.
Qed.

(** On items none of which is [null], a rejection names the first
    offending question (1-indexed) and the clause it violates. *)
Lemma validateQuestions_identifies qs :
  forall index,
    ~ In JNull qs ->
    (validateQuestions index qs = Return tt /\ Forall questionWellFormed qs)
    \/ exists k q clause,
         nth_error qs k = Some q
         /\ ~ questionWellFormed q
         /\ Forall questionWellFormed (firstn k qs)
         /\ In clause clauseTexts
         /\ validateQuestions index qs
            = Throw (Error ("Question " ++ showNat (index + k + 1)
                              ++ ": " ++ clause)).
Proof.
  induction qs as [|q qs IH]; intros index Hnull.
  - left. split; [reflexivity | constructor].
  - assert (Hq : q <> JNull) by (intros ->; apply Hnull; left; reflexivity).
    assert (Hrest : ~ In JNull qs) by (intros H; apply Hnull; right; exact H).
    simpl.
    destruct (validateQuestion_verdict index q Hq)
      as [[-> Hwf] | (Hbad & clause & Hin & ->)]; simpl.
    + destruct (IH (S index) Hrest)
        as [[-> Hall] | (k & q' & clause & Hk & Hbad & Hpre & Hin & ->)].
      * left. split; [reflexivity | constructor; assumption].
      * right. exists (S k), q', clause.
        split; [exact Hk|]. split; [exact Hbad|].
        split; [simpl; constructor; assumption|]. split; [exact Hin|].
        replace (index + S k + 1) with (S index + k + 1) by lia. reflexivity.
    + right. exists 0, q, clause.
      split; [reflexivity|]. split; [exact Hbad|].
      split; [constructor|]. split; [exact Hin|].
      rewrite Nat.add_0_r. reflexivity.
Qed.

(** The validator accepts exactly the well-formed quizzes. *)
Lemma validateQuizResponse_accepts quiz :
  validateQuizResponse quiz = Return true <-> quizWellFormed quiz.
Proof.
  unfold validateQuizResponse, quizWellFormed. split.
  - destruct (truthy quiz); [|discriminate].
    destruct (getProp quiz "questions") as [[| | | |qs|]|]; try discriminate.
    cbn [asArray].
    destruct (Nat.eqb (List.length qs) 10) eqn:E; [|discriminate].
    cbn [negb]. destruct (validateQuestions 0 qs) as [[]|] eqn:Ev; [|discriminate].
    intros _. exists qs. split; [reflexivity|].
    split; [apply Nat.eqb_eq; exact E|].
    apply (validateQuestions_accepts qs 0). exact Ev.
  - intros (qs & Hq & Hlen & Hall).
    assert (truthy quiz = true) as -> by (destruct quiz; try discriminate Hq; reflexivity).
    rewrite Hq. cbn [asArray]. rewrite Hlen. cbn [Nat.eqb negb].
    apply (validateQuestions_accepts qs 0) in Hall. rewrite Hall. reflexivity.
Qed.

(** A quiz of ten items, none of them [null], is either accepted or
    rejected with the index of the first offending question and the
    clause it violates. *)
Lemma validateQuizResponse_identifies quiz qs :
  getProp quiz "questions" = Some (JArr qs) ->
  List.length qs = 10 ->
  ~ In JNull qs ->
  validateQuizResponse quiz = Return true
  \/ exists k q clause,
       nth_error qs k = Some q
       /\ ~ questionWellFormed q
       /\ In clause clauseTexts
       /\ validateQuizResponse quiz
          = Throw (Error ("Question " ++ showNat (k + 1) ++ ": " ++ clause)).
Proof.
  intros Hq Hlen Hnull. unfold validateQuizResponse.
  assert (truthy quiz = true) as -> by (destruct quiz; try discriminate Hq; reflexivity).
  rewrite Hq. cbn [asArray]. rewrite Hlen. cbn [Nat.eqb negb].
  destruct (validateQuestions_identifies qs 0 Hnull)
    as [[-> _] | (k & q & clause & Hk & Hbad & _ & Hin & ->)].
  - left. reflexivity.
  - right. exists k, q, clause. auto.
Qed.

(** A wrong number of questions is reported with the number found. *)
Lemma validateQuizResponse_wrong_count quiz qs :
  getProp quiz "questions" = Some (JArr qs) ->
  List.length qs <> 10 ->
  validateQuizResponse quiz
  = Throw (Error ("Invalid quiz format: expected 10 questions, got "
                    ++ showNat (List.length qs))).
Proof.
  intros Hq Hlen. unfold validateQuizResponse.
  assert (truthy quiz = true) as -> by (destruct quiz; try discriminate Hq; reflexivity).
  rewrite Hq. cbn [asArray]. apply Nat.eqb_neq in Hlen. rewrite Hlen. reflexivity.
Qed.

(** C6 (defect). A quiz of ten items whose first item is [null] violates
    the clause on the question text, yet the validator does not report
    question 1 and that clause: reading [q.question] throws a
    [TypeError] that identifies neither. *)
Theorem quiz_null_item_not_identified :
  (exists qs, getProp quizWithNullItem "questions" = Some (JArr qs)
              /\ List.length qs = 10
              /\ nth_error qs 0 = Some JNull
              /\ ~ questionWellFormed JNull)
  /\ validateQuizResponse quizWithNullItem
     = Throw (TypeError "Cannot read properties of null (reading 'question')")
  /\ forall k clause,
       validateQuizResponse quizWithNullItem
       <> Throw (Error ("Question " ++ showNat k ++ ": " ++ clause)).
Proof.
  split; [|split].
  - eexists. split; [reflexivity|]. split; [reflexivity|].
    split; [reflexivity | exact null_not_wellFormed].
  - reflexivity.
  - intros k clause H. vm_compute in H. discriminate H.
Qed.
End QuizProofs.

Module RetryProofs.
Import JsString Js Runtime Retry RetrySpec.
Local Open Scope string_scope.

Section Exhaustion.
Context {A : Type}.
Variable attemptFn : M A.
Variable baseDelay : Z.
Variable exhausted : nat -> string -> string.
Variable prompt : string.
Variable post : GenResult -> Outcome A.

(** An attempt is one provider call and a pure treatment of its answer. *)
Hypothesis attempt_shape :
  forall w, attemptFn w
            = (post (gemini w (geminiCalls w) prompt), afterCall prompt w).

Lemma retryLoop_exhausts maxRetries :
  forall remaining attempt last w,
    attempt + remaining = maxRetries + 1 ->
    (forall k, exists e, post (gemini w k prompt) = Throw e) ->
    retryLoop attemptFn baseDelay exhausted maxRetries remaining attempt last w
    = (finalThrow exhausted maxRetries
         (match remaining with
          | O => last
          | S k => thrown (post (gemini w (geminiCalls w + k) prompt))
          end),
       exhaustedFrom prompt baseDelay attempt remaining w).
Proof.
  induction remaining as [|k IH]; intros attempt last w Hsum Hfail.
  - simpl. destruct last; reflexivity.
  - cbn [retryLoop]. unfold tryCatch at 1. rewrite attempt_shape.
    destruct (Hfail (geminiCalls w)) as (e & He). rewrite He.
    unfold bind at 1.
    destruct (Nat.ltb attempt maxRetries) eqn:Elt.
    + apply Nat.ltb_lt in Elt.
      destruct k as [|k']; [lia|].
      unfold sleep at 1.
      rewrite IH by (cbn; (lia || exact Hfail)).
      cbn [exhaustedFrom afterCall emit advance countCall clock session
           users insights coverLetters assessments resumes nextId gemini
           geminiCalls trace].
      f_equal.
      * replace (S (geminiCalls w) + k') with (geminiCalls w + S k') by lia.
        reflexivity.
      * replace (attempt + 1) with (S attempt) by lia.
        replace (S attempt + 1) with (S (S attempt)) by lia.
        f_equal.
        -- change (seq (S attempt) (S k')) with (S attempt :: seq (S (S attempt)) k').
           change (totalDelay baseDelay (S attempt :: seq (S (S attempt)) k'))
             with (baseDelay * Z.of_nat (S attempt)
                   + totalDelay baseDelay (seq (S (S attempt)) k'))%Z.
           replace (Z.of_nat attempt + 1)%Z with (Z.of_nat (S attempt)) by lia.
           ring.
        -- lia.
        -- change (seq (S attempt) (S k')) with (S attempt :: seq (S (S attempt)) k').
           cbn [flat_map failedRound app].
           replace (Z.of_nat attempt + 1)%Z with (Z.of_nat (S attempt)) by lia.
           rewrite <- !app_assoc. reflexivity.
    + apply Nat.ltb_ge in Elt.
      destruct k as [|k']; [|lia].
      unfold ret at 1. cbn [retryLoop]. unfold throw.
      rewrite Nat.add_0_r, He. cbn [thrown finalThrow].
      f_equal. unfold exhaustedFrom, afterCall, emit, countCall.
      cbn [clock session users insights coverLetters assessments resumes
           nextId gemini geminiCalls trace seq totalDelay fold_right
           flat_map app].
      f_equal; lia.
Qed.

Lemma execute_exhausts maxRetries w e :
  (forall k, exists e, post (gemini w k prompt) = Throw e) ->
  post (gemini w (geminiCalls w + maxRetries) prompt) = Throw e ->
  execute attemptFn baseDelay exhausted maxRetries w
  = (Throw (Error (exhausted (maxRetries + 1) (message e))),
     exhaustedWorld prompt baseDelay maxRetries w).
Proof.
  intros Hfail He. unfold execute.
  rewrite retryLoop_exhausts by (lia || exact Hfail).
  rewrite He. cbn [thrown finalThrow exhaustedFrom].
  unfold exhaustedWorld, exhaustionEvents.
  replace (geminiCalls w + S maxRetries) with (geminiCalls w + (maxRetries + 1))
    by lia.
  reflexivity.
Qed.

(** A first attempt that succeeds ends the loop at once. *)
Lemma execute_first_success maxRetries w a :
  post (gemini w (geminiCalls w) prompt) = Return a ->
  execute attemptFn baseDelay exhausted maxRetries w
  = (Return a, afterCall prompt w).
Proof.
  intros H. unfold execute. cbn [retryLoop]. unfold tryCatch.
  rewrite attempt_shape, H. reflexivity.
Qed.
End Exhaustion.

Lemma callGeminiAttempt_shape prompt w :
  ResumeActions.callGeminiAttempt prompt w
  = (callGeminiOutcome (gemini w (geminiCalls w) prompt), afterCall prompt w).
Proof.
  unfold ResumeActions.callGeminiAttempt, bind, generateContent, callGeminiOutcome.
  destruct (gemini w (geminiCalls w) prompt) as [raw|msg]; [|reflexivity].
  destruct (String.eqb (trim raw) ""); reflexivity.
Qed.

Lemma generateAttempt_shape P prompt industry w :
  InngestFunctions.generateAttempt P prompt industry w
  = (generateOutcome P industry (gemini w (geminiCalls w) prompt),
     afterCall prompt w).
Proof.
  unfold InngestFunctions.generateAttempt, bind, generateContent, generateOutcome.
  destruct (gemini w (geminiCalls w) prompt) as [text|msg]; [|reflexivity].
  destruct (String.eqb text "" || Nat.eqb (String.length (trim text)) 0);
    [reflexivity|].
  unfold parseJson.
  destruct (JSON_parse P (cleanTextPlain text)) as [v|msg]; [|reflexivity].
  unfold ret, lift. destruct (validateInsights v industry); reflexivity.
Qed.

Lemma countGenerate_app a b :
  countGenerate (a ++ b) = countGenerate a + countGenerate b.
Proof. unfold countGenerate. rewrite filter_app, length_app. reflexivity. Qed.

Lemma sleepsOf_app a b : sleepsOf (a ++ b) = (sleepsOf a ++ sleepsOf b)%list.
Proof. unfold sleepsOf. apply flat_map_app. Qed.

Lemma rounds_count prompt baseDelay ks :
  countGenerate (flat_map (failedRound prompt baseDelay) ks) = List.length ks.
Proof.
  induction ks as [|k ks IH]; [reflexivity|].
  cbn [flat_map]. rewrite countGenerate_app, IH. reflexivity.
Qed.

Lemma rounds_sleeps prompt baseDelay ks :
  sleepsOf (flat_map (failedRound prompt baseDelay) ks)
  = map (fun k => (baseDelay * Z.of_nat k)%Z) ks.
Proof.
  induction ks as [|k ks IH]; [reflexivity|].
  cbn [flat_map]. rewrite sleepsOf_app, IH. reflexivity.
Qed.

(** [n + 1] provider calls, and between consecutive calls the delays
    [baseDelay * 1], ..., [baseDelay * n]; the last event is a call. *)
Lemma exhaustionEvents_shape prompt baseDelay n :
  countGenerate (exhaustionEvents prompt baseDelay n) = n + 1
  /\ sleepsOf (exhaustionEvents prompt baseDelay n)
     = map (fun k => (baseDelay * Z.of_nat k)%Z) (seq 1 n)
  /\ last (exhaustionEvents prompt baseDelay n) (EvSleep 0) = EvGenerate prompt.
Proof.
  unfold exhaustionEvents. split; [|split].
  - rewrite countGenerate_app, rounds_count, length_seq. reflexivity.
  - rewrite sleepsOf_app, rounds_sleeps. apply app_nil_r.
  - apply last_last.
Qed.

(** C1. When every attempt fails, the retry executor called with
    [maxRetries = n] makes exactly [n + 1] attempts, suspends between
    consecutive attempts for the base delay times the 1-indexed number
    of the attempt that just failed, does not suspend after the last
    one, and throws an error whose message wraps the message of the last
    error caught: the events added to the trace are [exhaustionEvents].  [callGeminiWithRetry] has base delay 1000 ms;
    [generateWithRetry] has base delay 2000 ms and [n = MAX_RETRIES = 2]. *)
Theorem retry_exhaustion (P : Platform) (prompt industry : string) (n : nat)
        (w : World) :
  ((forall k, exists e, callGeminiOutcome (gemini w k prompt) = Throw e) ->
   exists e,
     callGeminiOutcome (gemini w (geminiCalls w + n) prompt) = Throw e
     /\ fst (ResumeActions.callGeminiWithRetry prompt n w)
        = Throw (Error ("AI service unavailable after " ++ showNat (n + 1)
                          ++ " attempts: " ++ message e))
     /\ trace (snd (ResumeActions.callGeminiWithRetry prompt n w))
        = (trace w ++ exhaustionEvents prompt 1000 n)%list
     /\ geminiCalls (snd (ResumeActions.callGeminiWithRetry prompt n w))
        = geminiCalls w + (n + 1))
  /\ ((forall k, exists e,
         generateOutcome P industry (gemini w k prompt) = Throw e) ->
      exists e,
        generateOutcome P industry (gemini w (geminiCalls w + 2) prompt)
        = Throw e
        /\ fst (InngestFunctions.generateWithRetry P prompt industry w)
           = Throw (Error ("Failed after 3 attempts: " ++ message e))
        /\ trace (snd (InngestFunctions.generateWithRetry P prompt industry w))
           = (trace w ++ exhaustionEvents prompt 2000 2)%list
        /\ geminiCalls (snd (InngestFunctions.generateWithRetry P prompt
                                                                industry w))
           = geminiCalls w + 3)
  /\ (forall baseDelay,
        countGenerate (exhaustionEvents prompt baseDelay n) = n + 1
        /\ sleepsOf (exhaustionEvents prompt baseDelay n)
           = map (fun k => (baseDelay * Z.of_nat k)%Z) (seq 1 n)
        /\ last (exhaustionEvents prompt baseDelay n) (EvSleep 0)
           = EvGenerate prompt).
Proof.
  split; [|split].
  - intros Hfail. destruct (Hfail (geminiCalls w + n)) as (e & He).
    exists e. split; [exact He|].
    unfold ResumeActions.callGeminiWithRetry.
    rewrite (execute_exhausts _ 1000%Z ResumeActions.unavailableMessage prompt
                              callGeminiOutcome (callGeminiAttempt_shape prompt)
                              n w e Hfail He).
    repeat split; reflexivity.
  - intros Hfail. destruct (Hfail (geminiCalls w + 2)) as (e & He).
    exists e. split; [exact He|].
    unfold InngestFunctions.generateWithRetry, InngestFunctions.MAX_RETRIES.
    rewrite (execute_exhausts _ 2000%Z InngestFunctions.failedAfterMessage
                              prompt (generateOutcome P industry)
                              (generateAttempt_shape P prompt industry) 2 w e
                              Hfail He).
    repeat split; reflexivity.
  - intros baseDelay. apply exhaustionEvents_shape.
Qed.

(** The theorem with the provider down: three calls, delays of 1000 ms
    and 2000 ms (2000 ms and 4000 ms for the scheduled job), and the
    provider's last message in the error. *)
Lemma retry_exhaustion_witness :
  fst (ResumeActions.callGeminiWithRetry "improve" 2 downWorld)
  = Throw (Error "AI service unavailable after 3 attempts: 503 Service Unavailable")
  /\ trace (snd (ResumeActions.callGeminiWithRetry "improve" 2 downWorld))
     = [EvGenerate "improve"; EvSleep 1000; EvGenerate "improve";
        EvSleep 2000; EvGenerate "improve"]
  /\ fst (InngestFunctions.generateWithRetry Scenario.platform "improve"
                                             "Tech" downWorld)
     = Throw (Error "Failed after 3 attempts: 503 Service Unavailable")
  /\ trace (snd (InngestFunctions.generateWithRetry Scenario.platform
                                                    "improve" "Tech" downWorld))
     = [EvGenerate "improve"; EvSleep 2000; EvGenerate "improve";
        EvSleep 4000; EvGenerate "improve"].
Proof.
  pose proof (retry_exhaustion Scenario.platform "improve" "Tech" 2 downWorld)
    as (Hcall & Hjob & _).
  destruct Hcall as (e1 & He1 & Hr1 & Ht1 & _).
  { intros k. exists (Error "503 Service Unavailable"). reflexivity. }
  destruct Hjob as (e2 & He2 & Hr2 & Ht2 & _).
  { intros k. exists (Error "503 Service Unavailable"). reflexivity. }
  rewrite Hr1, Ht1, Hr2, Ht2. inversion He1. inversion He2.
  repeat split; reflexivity.
Defined.
End RetryProofs.

Module CacheProofs.
Import JsString Js Runtime Store Dashboard CacheSpec.
Local Open Scope string_scope.

(** Projections of an updated world. *)
Ltac world_simpl :=
  cbn [afterCall emit advance countCall setUsers setInsights setCoverLetters
       bumpId clock session users insights coverLetters assessments resumes
       nextId gemini geminiCalls trace] in *.

Lemma getAuthenticatedUser_signedIn w u :
  signedIn w u ->
  getAuthenticatedUser w = (Return (u, industryInsightOf u w), w).
Proof.
  intros (uid & Hs & Hne & Hu).
  unfold getAuthenticatedUser, bind, auth, userFindUnique. rewrite Hs.
  cbn [falsy orElse]. apply String.eqb_neq in Hne. rewrite Hne, Hu.
  reflexivity.
Qed.

Lemma generateAIInsights_blank P industry w :
  blank industry = true ->
  generateAIInsights P industry w
  = (Throw (Error "Industry is required to generate insights"), w).
Proof. intros H. unfold generateAIInsights. rewrite H. reflexivity. Qed.

(** On an industry that is not blank, [generateAIInsights] is one
    provider call and a pure treatment of its answer. *)
Lemma generateAIInsights_shape P industry w :
  blank (Some industry) = false ->
  generateAIInsights P (Some industry) w
  = (nextInsights P industry w,
     afterCall (insightsPrompt P (clock w) industry) w).
Proof.
  intros H. unfold generateAIInsights. rewrite H.
  unfold nextInsights, insightsOutcome, bind, now, tryCatch, generateContent.
  cbn [orElse].
  destruct (gemini w (geminiCalls w) (insightsPrompt P (clock w) industry))
    as [text|msg]; [|reflexivity].
  unfold parseJson.
  destruct (JSON_parse P (cleanText text)) as [v|msg]; [|reflexivity].
  unfold ret, lift. destruct (validateInsightsResponse v) as [b|e]; [reflexivity|].
  unfold wrapInsightError, throw. destruct (kind e); reflexivity.
Qed.

(** C3. A cached record is stale exactly when the current time is after
    its [nextUpdate], and fresh when the current time is at or before
    it.  For a signed-in user with an industry whose record is fresh,
    [getIndustryInsights] returns that record and leaves the world as it
    was: no generation call, no write. *)
Theorem fresh_record_is_served_unchanged (P : Platform) (w : World) (u : User)
        (row : Insight) :
  (forall i, exists stale,
      shouldRefreshInsights (Some i) w = (Return stale, w)
      /\ (stale = true <-> (ins_nextUpdate i < clock w)%Z)
      /\ (stale = false <-> (clock w <= ins_nextUpdate i)%Z))
  /\ (signedIn w u ->
      blank (user_industry u) = false ->
      industryInsightOf u w = Some row ->
      (clock w <= ins_nextUpdate row)%Z ->
      getIndustryInsights P w = (Return row, w)).
Proof.
  split.
  - intros i. exists (Z.ltb (ins_nextUpdate i) (clock w)).
    split; [reflexivity|]. split.
    + apply Z.ltb_lt.
    + rewrite Z.ltb_ge. reflexivity.
  - intros Hu Hind Hrow Hfresh.
    unfold getIndustryInsights, bind at 1.
    rewrite (getAuthenticatedUser_signedIn w u Hu), Hind, Hrow.
    unfold bind, shouldRefreshInsights, bind, now, ret.
    apply Z.ltb_ge in Hfresh. rewrite Hfresh. reflexivity.
Qed.

Lemma blank_some_industry (o : option string) :
  blank o = false -> exists ind, o = Some ind /\ blank (Some ind) = false.
Proof. destruct o as [ind|]; [eauto | discriminate]. Qed.

(** An explicit refresh over an existing row: the generated columns and
    [nextUpdate] are written, [lastUpdated] is not. *)
Lemma refresh_existing P w u ind row v :
  signedIn w u ->
  user_industry u = Some ind -> blank (Some ind) = false ->
  industryInsightOf u w = Some row ->
  find (fun i => Nat.eqb (ins_id i) (ins_id row)) (insights w) = Some row ->
  nextInsights P ind w = Return v ->
  exists w',
    refreshIndustryInsights P w
    = (Return (patchInsight
                 (withNextUpdate (clock w + sevenDays) (insightColumns v)) row),
       w')
    /\ insights w'
       = map (fun i => if Nat.eqb (ins_id i) (ins_id row)
                       then patchInsight
                              (withNextUpdate (clock w + sevenDays)
                                              (insightColumns v)) i
                       else i) (insights w)
    /\ trace w' = (trace w ++ [EvGenerate (insightsPrompt P (clock w) ind);
                               EvWrite TInsight (ins_id row)])%list.
Proof.
  intros Hu Hind Hnb Hrow Hid Hgen.
  unfold refreshIndustryInsights, bind at 1.
  rewrite (getAuthenticatedUser_signedIn w u Hu), Hind, Hnb, Hrow.
  unfold generateAndStore, bind at 1. rewrite Hind.
  rewrite (generateAIInsights_shape P ind w Hnb), Hgen.
  unfold bind, getNextUpdateDate, bind, now, ret, insightUpdateById,
    insightUpdateWhere.
  cbn [afterCall emit countCall insights clock]. rewrite Hid.
  eexists. split; [reflexivity|]. split; [reflexivity|].
  world_simpl. cbn [patchInsight ins_id]. rewrite <- app_assoc. reflexivity.
Qed.

Lemma refresh_existing_timestamps P w u ind row v :
  signedIn w u ->
  user_industry u = Some ind -> blank (Some ind) = false ->
  industryInsightOf u w = Some row ->
  find (fun i => Nat.eqb (ins_id i) (ins_id row)) (insights w) = Some row ->
  nextInsights P ind w = Return v ->
  exists row' w',
    refreshIndustryInsights P w = (Return row', w')
    /\ ins_nextUpdate row' = (clock w + sevenDays)%Z
    /\ ins_lastUpdated row' = ins_lastUpdated row.
Proof.
  intros Hu Hind Hnb Hrow Hid Hgen.
  destruct (refresh_existing P w u ind row v Hu Hind Hnb Hrow Hid Hgen)
    as (w' & E & _).
  eexists. exists w'. split; [exact E|]. split; reflexivity.
Qed.





(** The theorem on day 8 for a record due on day 10: it is served as it
    is, though the provider is down. *)
Lemma fresh_record_is_served_unchanged_witness :
  getIndustryInsights Scenario.platform freshWorld = (Return freshRow, freshWorld).
Proof.
  apply (proj2 (fresh_record_is_served_unchanged Scenario.platform freshWorld
                  Scenario.alice freshRow)).
  - exists "user_alice". split; [reflexivity|]. split; [discriminate | reflexivity].
  - reflexivity.
  - reflexivity.
  - vm_compute. discriminate.
Defined.



(** C4 (defect). On day 8, Alice's record was last updated at time 0 and
    was due on day 7.  A successful explicit refresh moves [nextUpdate]
    to now plus seven days but leaves [lastUpdated] at 0, so the stored
    record no longer has [nextUpdate = lastUpdated + 7 days]; the
    scheduled job, run on the same world, writes both. *)
Theorem explicit_refresh_leaves_lastUpdated :
  let w := Scenario.staleWorld (Scenario.answering Scenario.insightsText) in
  (exists row' w',
      refreshIndustryInsights Scenario.platform w = (Return row', w')
      /\ findInsight "Tech" (insights w') = Some row'
      /\ ins_growthRate row' = JNum 15.5%float
      /\ ins_nextUpdate row' = (clock w + sevenDays)%Z
      /\ ins_lastUpdated row' = 0%Z
      /\ ins_lastUpdated row' <> clock w
      /\ ins_nextUpdate row' <> (ins_lastUpdated row' + sevenDays)%Z)
  /\ (exists stats w' row',
        InngestFunctions.generateIndustryInsights Scenario.platform w
        = (Return stats, w')
        /\ findInsight "Tech" (insights w') = Some row'
        /\ ins_lastUpdated row' = clock w
        /\ ins_nextUpdate row' = (ins_lastUpdated row' + sevenDays)%Z).
Proof.
  split.
  - eexists. eexists. split; [vm_compute; reflexivity|].
    split; [vm_compute; reflexivity|].
    repeat split; try (vm_compute; congruence).
  - eexists. eexists. eexists. split; [vm_compute; reflexivity|].
    split; [vm_compute; reflexivity|].
    split; vm_compute; reflexivity.
Qed.
End CacheProofs.

Module BatchProofs.
Import JsString Js Runtime Store Retry RetrySpec RetryProofs CacheSpec
       InngestFunctions BatchSpec.
Local Open Scope string_scope.

Ltac world_simpl :=
  cbn [afterCall emit advance countCall setUsers setInsights setCoverLetters
       bumpId clock session users insights coverLetters assessments resumes
       nextId gemini geminiCalls trace] in *.

Lemma generateWithRetry_first_success P prompt industry w v :
  generateOutcome P industry (gemini w (geminiCalls w) prompt) = Return v ->
  generateWithRetry P prompt industry w = (Return v, afterCall prompt w).
Proof.
  intros H. unfold generateWithRetry.
  apply (execute_first_success _ 2000%Z failedAfterMessage prompt
                               (generateOutcome P industry)
                               (generateAttempt_shape P prompt industry)
                               MAX_RETRIES w v H).
Qed.

Lemma generateWithRetry_exhausts P prompt industry w e :
  (forall k, exists e', generateOutcome P industry (gemini w k prompt) = Throw e') ->
  generateOutcome P industry (gemini w (geminiCalls w + 2) prompt) = Throw e ->
  generateWithRetry P prompt industry w
  = (Throw (Error ("Failed after 3 attempts: " ++ message e)),
     exhaustedWorld prompt 2000 2 w).
Proof.
  intros Hfail He. unfold generateWithRetry, MAX_RETRIES.
  rewrite (execute_exhausts _ 2000%Z failedAfterMessage prompt
                            (generateOutcome P industry)
                            (generateAttempt_shape P prompt industry) 2 w e
                            Hfail He).
  reflexivity.
Qed.

Lemma refreshIndustry_success P industry w old v :
  findInsight industry (insights w) = Some old ->
  generateOutcome P industry
    (gemini w (geminiCalls w) (createPrompt P (clock w) industry)) = Return v ->
  refreshIndustry P industry w
  = (Return tt, refreshedWorld P industry v (ins_id old) w).
Proof.
  intros Hold Hgen.
  unfold refreshIndustry, stepRun, bind at 1. unfold bind at 1, now.
  rewrite (generateWithRetry_first_success P _ industry w v Hgen).
  unfold bind, now, insightUpsert, insightUpdateByIndustry, insightUpdateWhere.
  world_simpl. unfold findInsight in *. rewrite Hold. reflexivity.
Qed.

Lemma refreshIndustry_failure P industry w e :
  (forall k, exists e',
      generateOutcome P industry
        (gemini w k (createPrompt P (clock w) industry)) = Throw e') ->
  generateOutcome P industry
    (gemini w (geminiCalls w + 2) (createPrompt P (clock w) industry)) = Throw e ->
  refreshIndustry P industry w
  = (Throw (Error ("Failed after 3 attempts: " ++ message e)),
     exhaustedWorld (createPrompt P (clock w) industry) 2000 2 w).
Proof.
  intros Hfail He.
  unfold refreshIndustry, stepRun, bind at 1. unfold bind at 1, now.
  rewrite (generateWithRetry_exhausts P _ industry w e Hfail He).
  reflexivity.
Qed.

Lemma delay_step len i w :
  (if Nat.ltb i (len - 1) then sleep DELAY_BETWEEN_INDUSTRIES_MS else ret tt) w
  = (Return tt, delayed len i w).
Proof. unfold delayed. destruct (Nat.ltb i (len - 1)); reflexivity. Qed.

(** One turn of the loop on an industry whose generation succeeds. *)
Lemma process_success P len i industry tl stats w old v :
  notBlank industry ->
  findInsight industry (insights w) = Some old ->
  generateOutcome P industry
    (gemini w (geminiCalls w) (createPrompt P (clock w) industry)) = Return v ->
  processIndustries P len i (industry :: tl) stats w
  = processIndustries P len (S i) tl (succeeded stats)
      (delayed len i (refreshedWorld P industry v (ins_id old) w)).
Proof.
  intros Hnb Hold Hgen. cbn [processIndustries]. rewrite Hnb.
  unfold bind at 1, tryCatch, bind at 1.
  rewrite (refreshIndustry_success P industry w old v Hold Hgen).
  unfold ret at 1. unfold bind at 1. rewrite delay_step. reflexivity.
Qed.

(** One turn of the loop on an industry whose every attempt fails: the
    failure is recorded and the loop goes on. *)
Lemma process_failure P len i industry tl stats w e :
  notBlank industry ->
  (forall k, exists e',
      generateOutcome P industry
        (gemini w k (createPrompt P (clock w) industry)) = Throw e') ->
  generateOutcome P industry
    (gemini w (geminiCalls w + 2) (createPrompt P (clock w) industry)) = Throw e ->
  processIndustries P len i (industry :: tl) stats w
  = processIndustries P len (S i) tl
      (failedWith
         (mkFailure industry ("Failed after 3 attempts: " ++ message e)
            (clock (exhaustedWorld (createPrompt P (clock w) industry) 2000 2 w)))
         stats)
      (delayed len i
         (exhaustedWorld (createPrompt P (clock w) industry) 2000 2 w)).
Proof.
  intros Hnb Hfail He. cbn [processIndustries]. rewrite Hnb.
  unfold bind at 1, tryCatch, bind at 1.
  rewrite (refreshIndustry_failure P industry w e Hfail He).
  unfold bind at 1, now, ret. unfold bind at 1. rewrite delay_step.
  reflexivity.
Qed.

(** A blank key is counted as skipped; nothing else happens. *)
Lemma process_skip P len i industry tl stats w :
  ~ notBlank industry ->
  processIndustries P len i (industry :: tl) stats w
  = processIndustries P len (S i) tl (skippedOne stats) w.
Proof.
  intros Hb. cbn [processIndustries]. unfold notBlank in Hb.
  destruct (String.eqb industry "" || Nat.eqb (String.length (trim industry)) 0);
    [reflexivity | contradiction].
Qed.

(** A value the job's attempt returns carries all seven fields; in
    particular [growthRate]. *)
Lemma generateOutcome_valid P industry r v :
  generateOutcome P industry r = Return v ->
  exists g, getProp v "growthRate" = Some g.
Proof.
  unfold generateOutcome. destruct r as [text|msg]; [|discriminate].
  destruct (String.eqb text "" || Nat.eqb (String.length (trim text)) 0);
    [discriminate|].
  destruct (JSON_parse P (cleanTextPlain text)) as [v'|msg]; [|discriminate].
  destruct (validateInsights v' industry) as [ok|e] eqn:Hv; [|discriminate].
  cbn [obind]. intros E. inversion E. subst v'.
  assert (Hacc := ValidatorProofs.validateInsights_returns_wellFormed
                    v industry ok Hv).
  destruct (Hacc "growthRate") as (g & Hg & _); [simpl; tauto|]. eauto.
Qed.

Lemma findInsight_in industry l :
  In industry (map ins_industry l) ->
  exists row, findInsight industry l = Some row.
Proof.
  induction l as [|i l IH]; [intros []|].
  intros [E | Hin]; unfold findInsight; cbn [find].
  - rewrite E, String.eqb_refl. eauto.
  - destruct (String.eqb (ins_industry i) industry); [eauto | apply IH; exact Hin].
Qed.

(** Overwriting the columns of one industry leaves every key in place. *)
Lemma findInsight_refreshed industry other v t l :
  findInsight industry
    (map (fun i => if String.eqb (ins_industry i) other
                   then patchInsight (refreshData v t) i else i) l)
  = option_map (fun i => if String.eqb (ins_industry i) other
                         then patchInsight (refreshData v t) i else i)
               (findInsight industry l).
Proof.
  induction l as [|i l IH]; [reflexivity|].
  unfold findInsight in *. cbn [map find].
  assert (E : ins_industry (if String.eqb (ins_industry i) other
                            then patchInsight (refreshData v t) i else i)
              = ins_industry i)
    by (destruct (String.eqb (ins_industry i) other); reflexivity).
  rewrite E. destruct (String.eqb (ins_industry i) industry); [reflexivity|].
  exact IH.
Qed.

(** The run over three industries of which the second fails on every
    attempt and the others succeed, with the times of the model's clock. *)
Lemma batch_run_three (P : Platform) (w : World)
        (a b c : string) (va vc : json) :
  nodup string_dec (map ins_industry (insights w)) = [a; b; c] ->
  notBlank a -> notBlank b -> notBlank c ->
  (forall t k, generateOutcome P a (gemini w k (createPrompt P t a)) = Return va) ->
  (forall t k, exists e,
      generateOutcome P b (gemini w k (createPrompt P t b)) = Throw e) ->
  (forall t k, generateOutcome P c (gemini w k (createPrompt P t c)) = Return vc) ->
  exists stats w' e rowc,
    generateIndustryInsights P w = (Return stats, w')
    /\ total stats = 3 /\ successful stats = 2 /\ failed stats = 1
    /\ skipped stats = 0
    /\ generateOutcome P b
         (gemini w (geminiCalls w + 3) (createPrompt P (clock w + 2000) b))
       = Throw e
    /\ failures stats
       = [mkFailure b ("Failed after 3 attempts: " ++ message e)
                    (clock w + 8000)]
    /\ In (EvGenerate (createPrompt P (clock w + 2000) b)) (trace w')
    /\ In (EvGenerate (createPrompt P (clock w + 10000) c)) (trace w')
    /\ findInsight c (insights w') = Some rowc
    /\ ins_lastUpdated rowc = (clock w + 10000)%Z
    /\ ins_nextUpdate rowc = (clock w + 10000 + sevenDays)%Z
    /\ Some (ins_growthRate rowc) = getProp vc "growthRate".
Proof.
  intros Hkeys Ha Hb Hc Hga Hgb Hgc.
  assert (Hin : forall x, In x [a; b; c] -> In x (map ins_industry (insights w))).
  { intros x Hx. rewrite <- Hkeys in Hx. apply nodup_In in Hx. exact Hx. }
  destruct (findInsight_in a (insights w)) as (rowa & Hra); [apply Hin; simpl; auto|].
  destruct (findInsight_in c (insights w)) as (rowc & Hrc); [apply Hin; simpl; auto|].
  destruct (Hgb (clock w + 2000)%Z (geminiCalls w + 3)) as (e & He).
  (* the worlds the run goes through *)
  set (w1 := delayed 3 0 (refreshedWorld P a va (ins_id rowa) w)).
  set (w2 := delayed 3 1 (exhaustedWorld (createPrompt P (clock w1) b) 2000 2 w1)).
  assert (Hc1 : clock w1 = (clock w + 2000)%Z) by reflexivity.
  assert (Hc2 : clock w2 = (clock w + 10000)%Z).
  { unfold w2, delayed, exhaustedWorld. cbn [Nat.ltb Nat.leb Nat.sub].
    world_simpl. rewrite Hc1. cbn [seq totalDelay fold_right].
    unfold DELAY_BETWEEN_INDUSTRIES_MS. lia. }
  destruct (findInsight c (insights w2)) as [rowc2|] eqn:Hrc2.
  2:{ exfalso. revert Hrc2. unfold w2, w1, delayed, exhaustedWorld, refreshedWorld.
      cbn [Nat.ltb Nat.leb Nat.sub]. world_simpl.
      rewrite findInsight_refreshed, Hrc. discriminate. }
  exists (mkStats 3 2 1 0 (clock w)
                  [mkFailure b ("Failed after 3 attempts: " ++ message e)
                             (clock w + 8000)]
                  (Some (clock w + 10000)%Z) (Some 10000%Z)
                  (Some (roundMinutes 10000)) None),
         (refreshedWorld P c vc (ins_id rowc2) w2), e,
         (patchInsight (refreshData vc (clock w + 10000)) rowc2).
  split.
  - unfold generateIndustryInsights, bind at 1, now. unfold bind at 1.
    unfold stepRun, insightDistinctIndustries. rewrite Hkeys.
    cbn [List.length Nat.eqb].
    unfold bind at 1.
    rewrite (process_success P 3 0 a [b; c] _ w rowa va Ha Hra (Hga _ _)).
    fold w1.
    rewrite (process_failure P 3 1 b [c] _ w1 e Hb).
    2:{ intros k. apply Hgb. }
    2:{ rewrite Hc1.
        replace (geminiCalls w1 + 2) with (geminiCalls w + 3); [exact He|].
        unfold w1, delayed, refreshedWorld. cbn [Nat.ltb Nat.leb Nat.sub].
        world_simpl. lia. }
    fold w2.
    rewrite (process_success P 3 2 c [] _ w2 rowc2 vc Hc Hrc2 (Hgc _ _)).
    cbn [processIndustries delayed Nat.ltb Nat.leb Nat.sub].
    unfold ret, bind, now.
    cbn [succeeded failedWith total successful failed skipped startTime
         failures endTime durationMs durationMinutes statsMessage app].
    unfold refreshedWorld at 1 2 3. world_simpl. rewrite Hc2.
    replace (clock (exhaustedWorld (createPrompt P (clock w1) b) 2000 2 w1))
      with (clock w + 8000)%Z.
    2:{ unfold exhaustedWorld. world_simpl. rewrite Hc1.
        cbn [seq totalDelay fold_right]. lia. }
    replace (clock w + 10000 - clock w)%Z with 10000%Z by lia.
    reflexivity.
  - split; [reflexivity|]. split; [reflexivity|]. split; [reflexivity|].
    split; [reflexivity|]. split; [exact He|]. split; [reflexivity|].
    split.
    { unfold refreshedWorld. world_simpl. apply in_or_app. left.
      apply in_or_app. left. unfold w2, delayed, exhaustedWorld.
      cbn [Nat.ltb Nat.leb Nat.sub]. world_simpl. rewrite Hc1.
      apply in_or_app. left. apply in_or_app. right. left. reflexivity. }
    split.
    { unfold refreshedWorld. world_simpl. rewrite Hc2.
      apply in_or_app. left. apply in_or_app. right. left. reflexivity. }
    split.
    { unfold refreshedWorld. world_simpl.
      rewrite findInsight_refreshed, Hrc2. cbn [option_map].
      assert (String.eqb (ins_industry rowc2) c = true) as ->.
      { unfold findInsight in Hrc2. apply find_some in Hrc2. apply Hrc2. }
      rewrite Hc2. reflexivity. }
    split; [reflexivity|]. split; [reflexivity|].
    cbn [patchInsight ins_growthRate refreshData Dashboard.withNextUpdate
         Dashboard.withLastUpdated Dashboard.insightColumns d_growthRate].
    destruct (generateOutcome_valid P c _ vc (Hgc 0%Z 0)) as (g & ->).
    reflexivity.
Qed.

(** C2. A run over three industries of which the second fails on every
    attempt and the others succeed: the failure is recorded with the
    industry, a timestamp, and the message of the error that the third
    and last attempt for that industry threw (the fourth provider call
    of the run), behind the prefix of the retry executor; the run goes
    on, and the report has [successful = 2], [failed = 1]; the third
    industry is still generated and its record overwritten, with
    [nextUpdate] seven days after [lastUpdated]. *)
Theorem batch_isolates_single_failure (P : Platform) (w : World)
        (a b c : string) (va vc : json) :
  nodup string_dec (map ins_industry (insights w)) = [a; b; c] ->
  notBlank a -> notBlank b -> notBlank c ->
  (forall t k, generateOutcome P a (gemini w k (createPrompt P t a)) = Return va) ->
  (forall t k, exists e,
      generateOutcome P b (gemini w k (createPrompt P t b)) = Throw e) ->
  (forall t k, generateOutcome P c (gemini w k (createPrompt P t c)) = Return vc) ->
  exists stats w' e tb t tc rowc,
    generateIndustryInsights P w = (Return stats, w')
    /\ successful stats = 2 /\ failed stats = 1 /\ skipped stats = 0
    /\ generateOutcome P b
         (gemini w (geminiCalls w + 3) (createPrompt P tb b)) = Throw e
    /\ (clock w <= tb)%Z
    /\ failures stats
       = [mkFailure b ("Failed after 3 attempts: " ++ message e) t]
    /\ (tb <= t)%Z
    /\ In (EvGenerate (createPrompt P tb b)) (trace w')
    /\ In (EvGenerate (createPrompt P tc c)) (trace w')
    /\ findInsight c (insights w') = Some rowc
    /\ (t <= ins_lastUpdated rowc)%Z
    /\ ins_nextUpdate rowc = (ins_lastUpdated rowc + sevenDays)%Z
    /\ Some (ins_growthRate rowc) = getProp vc "growthRate".
Proof.
  intros Hkeys Ha Hb Hc Hga Hgb Hgc.
  destruct (batch_run_three P w a b c va vc Hkeys Ha Hb Hc Hga Hgb Hgc)
    as (stats & w' & e & rowc & Hrun & _ & Hs & Hf & Hk & He & Hfail & Hgenb
        & Hgen & Hrow & Hlast & Hnext & Hgrowth).
  exists stats, w', e, (clock w + 2000)%Z, (clock w + 8000)%Z,
         (clock w + 10000)%Z, rowc.
  split; [exact Hrun|]. split; [exact Hs|]. split; [exact Hf|].
  split; [exact Hk|]. split; [exact He|]. split; [lia|].
  split; [exact Hfail|]. split; [lia|]. split; [exact Hgenb|].
  split; [exact Hgen|]. split; [exact Hrow|].
  split; [rewrite Hlast; lia|]. split; [rewrite Hnext, Hlast; reflexivity|].
  exact Hgrowth.
Qed.

(** The theorem for Tech, Retail and Health with the provider down for
    Retail. *)
Lemma batch_isolates_single_failure_witness :
  exists stats w',
    generateIndustryInsights Scenario.platform threeIndustries
    = (Return stats, w')
    /\ successful stats = 2 /\ failed stats = 1
    /\ failures stats
       = [mkFailure "Retail" "Failed after 3 attempts: 503 Service Unavailable"
                    (8 * Scenario.day + 8000)].
Proof.
  destruct (batch_isolates_single_failure
              Scenario.platform threeIndustries "Tech" "Retail" "Health"
              Scenario.sampleInsights Scenario.sampleInsights)
    as (stats & w' & e & tb & t & tc & rowc & Hrun & Hs & Hf & _ & _ & _
        & Hfail & _).
  - reflexivity.
  - reflexivity.
  - reflexivity.
  - reflexivity.
  - intros t k. reflexivity.
  - intros t k. eexists. reflexivity.
  - intros t k. reflexivity.
  - exists stats, w'. split; [exact Hrun|]. split; [exact Hs|].
    split; [exact Hf|]. clear Hfail.
    assert (Hv : fst (generateIndustryInsights Scenario.platform threeIndustries)
                 = Return stats) by (rewrite Hrun; reflexivity).
    vm_compute in Hv. injection Hv as Hv. rewrite <- Hv. reflexivity.
Defined.
End BatchProofs.

Module QuotaProofs.
Import JsString Js Runtime Store StoreOps Retry RetrySpec RetryProofs CacheSpec
       QuotaSpec.
Local Open Scope string_scope.

Ltac world_simpl :=
  cbn [afterCall emit advance countCall setUsers setInsights setCoverLetters
       bumpId clock session users insights coverLetters assessments resumes
       nextId gemini geminiCalls trace] in *.

Lemma plainUser_signedIn w u :
  signedIn w u -> ResumeActions.getAuthenticatedUser w = (Return u, w).
Proof.
  intros (uid & Hs & Hne & Hu).
  unfold ResumeActions.getAuthenticatedUser, bind, auth, userFindUnique.
  rewrite Hs. cbn [falsy orElse]. apply String.eqb_neq in Hne.
  rewrite Hne, Hu. reflexivity.
Qed.

(** The retry loop only adds events. *)
Lemma retryLoop_extends {A} (attemptFn : M A) baseDelay exhausted prompt post
      maxRetries :
  (forall w, attemptFn w
             = (post (gemini w (geminiCalls w) prompt), afterCall prompt w)) ->
  forall remaining attempt last w,
  exists evs,
    trace (snd (retryLoop attemptFn baseDelay exhausted maxRetries remaining
                          attempt last w))
    = (trace w ++ evs)%list.
Proof.
  intros Hshape. induction remaining as [|k IH]; intros attempt last w.
  - exists []. cbn [retryLoop]. destruct last; cbn; rewrite app_nil_r; reflexivity.
  - cbn [retryLoop]. unfold tryCatch. rewrite Hshape.
    destruct (post (gemini w (geminiCalls w) prompt)) as [a|e].
    + exists [EvGenerate prompt]. reflexivity.
    + unfold bind.
      destruct (Nat.ltb attempt maxRetries).
      * unfold sleep.
        destruct (IH (S attempt) (Some e)
                     (emit (EvSleep (baseDelay * (Z.of_nat attempt + 1)))
                        (advance (baseDelay * (Z.of_nat attempt + 1))
                           (afterCall prompt w)))) as (evs & ->).
        world_simpl. rewrite <- !app_assoc. eexists. reflexivity.
      * unfold ret.
        destruct (IH (S attempt) (Some e) (afterCall prompt w)) as (evs & ->).
        world_simpl. rewrite <- !app_assoc. eexists. reflexivity.
Qed.

(** The executor always makes a first attempt. *)
Lemma execute_calls_provider {A} (attemptFn : M A) baseDelay exhausted prompt
      post maxRetries w :
  (forall w, attemptFn w
             = (post (gemini w (geminiCalls w) prompt), afterCall prompt w)) ->
  In (EvGenerate prompt)
     (trace (snd (execute attemptFn baseDelay exhausted maxRetries w))).
Proof.
  intros Hshape. unfold execute. cbn [retryLoop]. unfold tryCatch.
  rewrite Hshape.
  destruct (post (gemini w (geminiCalls w) prompt)) as [a|e].
  - world_simpl. apply in_or_app. right. left. reflexivity.
  - unfold bind.
    destruct (Nat.ltb 0 maxRetries).
    + unfold sleep.
      destruct (retryLoop_extends attemptFn baseDelay exhausted prompt post
                  maxRetries Hshape maxRetries 1 (Some e)
                  (emit (EvSleep (baseDelay * (Z.of_nat 0 + 1)))
                     (advance (baseDelay * (Z.of_nat 0 + 1))
                        (afterCall prompt w)))) as (evs & ->).
      world_simpl. rewrite <- !app_assoc.
      apply in_or_app. right. left. reflexivity.
    + unfold ret.
      destruct (retryLoop_extends attemptFn baseDelay exhausted prompt post
                  maxRetries Hshape maxRetries 1 (Some e)
                  (afterCall prompt w)) as (evs & ->).
      world_simpl. rewrite <- !app_assoc.
      apply in_or_app. right. left. reflexivity.
Qed.

Lemma find_fresh_letter n l row :
  Forall (fun c => cl_id c < n) l -> cl_id row = n ->
  find (fun c => Nat.eqb (cl_id c) n) (l ++ [row]) = Some row.
Proof.
  intros Hl Hrow. induction Hl as [|c l Hc Hl IH]; cbn [app find].
  - rewrite Hrow, Nat.eqb_refl. reflexivity.
  - assert (Nat.eqb (cl_id c) n = false) as -> by (apply Nat.eqb_neq; lia).
    exact IH.
Qed.

Lemma update_fresh_letter n l row row' :
  Forall (fun c => cl_id c < n) l -> cl_id row = n ->
  map (fun c => if Nat.eqb (cl_id c) n then row' else c) (l ++ [row])
  = (l ++ [row'])%list.
Proof.
  intros Hl Hrow. induction Hl as [|c l Hc Hl IH]; cbn [app map].
  - rewrite Hrow, Nat.eqb_refl. reflexivity.
  - assert (Nat.eqb (cl_id c) n = false) as -> by (apply Nat.eqb_neq; lia).
    rewrite IH. reflexivity.
Qed.

Lemma countCoverLetters_snoc userId since l row :
  cl_userId row = userId -> (since <= cl_createdAt row)%Z ->
  countCoverLetters userId since (l ++ [row])
  = S (countCoverLetters userId since l).
Proof.
  intros Hu Hc. unfold countCoverLetters.
  rewrite filter_app, length_app. cbn [filter].
  rewrite Hu, Nat.eqb_refl. apply Z.leb_le in Hc. rewrite Hc.
  cbn [andb List.length]. lia.
Qed.


(** Below the quota: the placeholder is stored, the provider is called,
    and the same row is completed or marked failed. *)
Lemma coverLetter_under_quota P w u d :
  signedIn w u ->
  CoverLetterActions.missingFields (Some d) = false ->
  countCoverLetters (user_id u) (startOfLocalDay P (clock w)) (coverLetters w)
  < CoverLetterActions.DAILY_LIMIT ->
  freshIds w ->
  exists w',
    CoverLetterActions.generateCoverLetter P (Some d) w
    = (match callGeminiOutcome
               (gemini w (geminiCalls w) (coverLetterPrompt P u d)) with
       | Return _ => Return (finalLetter P w u d)
       | Throw e =>
           Throw (Error ("Failed to generate cover letter: " ++ message e))
       end, w')
    /\ coverLetters w' = (coverLetters w ++ [finalLetter P w u d])%list
    /\ trace w' = (trace w ++ [EvLetter (letterRow w u d "" "pending");
                               EvGenerate (coverLetterPrompt P u d);
                               EvLetter (finalLetter P w u d)])%list
    /\ clock w' = clock w.
Proof.
  intros Hu Hin Hq Hfresh. unfold CoverLetterActions.generateCoverLetter.
  rewrite Hin. unfold CoverLetterActions.getAuthenticatedUser, bind at 1.
  rewrite (plainUser_signedIn w u Hu).
  unfold bind at 1, now. unfold bind at 1, coverLetterCount.
  apply Nat.leb_gt in Hq. rewrite Hq.
  unfold bind at 1, coverLetterCreate. cbn [orElse cl_id].
  unfold tryCatch, bind at 1, generateContent. world_simpl.
  unfold finalLetter, callGeminiOutcome.
  assert (Hfind : forall row,
             cl_id row = nextId w ->
             find (fun c => Nat.eqb (cl_id c) (nextId w))
                  (coverLetters w ++ [row]) = Some row)
    by (intros row; apply find_fresh_letter; exact Hfresh).
  destruct (gemini w (geminiCalls w) (coverLetterPrompt P u d)) as [raw|msg].
  - destruct (String.eqb (trim raw) "") eqn:Eraw.
    + unfold throw, bind, coverLetterUpdate. world_simpl.
      rewrite Hfind by reflexivity.
      eexists. split; [reflexivity|]. world_simpl.
      split; [apply update_fresh_letter; [exact Hfresh | reflexivity]|].
      split; [rewrite <- !app_assoc; reflexivity | reflexivity].
    + unfold coverLetterUpdate. world_simpl.
      rewrite Hfind by reflexivity.
      eexists. split; [reflexivity|]. world_simpl.
      split; [apply update_fresh_letter; [exact Hfresh | reflexivity]|].
      split; [rewrite <- !app_assoc; reflexivity | reflexivity].
  - unfold bind, coverLetterUpdate. world_simpl.
    rewrite Hfind by reflexivity.
    eexists. split; [reflexivity|]. world_simpl.
    split; [apply update_fresh_letter; [exact Hfresh | reflexivity]|].
    split; [rewrite <- !app_assoc; reflexivity | reflexivity].
Qed.



Lemma improve_checks P w u input :
  signedIn w u -> validImprove input -> falsy (user_industry u) = false ->
  let n := List.length (recentResumes (user_id u) (clock w - 60 * 60 * 1000)
                                      (resumes w)) in
  let prompt := getPromptForType P (toLowerCase (ResumeActions.im_type input))
                                 (ResumeActions.im_current input)
                                 (orElse (user_industry u) "") in
  (ResumeActions.HOURLY_AI_LIMIT <= n ->
   ResumeActions.improveWithAI P input w
   = (Throw (Error "Rate limit reached (20 improvements per hour). Please try again later."),
      w))
  /\ (n < ResumeActions.HOURLY_AI_LIMIT ->
      In (EvGenerate prompt)
         (trace (snd (ResumeActions.improveWithAI P input w)))).
Proof.
  intros Hu (Hv1 & Hv2 & Hv3 & Hv4) Hind n prompt.
  split; intros Hq; unfold n in Hq;
    unfold ResumeActions.improveWithAI;
    rewrite Hv1, Hv2, Hv3, Hv4; cbn [negb];
    unfold bind at 1; rewrite (plainUser_signedIn w u Hu), Hind;
    unfold bind at 1, now; unfold bind at 1, resumeFindMany.
  - apply Nat.leb_le in Hq. rewrite Hq. reflexivity.
  - apply Nat.leb_gt in Hq. rewrite Hq.
    unfold tryCatch, bind at 1. fold prompt.
    pose proof (execute_calls_provider
                  (ResumeActions.callGeminiAttempt prompt) 1000%Z
                  ResumeActions.unavailableMessage prompt callGeminiOutcome 2 w
                  (callGeminiAttempt_shape prompt)) as Hcall.
    unfold ResumeActions.callGeminiWithRetry.
    destruct (execute (ResumeActions.callGeminiAttempt prompt) 1000
                      ResumeActions.unavailableMessage 2 w) as [[text|e] w'].
    + destruct (Nat.ltb (String.length text) 10); exact Hcall.
    + exact Hcall.
Qed.

(** With [userId] unique, a user has at most one resume row. *)
Lemma unique_find_only userId (l : list Resume) :
  NoDup (map rs_userId l) ->
  List.length (filter (resumeOf userId) l) <= 1.
Proof.
  induction l as [|r l IH]; intros H; [cbn; lia|].
  cbn [map] in H. inversion H as [|? ? Hnot Hrest]; subst.
  cbn [filter]. destruct (resumeOf userId r) eqn:E.
  - unfold resumeOf in E. apply Nat.eqb_eq in E.
    assert (filter (resumeOf userId) l = []) as ->; [|cbn; lia].
    destruct (filter (resumeOf userId) l) as [|x xs] eqn:Ef; [reflexivity|].
    exfalso. apply Hnot.
    assert (In x (filter (resumeOf userId) l)) as Hx by (rewrite Ef; left; reflexivity).
    apply filter_In in Hx as [Hin Hx]. unfold resumeOf in Hx.
    apply Nat.eqb_eq in Hx. rewrite E, <- Hx. apply in_map. exact Hin.
  - apply IH. exact Hrest.
Qed.

Lemma recentResumes_le userId since (l : list Resume) :
  List.length (recentResumes userId since l)
  <= List.length (filter (resumeOf userId) l).
Proof.
  unfold recentResumes, resumeOf.
  induction l as [|r l IH]; [cbn; lia|].
  cbn [filter]. destruct (Nat.eqb (rs_userId r) userId); cbn [andb].
  - destruct (Z.leb since (rs_updatedAt r)); cbn [List.length]; lia.
  - exact IH.
Qed.






(** C10. A cover-letter request that passes validation, authentication
    and the daily quota first stores a placeholder with empty content
    and status pending, then calls the provider: the run makes exactly
    three effects, in this order, the write of the placeholder, the
    provider call, and the write of the same row as it is left.  On
    success that row gets the content and status completed; on any
    failure it gets status failed, is kept, and the operation throws.
    Either way the row counts in the next daily check, which counts the
    user's rows created since the start of the day whatever their
    status. *)
Theorem cover_letter_placeholder_lifecycle (P : Platform) (w : World)
        (u : User) (d : CoverLetterInput) :
  signedIn w u ->
  CoverLetterActions.missingFields (Some d) = false ->
  countCoverLetters (user_id u) (startOfLocalDay P (clock w)) (coverLetters w)
  < CoverLetterActions.DAILY_LIMIT ->
  freshIds w ->
  (startOfLocalDay P (clock w) <= clock w)%Z ->
  exists w',
    snd (CoverLetterActions.generateCoverLetter P (Some d) w) = w'
    /\ match callGeminiOutcome
               (gemini w (geminiCalls w) (coverLetterPrompt P u d)) with
       | Return content =>
           fst (CoverLetterActions.generateCoverLetter P (Some d) w)
           = Return (letterRow w u d content "completed")
           /\ trace w'
              = (trace w ++ [EvLetter (letterRow w u d "" "pending");
                             EvGenerate (coverLetterPrompt P u d);
                             EvLetter (letterRow w u d content "completed")])%list
           /\ coverLetters w'
              = (coverLetters w ++ [letterRow w u d content "completed"])%list
       | Throw e =>
           fst (CoverLetterActions.generateCoverLetter P (Some d) w)
           = Throw (Error ("Failed to generate cover letter: " ++ message e))
           /\ trace w'
              = (trace w ++ [EvLetter (letterRow w u d "" "pending");
                             EvGenerate (coverLetterPrompt P u d);
                             EvLetter (letterRow w u d "" "failed")])%list
           /\ coverLetters w'
              = (coverLetters w ++ [letterRow w u d "" "failed"])%list
       end
    /\ countCoverLetters (user_id u) (startOfLocalDay P (clock w'))
                         (coverLetters w')
       = S (countCoverLetters (user_id u) (startOfLocalDay P (clock w))
                              (coverLetters w)).
Proof.
  intros Hu Hin Hq Hfresh Hday.
  destruct (coverLetter_under_quota P w u d Hu Hin Hq Hfresh)
    as (w' & Hrun & Hletters & Htrace & Hclock).
  exists w'. rewrite Hrun. cbn [fst snd]. split; [reflexivity|].
  split.
  - rewrite Hletters, Htrace. unfold finalLetter.
    destruct (callGeminiOutcome
                (gemini w (geminiCalls w) (coverLetterPrompt P u d)));
      repeat split; reflexivity.
  - rewrite Hletters, Hclock. apply countCoverLetters_snoc.
    + unfold finalLetter.
      destruct (callGeminiOutcome
                  (gemini w (geminiCalls w) (coverLetterPrompt P u d)));
        reflexivity.
    + unfold finalLetter.
      destruct (callGeminiOutcome
                  (gemini w (geminiCalls w) (coverLetterPrompt P u d)));
        exact Hday.
Qed.

(** The theorem for Alice at noon with two letters of the day stored:
    the placeholder is written, the provider is called, the third letter
    is completed, and three count from then on. *)
Lemma cover_letter_placeholder_lifecycle_witness :
  exists w',
    CoverLetterActions.generateCoverLetter Scenario.platform (Some letterInput)
                                           noonWorld
    = (Return (letterRow noonWorld Scenario.alice letterInput
                         "Dear hiring manager" "completed"), w')
    /\ trace w'
       = [EvLetter (letterRow noonWorld Scenario.alice letterInput "" "pending");
          EvGenerate "Write a cover letter for Engineer";
          EvLetter (letterRow noonWorld Scenario.alice letterInput
                              "Dear hiring manager" "completed")]
    /\ countCoverLetters 1 (startOfLocalDay Scenario.platform (clock w'))
                         (coverLetters w') = 3.
Proof.
  destruct (cover_letter_placeholder_lifecycle Scenario.platform noonWorld
                                               Scenario.alice letterInput)
    as (w' & Hsnd & Hout & Hcount).
  - exists "user_alice". split; [reflexivity|]. split; [discriminate | reflexivity].
  - reflexivity.
  - vm_compute. lia.
  - repeat constructor.
  - vm_compute. discriminate.
  - exists w'.
    assert (Hc : callGeminiOutcome
                   (gemini noonWorld (geminiCalls noonWorld)
                           (coverLetterPrompt Scenario.platform Scenario.alice
                                              letterInput))
                 = Return "Dear hiring manager") by reflexivity.
    rewrite Hc in Hout. destruct Hout as (Hfst & Htrace & _).
    split; [|split].
    + rewrite <- Hsnd, <- Hfst. apply surjective_pairing.
    + rewrite Htrace. reflexivity.
    + change 1 with (user_id Scenario.alice). rewrite Hcount. reflexivity.
Defined.
End QuotaProofs.

Module FenceProofs.
Import JsString SanitizerSpec SanitizerProofs FenceSpec.

Lemma startsFence_cons_keep tag nl c r :
  startsFence (c :: r) = false ->
  startsFence (c :: stripFences tag nl r) = false.
Proof.
  intros H.
  destruct (Ascii.eqb c backtick) eqn:Ec.
  2:{ destruct (stripFences tag nl r) as [|x [|y l]]; cbn [startsFence];
        rewrite ?Ec; reflexivity. }
  destruct r as [|c2 r2]; [reflexivity|].
  destruct (Ascii.eqb c2 backtick) eqn:E2.
  2:{ rewrite stripFences_keep1 by exact E2.
      destruct (stripFences tag nl r2); cbn [startsFence];
        rewrite ?E2, ?andb_false_r; reflexivity. }
  destruct r2 as [|c3 r3]; [reflexivity|].
  cbn [startsFence] in H. rewrite Ec, E2 in H. cbn [andb] in H.
  rewrite stripFences_keep2 by exact H.
  rewrite stripFences_keep1 by exact H.
  cbn [startsFence]. rewrite H, !andb_false_r. reflexivity.
Qed.

(** A global replacement of a fence pattern leaves no fence behind. *)
Lemma stripFences_noFence tag nl :
  forall n s, List.length s <= n -> hasFence (stripFences tag nl s) = false.
Proof.
  induction n as [|n IH]; intros s Hlen.
  - destruct s; [reflexivity | simpl in Hlen; lia].
  - destruct s as [|c r]; [reflexivity|].
    destruct (startsFence (c :: r)) eqn:Es.
    + destruct r as [|c2 [|c3 r3]]; try discriminate Es.
      rewrite stripFences_unfold3. cbn [startsFence] in Es. rewrite Es.
      apply IH. pose proof (afterFence_length tag nl r3). simpl in Hlen. lia.
    + rewrite stripFences_keep by exact Es.
      cbn [hasFence]. rewrite startsFence_cons_keep by exact Es.
      apply IH. simpl in Hlen. lia.
Qed.

Lemma startsFence_app a b :
  startsFence a = true -> startsFence (a ++ b) = true.
Proof.
  destruct a as [|c1 [|c2 [|c3 r]]]; try discriminate. intros H. exact H.
Qed.

Lemma hasFence_app_l a b : hasFence (a ++ b) = false -> hasFence a = false.
Proof.
  induction a as [|c a IH]; intros H; [reflexivity|].
  change ((c :: a) ++ b) with (c :: (a ++ b)) in H.
  cbn [hasFence] in *. apply orb_false_iff in H as [Hs Hr].
  rewrite (IH Hr), orb_false_r.
  destruct (startsFence (c :: a)) eqn:E; [|reflexivity].
  apply (startsFence_app _ b) in E.
  change ((c :: a) ++ b) with (c :: (a ++ b)) in E. congruence.
Qed.

Lemma hasFence_app_r a b : hasFence (a ++ b) = false -> hasFence b = false.
Proof.
  induction a as [|c a IH]; intros H; [exact H|].
  change ((c :: a) ++ b) with (c :: (a ++ b)) in H.
  cbn [hasFence] in H. apply orb_false_iff in H as [_ Hr]. apply IH, Hr.
Qed.

Lemma trimL_idempotent s : trimL (trimL s) = trimL s.
Proof. symmetry. apply padded_trimL, trimL_padded. Qed.

Lemma trimL_noFence s : hasFence s = false -> hasFence (trimL s) = false.
Proof.
  intros H. destruct (trimL_padded s) as (w1 & w2 & _ & _ & E).
  rewrite E in H. apply hasFence_app_r in H. apply hasFence_app_l in H.
  exact H.
Qed.

Lemma trim_idempotent (s : string) : trim (trim s) = trim s.
Proof.
  unfold trim. rewrite list_ascii_of_string_of_list_ascii, trimL_idempotent.
  reflexivity.
Qed.

(** X1. Whatever the text, what either cleaning step returns holds no
    run of three backticks: no fence marker survives the cleaning. *)
Theorem cleaned_text_has_no_fence (text : string) :
  containsFence (cleanText text) = false
  /\ containsFence (cleanTextPlain text) = false.
Proof.
  unfold containsFence, cleanText, cleanTextPlain.
  rewrite !list_ascii_of_string_of_list_ascii.
  split; apply trimL_noFence; eapply stripFences_noFence; apply le_n.
Qed.

(** X2. The two cleaning steps, which differ in their second pattern
    (a fence with or without a following line break), return the same
    string for every text, and the second replacement of either never
    removes anything: both equal the first replacement followed by
    [trim]. *)
Theorem cleaning_steps_agree (text : string) :
  cleanText text = cleanTextPlain text
  /\ cleanText text = firstPassOnly text.
Proof.
  unfold cleanText, cleanTextPlain, firstPassOnly.
  rewrite !(stripFences_id _ _ (stripFences true true _))
    by (eapply stripFences_noFence; apply le_n).
  split; reflexivity.
Qed.

(** X3. Cleaning is idempotent: cleaning a cleaned text returns it
    unchanged, for both cleaning steps. *)
Theorem cleaning_is_idempotent (text : string) :
  cleanText (cleanText text) = cleanText text
  /\ cleanTextPlain (cleanTextPlain text) = cleanTextPlain text.
Proof.
  assert (forall nl l,
             hasFence l = false ->
             trimL (stripFences false nl (stripFences true true (trimL l)))
             = trimL l) as H.
  { intros nl l Hl.
    rewrite !stripFences_id; try apply trimL_idempotent;
      rewrite ?stripFences_id; apply trimL_noFence; exact Hl. }
  unfold cleanText, cleanTextPlain.
  rewrite !list_ascii_of_string_of_list_ascii.
  split; f_equal; apply H; eapply stripFences_noFence; apply le_n.
Qed.
End FenceProofs.

Module SkillsProofs.
Import JsString SanitizerSpec SanitizerProofs FenceProofs UserActions SkillsSpec.
Local Open Scope string_scope.

Lemma nonEmpty_true s : nonEmpty s = true <-> s <> "".
Proof.
  unfold nonEmpty. rewrite negb_true_iff. split.
  - intros H. apply String.eqb_neq. exact H.
  - intros H. apply String.eqb_neq. exact H.
Qed.

Lemma trimmed_entries (l : list string) :
  Forall cleanSkill (filter nonEmpty (map trim l)).
Proof.
  apply Forall_forall. intros x Hx. apply filter_In in Hx as [Hin Hne].
  apply in_map_iff in Hin as (y & <- & _).
  split; [apply nonEmpty_true, Hne | apply trim_idempotent].
Qed.

Lemma clean_entries_kept (l : list string) :
  Forall cleanSkill l -> filter nonEmpty (map trim l) = l.
Proof.
  induction 1 as [|x l [Hne Ht] _ IH]; [reflexivity|].
  cbn [map filter]. rewrite Ht.
  apply nonEmpty_true in Hne. rewrite Hne, IH. reflexivity.
Qed.

Lemma normalizeSkills_clean skills : Forall cleanSkill (normalizeSkills skills).
Proof.
  destruct skills as [items|text|]; cbn [normalizeSkills].
  - apply trimmed_entries.
  - destruct (String.eqb text ""); [constructor | apply trimmed_entries].
  - constructor.
Qed.

(** ** Splitting what was joined *)

Lemma splitComma_app a rest :
  hasComma a = false ->
  splitComma (a ++ String ","%char rest) = a :: splitComma rest.
Proof.
  induction a as [|c a IH]; intros H; [reflexivity|].
  unfold hasComma in H. cbn [list_ascii_of_string existsb] in H.
  apply orb_false_iff in H as [Hc Ha].
  cbn [append splitComma]. rewrite Ascii.eqb_sym, Hc.
  rewrite (IH Ha). reflexivity.
Qed.

Lemma splitComma_plain a : hasComma a = false -> splitComma a = [a].
Proof.
  induction a as [|c a IH]; intros H; [reflexivity|].
  unfold hasComma in H. cbn [list_ascii_of_string existsb] in H.
  apply orb_false_iff in H as [Hc Ha].
  cbn [splitComma]. rewrite Ascii.eqb_sym, Hc, (IH Ha). reflexivity.
Qed.

Lemma splitComma_joinComma hd tl :
  Forall (fun s => hasComma s = false) (hd :: tl) ->
  splitComma (joinComma (hd :: tl)) = hd :: map (String " "%char) tl.
Proof.
  revert hd. induction tl as [|b r IH]; intros hd H.
  - apply splitComma_plain. inversion H; assumption.
  - inversion H as [|? ? Hhd Htl]; subst.
    change (joinComma (hd :: b :: r))
      with (hd ++ String ","%char (String " "%char (joinComma (b :: r)))).
    rewrite splitComma_app by exact Hhd.
    cbn [splitComma]. change (Ascii.eqb " "%char ","%char) with false.
    cbv iota. rewrite (IH b Htl). reflexivity.
Qed.

Lemma trim_leading_space s : trim (String " "%char s) = trim s.
Proof.
  unfold trim. cbn [list_ascii_of_string].
  change (" "%char :: list_ascii_of_string s)
    with ([" "%char] ++ list_ascii_of_string s)%list.
  rewrite trimL_white_l by reflexivity. reflexivity.
Qed.

Lemma joinComma_empty hd tl :
  joinComma (hd :: tl) = "" -> hd = "" /\ tl = [].
Proof.
  destruct tl as [|b r]; [intros H; split; [exact H | reflexivity]|].
  change (joinComma (hd :: b :: r))
    with (hd ++ String ","%char (String " "%char (joinComma (b :: r)))).
  destruct hd; discriminate.
Qed.

(** X4. Every skill [normalizeSkills] returns is non-empty and has no
    white space at either end, whatever shape the input has; and
    normalising its own result again changes nothing. *)
Theorem normalizeSkills_clean_and_idempotent (skills : SkillsInput) :
  Forall cleanSkill (normalizeSkills skills)
  /\ normalizeSkills (SkillsArray (normalizeSkills skills))
     = normalizeSkills skills.
Proof.
  split; [apply normalizeSkills_clean|].
  exact (clean_entries_kept _ (normalizeSkills_clean skills)).
Qed.

(** X5. A list of skills none of which contains a comma, joined with
    [", "] (the way the prompts show them) and given back as text, is
    normalised to the same list as the array itself; a list that is
    already clean comes back unchanged. *)
Theorem skills_text_round_trip (l : list string) :
  Forall (fun s => hasComma s = false) l ->
  normalizeSkills (SkillsText (joinComma l)) = normalizeSkills (SkillsArray l)
  /\ (Forall cleanSkill l -> normalizeSkills (SkillsText (joinComma l)) = l).
Proof.
  intros H.
  assert (normalizeSkills (SkillsText (joinComma l))
          = normalizeSkills (SkillsArray l)) as E.
  { destruct l as [|hd tl]; [reflexivity|].
    cbn [normalizeSkills].
    destruct (String.eqb (joinComma (hd :: tl)) "") eqn:Ee.
    - apply String.eqb_eq in Ee. apply joinComma_empty in Ee as [-> ->].
      reflexivity.
    - rewrite splitComma_joinComma by exact H.
      cbn [map]. rewrite map_map.
      rewrite (map_ext _ trim trim_leading_space). reflexivity. }
  split; [exact E|].
  intros Hc. rewrite E. cbn [normalizeSkills]. apply clean_entries_kept, Hc.
Qed.

Lemma skills_text_round_trip_witness :
  normalizeSkills (SkillsText (joinComma ["Python"; " SQL "; ""; "Go"]))
  = normalizeSkills (SkillsArray ["Python"; " SQL "; ""; "Go"])
  /\ normalizeSkills (SkillsText (joinComma ["Python"; "SQL"]))
     = ["Python"; "SQL"].
Proof.
  split.
  - apply (skills_text_round_trip ["Python"; " SQL "; ""; "Go"]).
    repeat constructor.
  - apply (skills_text_round_trip ["Python"; "SQL"]).
    + repeat constructor.
    + repeat constructor; discriminate.
Defined.
End SkillsProofs.

Module AttemptProofs.
Import JsString Js Runtime Retry RetrySpec RetryProofs AttemptSpec FenceProofs.
Local Open Scope string_scope.

Ltac world_simpl :=
  cbn [afterCall emit advance countCall setUsers setInsights setCoverLetters
       bumpId clock session users insights coverLetters assessments resumes
       nextId gemini geminiCalls trace] in *.

Lemma sameStore_refl w : sameStore w w.
Proof. repeat split. Qed.

Lemma sameStore_trans w1 w2 w3 :
  sameStore w1 w2 -> sameStore w2 w3 -> sameStore w1 w3.
Proof.
  unfold sameStore.
  intros (a1 & a2 & a3 & a4 & a5 & a6 & a7 & a8)
         (b1 & b2 & b3 & b4 & b5 & b6 & b7 & b8).
  repeat split; congruence.
Qed.

Section Loop.
Context {A : Type}.
Variable attemptFn : M A.
Variable baseDelay : Z.
Variable exhausted : nat -> string -> string.
Variable prompt : string.
Variable post : GenResult -> Outcome A.

Hypothesis attempt_shape :
  forall w, attemptFn w
            = (post (gemini w (geminiCalls w) prompt), afterCall prompt w).

(** The loop ends with the first attempt that succeeds. *)
Lemma retryLoop_first_success maxRetries :
  forall k remaining attempt last w a,
    attempt + remaining = maxRetries + 1 ->
    k < remaining ->
    (forall j, j < k ->
               exists e, post (gemini w (geminiCalls w + j) prompt) = Throw e) ->
    post (gemini w (geminiCalls w + k) prompt) = Return a ->
    retryLoop attemptFn baseDelay exhausted maxRetries remaining attempt last w
    = (Return a, attemptsFrom prompt baseDelay attempt k w).
Proof.
  induction k as [|k IH]; intros remaining attempt last w a Hsum Hk Hfail Hok;
    (destruct remaining as [|r]; [lia|]);
    cbn [retryLoop]; unfold tryCatch at 1; rewrite attempt_shape.
  - rewrite Nat.add_0_r in Hok. rewrite Hok.
    unfold attemptsFrom, afterCall, emit, countCall.
    cbn [seq totalDelay fold_right flat_map app clock session users insights
         coverLetters assessments resumes nextId gemini geminiCalls trace].
    f_equal. f_equal; lia.
  - destruct (Hfail 0) as (e & He); [lia|].
    rewrite Nat.add_0_r in He. rewrite He.
    unfold bind at 1.
    assert (Nat.ltb attempt maxRetries = true) as -> by (apply Nat.ltb_lt; lia).
    unfold sleep at 1.
    rewrite (IH r (S attempt) (Some e) _ a); try lia.
    + unfold attemptsFrom. world_simpl. f_equal.
      replace (attempt + 1) with (S attempt) by lia.
      replace (S attempt + 1) with (S (S attempt)) by lia.
      f_equal.
      * change (seq (S attempt) (S k)) with (S attempt :: seq (S (S attempt)) k).
        change (totalDelay baseDelay (S attempt :: seq (S (S attempt)) k))
          with (baseDelay * Z.of_nat (S attempt)
                + totalDelay baseDelay (seq (S (S attempt)) k))%Z.
        replace (Z.of_nat attempt + 1)%Z with (Z.of_nat (S attempt)) by lia.
        ring.
      * lia.
      * change (seq (S attempt) (S k)) with (S attempt :: seq (S (S attempt)) k).
        cbn [flat_map failedRound app].
        replace (Z.of_nat attempt + 1)%Z with (Z.of_nat (S attempt)) by lia.
        rewrite <- !app_assoc. reflexivity.
    + intros j Hj. world_simpl.
      destruct (Hfail (S j)) as (e' & He'); [lia|].
      exists e'. replace (S (geminiCalls w) + j) with (geminiCalls w + S j) by lia.
      exact He'.
    + world_simpl.
      replace (S (geminiCalls w) + k) with (geminiCalls w + S k) by lia.
      exact Hok.
Qed.

Lemma execute_first_success_after maxRetries k w a :
  k <= maxRetries ->
  (forall j, j < k ->
             exists e, post (gemini w (geminiCalls w + j) prompt) = Throw e) ->
  post (gemini w (geminiCalls w + k) prompt) = Return a ->
  execute attemptFn baseDelay exhausted maxRetries w
  = (Return a, attemptsFrom prompt baseDelay 0 k w).
Proof.
  intros Hk Hfail Hok. unfold execute.
  apply retryLoop_first_success; (lia || assumption).
Qed.

(** What any run of the loop costs and what it can return. *)
Lemma retryLoop_bounds maxRetries :
  forall remaining attempt last w,
    let r := retryLoop attemptFn baseDelay exhausted maxRetries remaining
                       attempt last w in
    geminiCalls w <= geminiCalls (snd r) <= geminiCalls w + remaining
    /\ (0 < remaining -> geminiCalls w < geminiCalls (snd r))
    /\ sameStore w (snd r)
    /\ (forall a, fst r = Return a ->
                  exists k, post (gemini w k prompt) = Return a).
Proof.
  induction remaining as [|k IH]; intros attempt last w; cbv zeta.
  - cbn [retryLoop]. destruct last; cbn [throw fst snd];
      (split; [lia|]); (split; [lia|]); (split; [apply sameStore_refl|]);
      intros a Ha; discriminate Ha.
  - cbn [retryLoop]. unfold tryCatch. rewrite attempt_shape.
    destruct (post (gemini w (geminiCalls w) prompt)) as [a|e] eqn:Ep.
    + cbn [fst snd]. world_simpl.
      split; [lia|]. split; [lia|]. split; [repeat split|].
      intros a' Ha. injection Ha as <-. eexists. exact Ep.
    + unfold bind.
      destruct (Nat.ltb attempt maxRetries); [unfold sleep | unfold ret].
      * specialize (IH (S attempt) (Some e)
                       (emit (EvSleep (baseDelay * (Z.of_nat attempt + 1)))
                          (advance (baseDelay * (Z.of_nat attempt + 1))
                             (afterCall prompt w)))).
        cbv zeta in IH. destruct IH as (Hc & _ & Hs & Hr).
        world_simpl. split; [lia|]. split; [lia|].
        split; [eapply sameStore_trans; [|exact Hs]; repeat split|].
        exact Hr.
      * specialize (IH (S attempt) (Some e) (afterCall prompt w)).
        cbv zeta in IH. destruct IH as (Hc & _ & Hs & Hr).
        world_simpl. split; [lia|]. split; [lia|].
        split; [eapply sameStore_trans; [|exact Hs]; repeat split|].
        exact Hr.
Qed.
End Loop.

Lemma callGeminiOutcome_trimmed r t :
  callGeminiOutcome r = Return t -> t <> "" /\ trim t = t.
Proof.
  unfold callGeminiOutcome. destruct r as [raw|msg]; [|discriminate].
  destruct (String.eqb (trim raw) "") eqn:E; [discriminate|].
  intros H. injection H as <-. split.
  - apply String.eqb_neq. exact E.
  - apply trim_idempotent.
Qed.

Lemma generateOutcome_wellFormed P industry r v :
  generateOutcome P industry r = Return v -> ValidatorSpec.insightsWellFormed v.
Proof.
  unfold generateOutcome. destruct r as [text|msg]; [|discriminate].
  destruct (String.eqb text "" || Nat.eqb (String.length (trim text)) 0);
    [discriminate|].
  destruct (JSON_parse P (cleanTextPlain text)) as [x|msg]; [|discriminate].
  destruct (validateInsights x industry) as [ok|e] eqn:Ev; [|discriminate].
  cbn [obind]. intros H. injection H as <-.
  eapply ValidatorProofs.validateInsights_returns_wellFormed. exact Ev.
Qed.

Lemma attemptsFrom_events prompt baseDelay k w :
  trace (attemptsFrom prompt baseDelay 0 k w)
  = (trace w ++ attemptEvents prompt baseDelay k)%list
  /\ geminiCalls (attemptsFrom prompt baseDelay 0 k w) = geminiCalls w + k + 1.
Proof. unfold attemptsFrom, attemptEvents. cbn. split; [reflexivity | lia]. Qed.

Lemma callGeminiWithRetry_bounds prompt n w :
  let r := ResumeActions.callGeminiWithRetry prompt n w in
  geminiCalls w + 1 <= geminiCalls (snd r) <= geminiCalls w + n + 1
  /\ sameStore w (snd r)
  /\ forall t, fst r = Return t -> t <> "" /\ trim t = t.
Proof.
  cbv zeta. unfold ResumeActions.callGeminiWithRetry, execute.
  pose proof (retryLoop_bounds _ 1000%Z ResumeActions.unavailableMessage
                prompt callGeminiOutcome (callGeminiAttempt_shape prompt)
                n (S n) 0 None w) as H.
  cbv zeta in H. destruct H as (Hc & Hpos & Hs & Hr).
  split; [lia|]. split; [exact Hs|].
  intros t Ht. destruct (Hr t Ht) as (k & Hk).
  eapply callGeminiOutcome_trimmed. exact Hk.
Qed.

Lemma generateWithRetry_bounds P prompt industry w :
  let r := InngestFunctions.generateWithRetry P prompt industry w in
  geminiCalls w + 1 <= geminiCalls (snd r) <= geminiCalls w + 3
  /\ sameStore w (snd r)
  /\ forall v, fst r = Return v -> ValidatorSpec.insightsWellFormed v.
Proof.
  cbv zeta. unfold InngestFunctions.generateWithRetry, execute.
  pose proof (retryLoop_bounds _ 2000%Z InngestFunctions.failedAfterMessage
                prompt (generateOutcome P industry)
                (generateAttempt_shape P prompt industry)
                InngestFunctions.MAX_RETRIES (S InngestFunctions.MAX_RETRIES)
                0 None w) as H.
  cbv zeta in H. destruct H as (Hc & Hpos & Hs & Hr).
  unfold InngestFunctions.MAX_RETRIES in *.
  split; [lia|]. split; [exact Hs|].
  intros v Hv. destruct (Hr v Hv) as (k & Hk).
  eapply generateOutcome_wellFormed. exact Hk.
Qed.

(** X6. Both retry executors return the result of the first attempt
    that succeeds: when the first [k] attempts fail ([k] at most the
    number of retries) and attempt [k + 1] succeeds, the call returns
    that attempt's value after exactly [k + 1] provider calls, having
    suspended after each failed attempt for the base delay (1000 ms,
    resp. 2000 ms) times its 1-indexed number, and not after the
    successful one. *)
Theorem retry_returns_first_success (P : Platform) (prompt industry : string)
        (n k : nat) (w : World) :
  (k <= n ->
   (forall j, j < k ->
      exists e, callGeminiOutcome (gemini w (geminiCalls w + j) prompt) = Throw e) ->
   forall t,
     callGeminiOutcome (gemini w (geminiCalls w + k) prompt) = Return t ->
     let r := ResumeActions.callGeminiWithRetry prompt n w in
     fst r = Return t
     /\ trace (snd r) = (trace w ++ attemptEvents prompt 1000 k)%list
     /\ geminiCalls (snd r) = geminiCalls w + k + 1)
  /\ (k <= InngestFunctions.MAX_RETRIES ->
      (forall j, j < k ->
         exists e, generateOutcome P industry
                     (gemini w (geminiCalls w + j) prompt) = Throw e) ->
      forall v,
        generateOutcome P industry (gemini w (geminiCalls w + k) prompt)
        = Return v ->
        let r := InngestFunctions.generateWithRetry P prompt industry w in
        fst r = Return v
        /\ trace (snd r) = (trace w ++ attemptEvents prompt 2000 k)%list
        /\ geminiCalls (snd r) = geminiCalls w + k + 1)
  /\ sleepsOf (attemptEvents prompt 1000 k)
     = map (fun i => (1000 * Z.of_nat i)%Z) (seq 1 k)
  /\ countGenerate (attemptEvents prompt 1000 k) = k + 1
  /\ last (attemptEvents prompt 1000 k) (EvSleep 0) = EvGenerate prompt.
Proof.
  split; [|split; [|split; [|split]]].
  - intros Hk Hfail t Hok. cbv zeta.
    unfold ResumeActions.callGeminiWithRetry.
    rewrite (execute_first_success_after _ 1000%Z ResumeActions.unavailableMessage
               prompt callGeminiOutcome (callGeminiAttempt_shape prompt)
               n k w t Hk Hfail Hok).
    cbn [fst snd]. split; [reflexivity|]. apply attemptsFrom_events.
  - intros Hk Hfail v Hok. cbv zeta.
    unfold InngestFunctions.generateWithRetry.
    rewrite (execute_first_success_after _ 2000%Z
               InngestFunctions.failedAfterMessage
               prompt (generateOutcome P industry)
               (generateAttempt_shape P prompt industry)
               InngestFunctions.MAX_RETRIES k w v Hk Hfail Hok).
    cbn [fst snd]. split; [reflexivity|]. apply attemptsFrom_events.
  - unfold attemptEvents. rewrite sleepsOf_app, rounds_sleeps. apply app_nil_r.
  - unfold attemptEvents. rewrite countGenerate_app, rounds_count, length_seq.
    reflexivity.
  - unfold attemptEvents. apply last_last.
Qed.

Lemma retry_returns_first_success_witness :
  fst (ResumeActions.callGeminiWithRetry "p" 2 (flakyWorld " Improved text "))
  = Return "Improved text"
  /\ trace (snd (ResumeActions.callGeminiWithRetry "p" 2
                   (flakyWorld " Improved text ")))
     = [EvGenerate "p"; EvSleep 1000; EvGenerate "p"]
  /\ geminiCalls (snd (ResumeActions.callGeminiWithRetry "p" 2
                         (flakyWorld " Improved text "))) = 2.
Proof.
  destruct (retry_returns_first_success Scenario.platform "p" "Tech" 2 1
              (flakyWorld " Improved text ")) as (H & _).
  apply (H ltac:(lia)).
  - intros j Hj. assert (j = 0) as -> by lia.
    exists (Error "503 Service Unavailable"). reflexivity.
  - reflexivity.
Defined.

(** X7. Whatever the provider does, [callGeminiWithRetry] makes at least
    one and at most [maxRetries + 1] provider calls, changes neither the
    session nor any collection, and a text it returns is never empty and
    has no white space at either end. *)
Theorem callGeminiWithRetry_cost_and_result (prompt : string) (n : nat)
        (w : World) :
  let r := ResumeActions.callGeminiWithRetry prompt n w in
  geminiCalls w + 1 <= geminiCalls (snd r) <= geminiCalls w + n + 1
  /\ sameStore w (snd r)
  /\ forall t, fst r = Return t -> t <> "" /\ trim t = t.
Proof. exact (callGeminiWithRetry_bounds prompt n w). Qed.

(** X8. Whatever the provider does, [generateWithRetry] makes at least
    one and at most three provider calls, changes neither the session nor
    any collection, and a report it returns has passed the job's
    validator: all seven fields present, at least 3 salary ranges, at
    least 5 top skills, demand level and market outlook among the allowed
    values. *)
Theorem generateWithRetry_cost_and_result (P : Platform)
        (prompt industry : string) (w : World) :
  let r := InngestFunctions.generateWithRetry P prompt industry w in
  geminiCalls w + 1 <= geminiCalls (snd r) <= geminiCalls w + 3
  /\ sameStore w (snd r)
  /\ forall v, fst r = Return v -> ValidatorSpec.insightsWellFormed v.
Proof. exact (generateWithRetry_bounds P prompt industry w). Qed.
End AttemptProofs.

Module FrameProofs.
Import JsString Js Runtime Store StoreOps Retry AttemptSpec AttemptProofs
       FrameSpec.
Local Open Scope string_scope.

Section Preorder.
Variable R : World -> World -> Prop.
Hypothesis HR : Preorder R.

Lemma keeps_reads {A} (g : World -> Outcome A) :
  keeps R (fun w => (g w, w)).
Proof. intros w. apply (pre_refl R HR). Qed.

Lemma keeps_ret {A} (a : A) : keeps R (ret a).
Proof. apply keeps_reads. Qed.

Lemma keeps_throw {A} e : keeps R (@throw A e).
Proof. apply keeps_reads. Qed.

Lemma keeps_lift {A} (o : Outcome A) : keeps R (lift o).
Proof. apply keeps_reads. Qed.

Lemma keeps_now : keeps R now.
Proof. apply keeps_reads. Qed.

Lemma keeps_auth : keeps R auth.
Proof. apply keeps_reads. Qed.

Lemma keeps_bind {A B} (c : M A) (k : A -> M B) :
  keeps R c -> (forall a, keeps R (k a)) -> keeps R (bind c k).
Proof.
  intros Hc Hk w. unfold bind. specialize (Hc w).
  destruct (c w) as [[a|e] w1]; cbn [snd] in *; [|exact Hc].
  eapply (pre_trans R HR); [exact Hc | apply Hk].
Qed.

Lemma keeps_tryCatch {A} (c : M A) (h : JsError -> M A) :
  keeps R c -> (forall e, keeps R (h e)) -> keeps R (tryCatch c h).
Proof.
  intros Hc Hh w. unfold tryCatch. specialize (Hc w).
  destruct (c w) as [[a|e] w1]; cbn [snd] in *; [exact Hc|].
  eapply (pre_trans R HR); [exact Hc | apply Hh].
Qed.

Lemma keeps_tryStore {A B} (c : Fallible A) (ok : A -> M B)
      (h : KnownRequestError -> M B) :
  (forall w, R w (snd (c w))) -> (forall a, keeps R (ok a)) ->
  (forall e, keeps R (h e)) -> keeps R (tryStore c ok h).
Proof.
  intros Hc Hok Hh w. unfold tryStore. specialize (Hc w).
  destruct (c w) as [[e|a] w1]; cbn [snd] in *;
    (eapply (pre_trans R HR); [exact Hc|]); [apply Hh | apply Hok].
Qed.

Lemma keeps_getAuthenticatedUser : keeps R ResumeActions.getAuthenticatedUser.
Proof.
  unfold ResumeActions.getAuthenticatedUser.
  apply keeps_bind; [apply keeps_auth|]. intros userId.
  destruct (falsy userId); [apply keeps_throw|].
  apply keeps_bind; [apply keeps_reads|]. intros [u|];
    [apply keeps_ret | apply keeps_throw].
Qed.

Lemma keeps_parseJson P text : keeps R (parseJson P text).
Proof.
  unfold parseJson. destruct (JSON_parse P text);
    [apply keeps_ret | apply keeps_throw].
Qed.

(** What holds across a provider call and across a suspension holds
    across the retry executor. *)
Hypothesis HS : CallSafe R.

Lemma keeps_generateContent prompt : keeps R (generateContent prompt).
Proof.
  intros w. unfold generateContent.
  destruct (gemini w (geminiCalls w) prompt); apply (safe_call R HS).
Qed.

Lemma keeps_sleep ms : keeps R (sleep ms).
Proof. intros w. apply (safe_sleep R HS). Qed.

Lemma keeps_retryLoop {A} (attemptFn : M A) baseDelay exhausted maxRetries :
  keeps R attemptFn ->
  forall remaining attempt last,
    keeps R (retryLoop attemptFn baseDelay exhausted maxRetries remaining
                       attempt last).
Proof.
  intros Ha. induction remaining as [|k IH]; intros attempt last.
  - cbn [retryLoop]. destruct last; apply keeps_throw.
  - cbn [retryLoop]. apply keeps_tryCatch; [exact Ha|]. intros e.
    apply keeps_bind; [|intros _; apply IH].
    destruct (Nat.ltb attempt maxRetries); [apply keeps_sleep | apply keeps_ret].
Qed.

Lemma keeps_callGeminiWithRetry prompt n :
  keeps R (ResumeActions.callGeminiWithRetry prompt n).
Proof.
  unfold ResumeActions.callGeminiWithRetry, execute.
  apply keeps_retryLoop. unfold ResumeActions.callGeminiAttempt.
  apply keeps_bind; [apply keeps_generateContent|]. intros raw.
  destruct (String.eqb (trim raw) ""); [apply keeps_throw | apply keeps_ret].
Qed.

Lemma keeps_generateWithRetry P prompt industry :
  keeps R (InngestFunctions.generateWithRetry P prompt industry).
Proof.
  unfold InngestFunctions.generateWithRetry, execute.
  apply keeps_retryLoop. unfold InngestFunctions.generateAttempt.
  apply keeps_bind; [apply keeps_generateContent|]. intros text.
  destruct (String.eqb text "" || Nat.eqb (String.length (trim text)) 0);
    [apply keeps_throw|].
  apply keeps_bind; [apply keeps_parseJson|]. intros parsed.
  apply keeps_bind; [apply keeps_lift|]. intros _. apply keeps_ret.
Qed.

Lemma keeps_generateAIInsights P industry :
  keeps R (Dashboard.generateAIInsights P industry).
Proof.
  unfold Dashboard.generateAIInsights.
  destruct (blank industry); [apply keeps_throw|].
  apply keeps_bind; [apply keeps_now|]. intros t.
  apply keeps_tryCatch.
  - apply keeps_bind; [apply keeps_generateContent|]. intros text.
    apply keeps_bind; [apply keeps_parseJson|]. intros parsed.
    apply keeps_bind; [apply keeps_lift|]. intros _. apply keeps_ret.
  - intros e. destruct (kind e); apply keeps_throw.
Qed.
End Preorder.

(** ** The relations used *)

Lemma same_preorder {X} (f : World -> X) : Preorder (same f).
Proof. split; unfold same; congruence. Qed.

Lemma sameStore_preorder : Preorder sameStore.
Proof. split; [apply sameStore_refl | apply sameStore_trans]. Qed.

Lemma sameStore_callSafe : CallSafe sameStore.
Proof. split; intros; repeat split. Qed.

(** Composition of the steps of an action over [R]; what is left are
    the store calls. *)
Ltac frame HR :=
  repeat first
    [ apply (keeps_ret _ HR)
    | apply (keeps_throw _ HR)
    | apply (keeps_lift _ HR)
    | apply (keeps_now _ HR)
    | apply (keeps_auth _ HR)
    | apply (keeps_getAuthenticatedUser _ HR)
    | apply (keeps_parseJson _ HR)
    | apply (keeps_bind _ HR); [|intros ?]
    | apply (keeps_tryCatch _ HR); [|intros ?]
    | match goal with
      | |- keeps _ (if ?b then _ else _) => destruct b
      | |- keeps _ (match ?x with _ => _ end) => destruct x
      end ].

(** A store call leaves the value of a projection it does not write. *)
Ltac untouched :=
  let w := fresh "w" in
  intros w; unfold same;
  cbv [coverLetterCount coverLetterCreate coverLetterUpdate assessmentCount
       assessmentCreate resumeFindMany resumeFindUnique resumeUpsert
       insightFindUnique insightCreate insightUpdateById
       insightUpdateByIndustry insightUpdateWhere insightUpsert
       insightDistinctIndustries userFindUnique userUpsert userFindIndustry
       coverLetterFindMany coverLetterFindUnique findResume findInsight];
  repeat match goal with
         | |- context [match ?x with _ => _ end] => destruct x
         end;
  reflexivity.
End FrameProofs.

Module ImproveProofs.
Import JsString Js Runtime Store StoreOps Retry RetrySpec RetryProofs
       CacheSpec QuotaSpec AttemptSpec AttemptProofs FenceProofs ImproveSpec.
Local Open Scope string_scope.

Ltac world_simpl :=
  cbn [afterCall emit advance countCall setUsers setInsights setCoverLetters
       bumpId clock session users insights coverLetters assessments resumes
       nextId gemini geminiCalls trace] in *.

(** ** Lower case *)

Lemma lowerChar_idempotent c : lowerChar (lowerChar c) = lowerChar c.
Proof.
  destruct c as [b0 b1 b2 b3 b4 b5 b6 b7].
  destruct b0, b1, b2, b3, b4, b5, b6, b7; vm_compute; reflexivity.
Qed.

Lemma toLowerCase_cons c s :
  toLowerCase (String c s) = String (lowerChar c) (toLowerCase s).
Proof. reflexivity. Qed.

Lemma toLowerCase_idempotent s : toLowerCase (toLowerCase s) = toLowerCase s.
Proof.
  induction s as [|c s IH]; [reflexivity|].
  rewrite !toLowerCase_cons, lowerChar_idempotent, IH. reflexivity.
Qed.

Lemma toLowerCase_empty s : String.eqb (toLowerCase s) "" = String.eqb s "".
Proof. destruct s; reflexivity. Qed.

(** The session lookup reads and changes nothing. *)
Lemma getAuthenticatedUser_reads w :
  snd (ResumeActions.getAuthenticatedUser w) = w.
Proof.
  unfold ResumeActions.getAuthenticatedUser, bind, auth, userFindUnique.
  destruct (falsy (session w)); [reflexivity|].
  destruct (find _ (users w)); reflexivity.
Qed.

Lemma getAuthenticatedUser_cases w :
  (exists u, ResumeActions.getAuthenticatedUser w = (Return u, w))
  \/ (exists e, ResumeActions.getAuthenticatedUser w = (Throw e, w)).
Proof.
  pose proof (getAuthenticatedUser_reads w) as H.
  destruct (ResumeActions.getAuthenticatedUser w) as [[u|e] w'];
    cbn [snd] in H; subst w'; [left | right]; eexists; reflexivity.
Qed.

(** X9. [improveWithAI] matches the content type without regard to
    case: a request with type [type] behaves in every world exactly as
    the request with the type in lower case (same outcome, same
    effects). *)
Theorem improveWithAI_type_ignores_case (P : Platform) (current type : string)
        (w : World) :
  ResumeActions.improveWithAI P (ResumeActions.mkImproveInput current type) w
  = ResumeActions.improveWithAI P
      (ResumeActions.mkImproveInput current (toLowerCase type)) w.
Proof.
  unfold ResumeActions.improveWithAI.
  cbn [ResumeActions.im_current ResumeActions.im_type].
  rewrite toLowerCase_empty, toLowerCase_idempotent. reflexivity.
Qed.

(** X10. An improvement is never recorded.  Whatever the input, the
    world and the provider, [improveWithAI] leaves the session and every
    collection as they were (in particular the resume rows its rate
    limiter counts), makes at most three provider calls, and a text it
    returns has at least 10 characters and no white space at either
    end. *)
Theorem improveWithAI_never_records (P : Platform)
        (input : ResumeActions.ImproveInput) (w : World) :
  let r := ResumeActions.improveWithAI P input w in
  sameStore w (snd r)
  /\ geminiCalls w <= geminiCalls (snd r) <= geminiCalls w + 3
  /\ (forall since userId,
        recentResumes userId since (resumes (snd r))
        = recentResumes userId since (resumes w))
  /\ (forall t, fst r = Return t -> 10 <= String.length t /\ trim t = t).
Proof.
  cbv zeta.
  assert (forall r : Outcome string * World,
             sameStore w (snd r) ->
             geminiCalls w <= geminiCalls (snd r) <= geminiCalls w + 3 ->
             (forall t, fst r = Return t -> 10 <= String.length t /\ trim t = t) ->
             sameStore w (snd r)
             /\ geminiCalls w <= geminiCalls (snd r) <= geminiCalls w + 3
             /\ (forall since userId,
                   recentResumes userId since (resumes (snd r))
                   = recentResumes userId since (resumes w))
             /\ (forall t, fst r = Return t ->
                           10 <= String.length t /\ trim t = t)) as Hpack.
  { intros r Hs Hc Hr. split; [exact Hs|]. split; [exact Hc|].
    split; [|exact Hr]. intros since userId.
    destruct Hs as (_ & _ & _ & _ & _ & -> & _). reflexivity. }
  assert (forall e, sameStore w (snd (@throw string e w))
                    /\ geminiCalls w <= geminiCalls (snd (@throw string e w))
                       <= geminiCalls w + 3
                    /\ (forall since userId,
                          recentResumes userId since
                                        (resumes (snd (@throw string e w)))
                          = recentResumes userId since (resumes w))
                    /\ (forall t, fst (@throw string e w) = Return t ->
                                  10 <= String.length t /\ trim t = t)) as Hthrow.
  { intros e. apply Hpack; cbn [throw fst snd];
      [apply sameStore_refl | lia | intros t Ht; discriminate Ht]. }
  remember (ResumeActions.improveWithAI P input w) as r eqn:E.
  unfold ResumeActions.improveWithAI in E.
  destruct (String.eqb (ResumeActions.im_current input) ""
            || String.eqb (trim (ResumeActions.im_current input)) "");
    [subst r; apply Hthrow|].
  destruct (Nat.ltb 5000 (String.length (ResumeActions.im_current input)));
    [subst r; apply Hthrow|].
  destruct (String.eqb (ResumeActions.im_type input) "");
    [subst r; apply Hthrow|].
  destruct (negb (existsb (String.eqb (toLowerCase (ResumeActions.im_type input)))
                          ResumeActions.validTypes)); [subst r; apply Hthrow|].
  unfold bind at 1 in E.
  destruct (getAuthenticatedUser_cases w) as [(u & Hu) | (e & Hu)];
    rewrite Hu in E; [|subst r; apply (Hthrow e)].
  destruct (falsy (user_industry u)); [subst r; apply Hthrow|].
  unfold bind at 1, now in E. unfold bind at 1, resumeFindMany in E.
  destruct (Nat.leb ResumeActions.HOURLY_AI_LIMIT _); [subst r; apply Hthrow|].
  unfold tryCatch, bind at 1 in E.
  set (prompt := getPromptForType P _ _ _) in E.
  pose proof (callGeminiWithRetry_bounds prompt 2 w) as Hb. cbv zeta in Hb.
  destruct Hb as (Hc & Hs & Hr).
  destruct (ResumeActions.callGeminiWithRetry prompt 2 w) as [[text|e] w'];
    cbn [fst snd] in *.
  - destruct (Nat.ltb (String.length text) 10) eqn:El; subst r.
    + apply Hpack; cbn [throw fst snd];
        [exact Hs | lia | intros t Ht; discriminate Ht].
    + apply Hpack; cbn [ret fst snd]; [exact Hs | lia |].
      intros t Ht. injection Ht as <-. apply Nat.ltb_ge in El.
      split; [exact El | apply (Hr text eq_refl)].
  - subst r. apply Hpack; cbn [throw fst snd];
      [exact Hs | lia | intros t Ht; discriminate Ht].
Qed.

(** X11. The hourly limit of [improveWithAI] counts the user's resume
    rows changed in the last hour, and [userId] is the unique key of
    that collection, so the count is at most one: as long as no two
    resume rows belong to one user, a valid request of a signed-in user
    with an industry is never refused by the limiter and always reaches
    the provider. *)
Theorem hourly_limit_is_out_of_reach (P : Platform) (w : World) (u : User)
        (input : ResumeActions.ImproveInput) :
  uniqueResumes w ->
  signedIn w u -> validImprove input -> falsy (user_industry u) = false ->
  List.length (recentResumes (user_id u) (clock w - 60 * 60 * 1000) (resumes w))
  <= 1
  /\ In (EvGenerate (getPromptForType P (toLowerCase (ResumeActions.im_type input))
                                      (ResumeActions.im_current input)
                                      (orElse (user_industry u) "")))
        (trace (snd (ResumeActions.improveWithAI P input w))).
Proof.
  intros Huniq Hu Hv Hind.
  assert (List.length (recentResumes (user_id u) (clock w - 60 * 60 * 1000)
                                     (resumes w)) <= 1) as Hle.
  { etransitivity; [apply QuotaProofs.recentResumes_le|].
    apply QuotaProofs.unique_find_only. exact Huniq. }
  split; [exact Hle|].
  apply (QuotaProofs.improve_checks P w u input Hu Hv Hind).
  unfold ResumeActions.HOURLY_AI_LIMIT. lia.
Qed.

Lemma hourly_limit_is_out_of_reach_witness :
  In (EvGenerate "Improve this summary")
     (trace (snd (ResumeActions.improveWithAI Scenario.platform
                    (ResumeActions.mkImproveInput "Engineer." "Summary")
                    (resumeWorld Scenario.unavailable)))).
Proof.
  apply (hourly_limit_is_out_of_reach Scenario.platform
           (resumeWorld Scenario.unavailable) Scenario.alice
           (ResumeActions.mkImproveInput "Engineer." "Summary")).
  - unfold uniqueResumes. cbn. repeat constructor. intros [].
  - exists "user_alice". repeat split. discriminate.
  - repeat split; reflexivity.
  - reflexivity.
Defined.
End ImproveProofs.

Module ResumeProofs.
Import JsString Js JsOps Runtime Store StoreOps Retry RetrySpec RetryProofs
       CacheSpec QuotaSpec AttemptSpec AttemptProofs FenceProofs ImproveSpec
       ImproveProofs ResumeStorage ResumeSpec.
Local Open Scope string_scope.

Ltac world_simpl :=
  cbn [afterCall emit advance countCall setUsers setInsights setCoverLetters
       setResumes setAssessments
       bumpId clock session users insights coverLetters assessments resumes
       nextId gemini geminiCalls trace] in *.

Lemma signedIn_user w u :
  signedIn w u -> getAuthenticatedUser w = (Return u, w).
Proof. apply QuotaProofs.plainUser_signedIn. Qed.

Lemma signedIn_frame w w' u :
  session w' = session w -> users w' = users w -> signedIn w u -> signedIn w' u.
Proof.
  intros Hs Hu (uid & H1 & H2 & H3). exists uid. rewrite Hs, Hu. auto.
Qed.

(** ** Lookups in the resume collection *)

Lemma findResume_replaced userId row l :
  resumeOf userId row = true ->
  findResume userId l <> None ->
  findResume userId (map (fun r => if resumeOf userId r then row else r) l)
  = Some row.
Proof.
  intros Hrow. unfold findResume.
  induction l as [|r l IH]; intros H; [contradiction H; reflexivity|].
  cbn [map find] in *. destruct (resumeOf userId r) eqn:E.
  - rewrite Hrow. reflexivity.
  - rewrite E. apply IH. exact H.
Qed.

Lemma findResume_added userId row l :
  resumeOf userId row = true ->
  findResume userId l = None ->
  findResume userId (l ++ [row]) = Some row.
Proof.
  intros Hrow. unfold findResume.
  induction l as [|r l IH]; intros H; cbn [app find] in *.
  - rewrite Hrow. reflexivity.
  - destruct (resumeOf userId r); [discriminate H | apply IH, H].
Qed.

Lemma findResume_other_replaced userId other row l :
  other <> userId -> rs_userId row = userId ->
  findResume other (map (fun r => if resumeOf userId r then row else r) l)
  = findResume other l.
Proof.
  intros Hne Hrow. unfold findResume, resumeOf.
  induction l as [|r l IH]; [reflexivity|].
  cbn [map find]. destruct (Nat.eqb (rs_userId r) userId) eqn:E.
  - apply Nat.eqb_eq in E. rewrite Hrow.
    assert (Nat.eqb userId other = false) as ->
        by (apply Nat.eqb_neq; congruence).
    assert (Nat.eqb (rs_userId r) other = false) as ->
        by (apply Nat.eqb_neq; congruence).
    exact IH.
  - destruct (Nat.eqb (rs_userId r) other); [reflexivity | exact IH].
Qed.

Lemma findResume_other_added userId other row l :
  other <> userId -> rs_userId row = userId ->
  findResume other (l ++ [row]) = findResume other l.
Proof.
  intros Hne Hrow. unfold findResume, resumeOf.
  induction l as [|r l IH]; cbn [app find].
  - rewrite Hrow.
    assert (Nat.eqb userId other = false) as ->
        by (apply Nat.eqb_neq; congruence).
    reflexivity.
  - destruct (Nat.eqb (rs_userId r) other); [reflexivity | exact IH].
Qed.

Lemma findResume_removed userId l :
  findResume userId (filter (fun r => negb (resumeOf userId r)) l) = None.
Proof.
  unfold findResume. induction l as [|r l IH]; [reflexivity|].
  cbn [filter]. destruct (resumeOf userId r) eqn:E; cbn [negb]; [exact IH|].
  cbn [find]. rewrite E. exact IH.
Qed.

Lemma findResume_other_removed userId other l :
  other <> userId ->
  findResume other (filter (fun r => negb (resumeOf userId r)) l)
  = findResume other l.
Proof.
  intros Hne. unfold findResume, resumeOf.
  induction l as [|r l IH]; [reflexivity|].
  cbn [filter find]. destruct (Nat.eqb (rs_userId r) userId) eqn:E; cbn [negb].
  - apply Nat.eqb_eq in E.
    assert (Nat.eqb (rs_userId r) other = false) as ->
        by (apply Nat.eqb_neq; congruence).
    exact IH.
  - cbn [find]. destruct (Nat.eqb (rs_userId r) other); [reflexivity | exact IH].
Qed.

Lemma findResume_owner userId l r :
  findResume userId l = Some r -> rs_userId r = userId /\ In r l.
Proof.
  unfold findResume. intros H. apply find_some in H as [Hin H].
  unfold resumeOf in H. apply Nat.eqb_eq in H. split; assumption.
Qed.

Lemma unique_replaced userId content t l :
  NoDup (map rs_userId l) ->
  NoDup (map rs_userId
             (map (fun r => if resumeOf userId r
                            then mkResume userId content t else r) l)).
Proof.
  intros H.
  assert (map rs_userId
              (map (fun r => if resumeOf userId r
                             then mkResume userId content t else r) l)
          = map rs_userId l) as ->; [|exact H].
  rewrite map_map. apply map_ext. intros r. unfold resumeOf.
  destruct (Nat.eqb (rs_userId r) userId) eqn:E; [|reflexivity].
  apply Nat.eqb_eq in E. symmetry. exact E.
Qed.

Lemma unique_added userId content t l :
  findResume userId l = None ->
  NoDup (map rs_userId l) ->
  NoDup (map rs_userId (l ++ [mkResume userId content t])).
Proof.
  intros Hnone H. rewrite map_app. cbn [map rs_userId].
  apply NoDup_app; [exact H | repeat constructor; intros [] |].
  intros x Hx [<-|[]]. apply in_map_iff in Hx as (r & Hr & Hin).
  unfold findResume in Hnone.
  apply (find_none _ _ Hnone) in Hin. unfold resumeOf in Hin.
  apply Nat.eqb_neq in Hin. contradiction.
Qed.

Lemma unique_removed userId l :
  NoDup (map rs_userId l) ->
  NoDup (map rs_userId (filter (fun r => negb (resumeOf userId r)) l)).
Proof.
  induction l as [|r l IH]; intros H; [constructor|].
  cbn [map] in H. inversion H as [|? ? Hnot Hrest]; subst.
  cbn [filter]. destruct (negb (resumeOf userId r)); [|apply IH, Hrest].
  cbn [map]. constructor; [|apply IH, Hrest].
  intros Hin. apply Hnot. apply in_map_iff in Hin as (x & Hx & Hin).
  apply filter_In in Hin as [Hin _]. rewrite <- Hx. apply in_map. exact Hin.
Qed.

(** X12. A resume that is saved is read back.  For a signed-in user and a
    text with 1 to 50000 characters once trimmed, [saveResume] returns
    the user's row holding the trimmed text, dated now; [getResume] then
    returns that row; the rows of other users are as before; and the
    collection still has at most one row per user. *)
Theorem saved_resume_is_read_back (w : World) (u : User) (text : string) :
  signedIn w u ->
  trim text <> "" ->
  (Z.of_nat (String.length (trim text)) <= 50000)%Z ->
  exists w',
    saveResume (Some (JStr text)) w
    = (Return (mkResume (user_id u) (trim text) (clock w)), w')
    /\ getResume w'
       = (Return (Some (mkResume (user_id u) (trim text) (clock w))), w')
    /\ (forall other, other <> user_id u ->
          findResume other (resumes w') = findResume other (resumes w))
    /\ (uniqueResumes w -> uniqueResumes w').
Proof.
  intros Hu Hne Hlen.
  assert (text <> "") as Htext by (intros ->; apply Hne; reflexivity).
  unfold saveResume.
  apply String.eqb_neq in Htext. rewrite Htext.
  assert (Nat.eqb (String.length (trim text)) 0 = false) as ->.
  { apply Nat.eqb_neq. destruct (trim text); [contradiction Hne; reflexivity|].
    discriminate. }
  assert (Z.ltb MAX_RESUME_LENGTH (Z.of_nat (String.length (trim text))) = false)
    as -> by (apply Z.ltb_ge; unfold MAX_RESUME_LENGTH; lia).
  unfold bind at 1. rewrite (signedIn_user w u Hu).
  unfold tryCatch, bind at 1, now, resumeUpsert.
  destruct (findResume (user_id u) (resumes w)) as [old|] eqn:Ef.
  - destruct (findResume_owner _ _ _ Ef) as [Hold _]. rewrite Hold.
    eexists. split; [reflexivity|].
    split; [|split].
    + unfold getResume, bind.
      rewrite (signedIn_user _ u) by (eapply signedIn_frame; [| |exact Hu]; reflexivity).
      unfold resumeFindUnique. world_simpl.
      rewrite findResume_replaced; [reflexivity | apply Nat.eqb_refl |].
      rewrite Ef. discriminate.
    + intros other Hother. world_simpl.
      apply findResume_other_replaced; [exact Hother | reflexivity].
    + unfold uniqueResumes. world_simpl. intros Hq. exact (unique_replaced _ _ _ _ Hq).
  - eexists. split; [reflexivity|].
    split; [|split].
    + unfold getResume, bind.
      rewrite (signedIn_user _ u) by (eapply signedIn_frame; [| |exact Hu]; reflexivity).
      unfold resumeFindUnique. world_simpl.
      rewrite findResume_added; [reflexivity | apply Nat.eqb_refl | exact Ef].
    + intros other Hother. world_simpl.
      apply (findResume_other_added (user_id u)); [exact Hother | reflexivity].
    + unfold uniqueResumes. world_simpl. intros Hq. exact (unique_added _ _ _ _ Ef Hq).
Qed.

Lemma saved_resume_is_read_back_witness :
  exists w',
    saveResume (Some (JStr "  Engineer, five years.  ")) noResumeWorld
    = (Return (mkResume 1 "Engineer, five years." (8 * Scenario.day)), w')
    /\ getResume w'
       = (Return (Some (mkResume 1 "Engineer, five years." (8 * Scenario.day))),
          w').
Proof.
  destruct (saved_resume_is_read_back noResumeWorld Scenario.alice
              "  Engineer, five years.  ") as (w' & H1 & H2 & _).
  - exists "user_alice". repeat split. discriminate.
  - discriminate.
  - vm_compute. discriminate.
  - exists w'. split; [exact H1 | exact H2].
Defined.

(** X13. [saveResume] stores nothing but valid content, and a save that
    fails changes nothing.  Whatever the argument and the world: when it
    returns a row, the argument was a string, the row holds its trimmed
    text, of 1 to 50000 characters, and is the row found for its user
    afterwards; when it throws, the world is as before. *)
Theorem saveResume_stores_only_valid_content (content : option json) (w : World) :
  match saveResume content w with
  | (Return row, w') =>
      exists text, content = Some (JStr text)
        /\ rs_content row = trim text
        /\ 1 <= String.length (rs_content row)
        /\ (Z.of_nat (String.length (rs_content row)) <= 50000)%Z
        /\ findResume (rs_userId row) (resumes w') = Some row
  | (Throw _, w') => w' = w
  end.
Proof.
  unfold saveResume.
  destruct content as [[| | |text| |]|]; try reflexivity.
  destruct (String.eqb text ""); [reflexivity|].
  destruct (Nat.eqb (String.length (trim text)) 0) eqn:E0; [reflexivity|].
  destruct (Z.ltb MAX_RESUME_LENGTH (Z.of_nat (String.length (trim text))))
    eqn:Emax; [reflexivity|].
  unfold bind at 1.
  destruct (getAuthenticatedUser_cases w) as [(u & Hu) | (e & Hu)];
    unfold getAuthenticatedUser; rewrite Hu; [|reflexivity].
  unfold tryCatch, bind at 1, now, resumeUpsert.
  apply Nat.eqb_neq in E0. apply Z.ltb_ge in Emax. unfold MAX_RESUME_LENGTH in Emax.
  destruct (findResume (user_id u) (resumes w)) as [old|] eqn:Ef.
  - destruct (findResume_owner _ _ _ Ef) as [Hold _]. rewrite Hold.
    exists text. cbn [rs_content rs_userId]. world_simpl.
    split; [reflexivity|]. split; [reflexivity|]. split; [lia|].
    split; [exact Emax|].
    apply findResume_replaced; [apply Nat.eqb_refl|]. rewrite Ef. discriminate.
  - exists text. cbn [rs_content rs_userId]. world_simpl.
    split; [reflexivity|]. split; [reflexivity|]. split; [lia|].
    split; [exact Emax|].
    apply findResume_added; [apply Nat.eqb_refl | exact Ef].
Qed.

(** X14. [deleteResume] succeeds whether or not a resume exists.  For a
    signed-in user it returns [success: true], with the note that the
    resume was already deleted exactly when the user had none;
    afterwards [getResume] returns nothing and a second deletion succeeds
    with that note and changes nothing further; the rows of other users
    are as before, and no two rows belong to one user if none did. *)
Theorem deleteResume_succeeds_either_way (w : World) (u : User) :
  signedIn w u ->
  exists st w',
    deleteResume w = (Return st, w')
    /\ success st = true
    /\ (ds_message st = Some "Resume already deleted"
        <-> findResume (user_id u) (resumes w) = None)
    /\ getResume w' = (Return None, w')
    /\ deleteResume w'
       = (Return (mkDeleteStatus true (Some "Resume already deleted")), w')
    /\ (forall other, other <> user_id u ->
          findResume other (resumes w') = findResume other (resumes w))
    /\ (uniqueResumes w -> uniqueResumes w').
Proof.
  intros Hu.
  assert (forall w', session w' = session w -> users w' = users w ->
                     findResume (user_id u) (resumes w') = None ->
                     getResume w' = (Return None, w')
                     /\ deleteResume w'
                        = (Return (mkDeleteStatus true
                                     (Some "Resume already deleted")), w'))
    as Hafter.
  { intros w' Hs Hus Hnone.
    assert (signedIn w' u) as Hu' by (eapply signedIn_frame; eassumption).
    unfold getResume, deleteResume, bind, tryStore, resumeDelete, resumeFindUnique.
    rewrite (signedIn_user w' u Hu'), Hnone. split; reflexivity. }
  unfold deleteResume at 1, bind, tryStore, resumeDelete.
  rewrite (signedIn_user w u Hu).
  destruct (findResume (user_id u) (resumes w)) as [old|] eqn:Ef.
  - eexists. eexists. split; [reflexivity|]. split; [reflexivity|].
    split; [split; discriminate|].
    destruct (Hafter (setResumes
                        (filter (fun r => negb (resumeOf (user_id u) r))
                                (resumes w)) w)) as [Hg Hd];
      [reflexivity | reflexivity | apply findResume_removed |].
    split; [exact Hg|]. split; [exact Hd|]. split.
    + intros other Hother. world_simpl.
      apply findResume_other_removed. exact Hother.
    + unfold uniqueResumes. world_simpl. intros Hq. exact (unique_removed _ _ Hq).
  - eexists. eexists. split; [reflexivity|]. split; [reflexivity|].
    split; [split; reflexivity|].
    destruct (Hafter w) as [Hg Hd]; [reflexivity | reflexivity | exact Ef |].
    split; [exact Hg|]. split; [exact Hd|]. split; [reflexivity | tauto].
Qed.

Lemma deleteResume_succeeds_either_way_witness :
  exists st w',
    deleteResume (resumeWorld Scenario.unavailable) = (Return st, w')
    /\ success st = true
    /\ getResume w' = (Return None, w').
Proof.
  destruct (deleteResume_succeeds_either_way (resumeWorld Scenario.unavailable)
              Scenario.alice) as (st & w' & H1 & H2 & _ & H3 & _).
  - exists "user_alice". repeat split. discriminate.
  - exists st, w'. repeat split; assumption.
Defined.

(** ** [analyzeResume] *)

Lemma analysis_check (a : json) :
  a <> JNull ->
  (negb (isNumber (getProp a "score"))
   || negb (isArray (getProp a "strengths"))
   || negb (isArray (getProp a "improvements")) = false
   <-> analysisWellFormed a).
Proof.
  intros _. unfold analysisWellFormed, isNumber, isArray, asArray.
  rewrite !orb_false_iff, !negb_false_iff. split.
  - intros ((H1 & H2) & H3).
    destruct (getProp a "score") as [[]|]; try discriminate H1.
    destruct (getProp a "strengths") as [[]|]; try discriminate H2.
    destruct (getProp a "improvements") as [[]|]; try discriminate H3.
    repeat split; eexists; reflexivity.
  - intros ((x & ->) & (l1 & ->) & (l2 & ->)). repeat split.
Qed.

Lemma readProp_not_null a name :
  a <> JNull -> readProp a name = Return (getProp a name).
Proof. destruct a; try reflexivity. intros H. contradiction H. reflexivity. Qed.

Section Analyze.
Variable P : Platform.
Variable analysisPrompt : string -> string -> bool -> string.

(** Up to the provider call: the checks that precede it pass. *)
Lemma analyzeResume_ready w u r :
  signedIn w u -> falsy (user_industry u) = false ->
  findResume (user_id u) (resumes w) = Some r ->
  trim (rs_content r) <> "" ->
  analyzeResume P analysisPrompt w
  = tryCatch
      (bind (ResumeActions.callGeminiWithRetry
               (analysisPromptFor analysisPrompt u (rs_content r)) 2)
            (fun text =>
               bind (parseJson P (cleanTextPlain text)) (fun analysis =>
               bind (lift (readProp analysis "score")) (fun score =>
               if negb (isNumber score)
                  || negb (isArray (getProp analysis "strengths"))
                  || negb (isArray (getProp analysis "improvements"))
               then throw (Error "Invalid analysis format from AI")
               else ret analysis))))
      (fun error =>
         match kind error with
         | KSyntaxError => throw (Error "Failed to parse AI analysis response")
         | _ => throw (Error ("Failed to analyze resume: " ++ message error))
         end) w.
Proof.
  intros Hu Hind Hr Hne.
  unfold analyzeResume, bind at 1. rewrite (signedIn_user w u Hu), Hind.
  unfold bind at 1, resumeFindUnique. rewrite Hr.
  assert (String.eqb (rs_content r) "" = false) as ->.
  { apply String.eqb_neq. intros E. apply Hne. rewrite E. reflexivity. }
  assert (Nat.eqb (String.length (trim (rs_content r))) 0 = false) as ->.
  { apply Nat.eqb_neq. destruct (trim (rs_content r));
      [contradiction Hne; reflexivity | discriminate]. }
  reflexivity.
Qed.

(** X15. [analyzeResume] retries the provider but not a malformed
    answer.  For a signed-in user with an industry and a resume that
    is not blank: when the first answer is a usable text that does not
    parse, the action fails after that single call with the parse
    message; when it parses to a value other than [null] that is not
    a well-formed analysis, it fails after that single call with the
    wrapped format message; when it parses to [null], it fails after
    that single call with the wrapped message of the [TypeError] that
    reading [score] of [null] throws; a well-formed analysis is
    returned after that single call; when every attempt fails it
    gives up after exactly three calls, wrapping the last error. *)
Theorem analyzeResume_retries_transport_only (w : World) (u : User)
        (r : Resume) :
  signedIn w u -> falsy (user_industry u) = false ->
  findResume (user_id u) (resumes w) = Some r ->
  trim (rs_content r) <> "" ->
  let prompt := analysisPromptFor analysisPrompt u (rs_content r) in
  (forall t m,
      callGeminiOutcome (gemini w (geminiCalls w) prompt) = Return t ->
      JSON_parse P (cleanTextPlain t) = Unparsable m ->
      analyzeResume P analysisPrompt w
      = (Throw (Error "Failed to parse AI analysis response"),
         afterCall prompt w))
  /\ (forall t a,
         callGeminiOutcome (gemini w (geminiCalls w) prompt) = Return t ->
         JSON_parse P (cleanTextPlain t) = Parsed a ->
         a <> JNull -> ~ analysisWellFormed a ->
         analyzeResume P analysisPrompt w
         = (Throw (Error "Failed to analyze resume: Invalid analysis format from AI"),
            afterCall prompt w))
  /\ (forall t,
         callGeminiOutcome (gemini w (geminiCalls w) prompt) = Return t ->
         JSON_parse P (cleanTextPlain t) = Parsed JNull ->
         exists m,
           readProp JNull "score" = Throw (TypeError m)
           /\ analyzeResume P analysisPrompt w
              = (Throw (Error ("Failed to analyze resume: " ++ m)),
                 afterCall prompt w))
  /\ (forall t a,
         callGeminiOutcome (gemini w (geminiCalls w) prompt) = Return t ->
         JSON_parse P (cleanTextPlain t) = Parsed a ->
         analysisWellFormed a ->
         analyzeResume P analysisPrompt w = (Return a, afterCall prompt w))
  /\ (forall e,
         (forall k, exists e', callGeminiOutcome (gemini w k prompt) = Throw e') ->
         callGeminiOutcome (gemini w (geminiCalls w + 2) prompt) = Throw e ->
         fst (analyzeResume P analysisPrompt w)
         = Throw (Error ("Failed to analyze resume: AI service unavailable after 3 attempts: "
                           ++ message e))
         /\ geminiCalls (snd (analyzeResume P analysisPrompt w))
            = geminiCalls w + 3).
Proof.
  intros Hu Hind Hr Hne prompt.
  pose proof (analyzeResume_ready w u r Hu Hind Hr Hne) as Hready.
  fold prompt in Hready.
  assert (forall t,
             callGeminiOutcome (gemini w (geminiCalls w) prompt) = Return t ->
             ResumeActions.callGeminiWithRetry prompt 2 w
             = (Return t, afterCall prompt w)) as Hfirst.
  { intros t Ht. unfold ResumeActions.callGeminiWithRetry.
    apply (execute_first_success _ 1000%Z ResumeActions.unavailableMessage
             prompt callGeminiOutcome (callGeminiAttempt_shape prompt)).
    exact Ht. }
  split; [|split; [|split; [|split]]].
  - intros t m Ht Hp. rewrite Hready.
    unfold tryCatch, bind at 1. rewrite (Hfirst t Ht).
    unfold bind at 1, parseJson. rewrite Hp. reflexivity.
  - intros t a Ht Hp Hnull Hbad. rewrite Hready.
    unfold tryCatch, bind at 1. rewrite (Hfirst t Ht).
    unfold bind at 1, parseJson. rewrite Hp. unfold ret at 1.
    unfold bind at 1, lift. rewrite (readProp_not_null a "score" Hnull).
    destruct (negb (isNumber (getProp a "score"))
              || negb (isArray (getProp a "strengths"))
              || negb (isArray (getProp a "improvements"))) eqn:E.
    + reflexivity.
    + exfalso. apply Hbad. apply analysis_check; assumption.
  - intros t Ht Hp. eexists. split; [reflexivity|]. rewrite Hready.
    unfold tryCatch, bind at 1. rewrite (Hfirst t Ht).
    unfold bind at 1, parseJson. rewrite Hp. reflexivity.
  - intros t a Ht Hp Hwf. rewrite Hready.
    assert (a <> JNull) as Hnull.
    { intros ->. destruct Hwf as ((x & Hx) & _). discriminate Hx. }
    unfold tryCatch, bind at 1. rewrite (Hfirst t Ht).
    unfold bind at 1, parseJson. rewrite Hp. unfold ret at 1.
    unfold bind at 1, lift. rewrite (readProp_not_null a "score" Hnull).
    apply (analysis_check a Hnull) in Hwf. rewrite Hwf. reflexivity.
  - intros e Hdown He.
    assert (analyzeResume P analysisPrompt w
            = (Throw (Error ("Failed to analyze resume: AI service unavailable after 3 attempts: "
                               ++ message e)),
               exhaustedWorld prompt 1000 2 w)) as ->.
    { rewrite Hready.
      unfold tryCatch, bind at 1, ResumeActions.callGeminiWithRetry.
      rewrite (execute_exhausts _ 1000%Z ResumeActions.unavailableMessage
                 prompt callGeminiOutcome (callGeminiAttempt_shape prompt)
                 2 w e Hdown He).
      reflexivity. }
    unfold exhaustedWorld. cbn [fst snd geminiCalls].
    split; [reflexivity | lia].
Qed.

(** X16. Whatever the world and the provider, [analyzeResume] changes
    neither the session nor any collection and makes at most three
    provider calls; an analysis it returns has a numeric [score] and
    arrays for [strengths] and [improvements], and was obtained with at
    least one provider call. *)
Theorem analyzeResume_returns_checked_analysis (w : World) :
  let r := analyzeResume P analysisPrompt w in
  sameStore w (snd r)
  /\ geminiCalls w <= geminiCalls (snd r) <= geminiCalls w + 3
  /\ (forall a, fst r = Return a ->
                analysisWellFormed a
                /\ geminiCalls w + 1 <= geminiCalls (snd r)).
Proof.
  cbv zeta.
  assert (forall e, sameStore w (snd (@throw json e w))
             /\ geminiCalls w <= geminiCalls (snd (@throw json e w))
                <= geminiCalls w + 3
             /\ (forall a, fst (@throw json e w) = Return a ->
                           analysisWellFormed a
                           /\ geminiCalls w + 1
                              <= geminiCalls (snd (@throw json e w))))
    as Hthrow.
  { intros e. cbn [throw fst snd]. split; [apply sameStore_refl|].
    split; [lia|]. intros a Ha. discriminate Ha. }
  remember (analyzeResume P analysisPrompt w) as res eqn:E.
  unfold analyzeResume, bind at 1 in E.
  destruct (getAuthenticatedUser_cases w) as [(u & Hu) | (e & Hu)];
    unfold getAuthenticatedUser in E; rewrite Hu in E;
    [|subst res; apply (Hthrow e)].
  destruct (falsy (user_industry u)); [subst res; apply Hthrow|].
  unfold bind at 1, resumeFindUnique in E.
  destruct (findResume (user_id u) (resumes w)) as [r|];
    [|subst res; apply Hthrow].
  destruct (String.eqb (rs_content r) ""
            || Nat.eqb (String.length (trim (rs_content r))) 0);
    [subst res; apply Hthrow|].
  set (prompt := analysisPrompt _ _ _) in E.
  unfold tryCatch, bind at 1 in E.
  pose proof (callGeminiWithRetry_bounds prompt 2 w) as Hb. cbv zeta in Hb.
  destruct Hb as (Hc & Hs & _).
  destruct (ResumeActions.callGeminiWithRetry prompt 2 w) as [[text|e] w'];
    cbn [fst snd] in *.
  - unfold bind at 1, parseJson in E.
    destruct (JSON_parse P (cleanTextPlain text)) as [a|m].
    + unfold ret at 1, bind at 1, lift in E.
      destruct (readProp a "score") as [score|e] eqn:Es.
      * assert (a <> JNull) as Hnull by (intros ->; discriminate Es).
        rewrite (readProp_not_null a "score" Hnull) in Es.
        injection Es as <-.
        destruct (negb (isNumber (getProp a "score"))
                  || negb (isArray (getProp a "strengths"))
                  || negb (isArray (getProp a "improvements"))) eqn:Ec;
          subst res; cbn [kind Error throw ret fst snd].
        -- split; [exact Hs|]. split; [lia|]. intros x Hx. discriminate Hx.
        -- split; [exact Hs|]. split; [lia|]. intros x Hx.
           injection Hx as <-. split; [|lia].
           apply analysis_check; assumption.
      * subst res. destruct (kind e); cbn [throw fst snd];
          (split; [exact Hs|]); (split; [lia|]); intros x Hx; discriminate Hx.
    + subst res. cbn [throw kind SyntaxError fst snd].
      split; [exact Hs|]. split; [lia|]. intros x Hx. discriminate Hx.
  - subst res. destruct (kind e); cbn [throw fst snd];
      (split; [exact Hs|]); (split; [lia|]); intros x Hx; discriminate Hx.
Qed.
End Analyze.

Lemma analyzeResume_retries_transport_only_witness :
  fst (analyzeResume Scenario.platform shortPrompt
                     (resumeWorld Scenario.unavailable))
  = Throw (Error "Failed to analyze resume: AI service unavailable after 3 attempts: 503 Service Unavailable")
  /\ geminiCalls (snd (analyzeResume Scenario.platform shortPrompt
                                     (resumeWorld Scenario.unavailable))) = 3.
Proof.
  destruct (analyzeResume_retries_transport_only Scenario.platform shortPrompt
              (resumeWorld Scenario.unavailable) Scenario.alice
              (mkResume 1 "Engineer with five years of experience."
                        (8 * Scenario.day + 12 * Scenario.hour - 60000)))
    as (_ & _ & _ & _ & H).
  - exists "user_alice". repeat split. discriminate.
  - reflexivity.
  - reflexivity.
  - discriminate.
  - apply (H (Error "503 Service Unavailable")).
    + intros k. exists (Error "503 Service Unavailable"). reflexivity.
    + reflexivity.
Defined.
End ResumeProofs.

Module LetterProofs.
Import JsString Js Runtime Store StoreOps Retry RetrySpec RetryProofs
       CacheSpec QuotaSpec AttemptSpec AttemptProofs FrameSpec FrameProofs
       ImproveProofs ResumeProofs CoverLetterQueries LetterSpec.
Local Open Scope string_scope.

Ltac world_simpl :=
  cbn [afterCall emit advance countCall setUsers setInsights setCoverLetters
       setResumes setAssessments
       bumpId clock session users insights coverLetters assessments resumes
       nextId gemini geminiCalls trace] in *.

(** ** Ordering *)

Section Order.
Context {A : Type}.
Variable key : A -> Z.

Lemma insertDesc_perm x l : Permutation (x :: l) (insertDesc key x l).
Proof.
  induction l as [|y r IH]; [apply Permutation_refl|].
  cbn [insertDesc]. destruct (Z.leb (key y) (key x)); [apply Permutation_refl|].
  eapply Permutation_trans; [apply perm_swap|].
  apply perm_skip. exact IH.
Qed.

Lemma orderByDesc_perm l : Permutation l (orderByDesc key l).
Proof.
  induction l as [|x l IH]; [apply Permutation_refl|].
  cbn [orderByDesc fold_right].
  eapply Permutation_trans; [|apply insertDesc_perm].
  apply perm_skip. exact IH.
Qed.

Lemma insertDesc_sorted x l :
  StronglySorted (fun a b => (key b <= key a)%Z) l ->
  StronglySorted (fun a b => (key b <= key a)%Z) (insertDesc key x l).
Proof.
  induction 1 as [|y r Hr IH Hy]; [repeat constructor|].
  cbn [insertDesc]. destruct (Z.leb (key y) (key x)) eqn:E.
  - apply Z.leb_le in E. constructor; [constructor; assumption|].
    constructor; [exact E|].
    eapply Forall_impl; [|exact Hy]. cbv beta. intros a Ha. lia.
  - apply Z.leb_gt in E. constructor; [exact IH|].
    apply (Permutation_Forall (insertDesc_perm x r)).
    constructor; [lia | exact Hy].
Qed.

Lemma orderByDesc_sorted l :
  StronglySorted (fun a b => (key b <= key a)%Z) (orderByDesc key l).
Proof.
  induction l as [|x l IH]; [constructor|].
  cbn [orderByDesc fold_right]. apply insertDesc_sorted. exact IH.
Qed.
End Order.

Lemma letterKey_owner id userId c :
  letterKey id userId c = true <-> cl_id c = id /\ cl_userId c = userId.
Proof.
  unfold letterKey. rewrite andb_true_iff, !Nat.eqb_eq. tauto.
Qed.

Lemma signedIn_reads w u :
  signedIn w u -> ResumeActions.getAuthenticatedUser w = (Return u, w).
Proof. apply QuotaProofs.plainUser_signedIn. Qed.

Lemma coverLetters_listed (w : World) (u : User) :
  signedIn w u ->
  exists l,
    getCoverLetters w = (Return l, w)
    /\ Permutation (filter (ownedBy (user_id u)) (coverLetters w)) l
    /\ newestFirst l
    /\ (forall c, In c l <-> In c (coverLetters w) /\ cl_userId c = user_id u).
Proof.
  intros Hu. eexists. split.
  - unfold getCoverLetters, getAuthenticatedUser, bind.
    rewrite (signedIn_reads w u Hu). reflexivity.
  - split; [apply orderByDesc_perm|]. split; [apply orderByDesc_sorted|].
    intros c. split.
    + intros Hin.
      apply (Permutation_in _ (Permutation_sym (orderByDesc_perm cl_createdAt _)))
        in Hin.
      apply filter_In in Hin as [Hin Ho]. unfold ownedBy in Ho.
      apply Nat.eqb_eq in Ho. split; assumption.
    + intros [Hin Ho].
      apply (Permutation_in _ (orderByDesc_perm cl_createdAt _)).
      apply filter_In. split; [exact Hin|]. unfold ownedBy.
      apply Nat.eqb_eq. exact Ho.
Qed.

(** X17. [getCoverLetters] returns, for the signed-in user, exactly the
    letters of the collection that belong to that user (each as often as
    it is stored, none of another user), the newest first, and changes
    nothing. *)
Theorem getCoverLetters_own_letters_newest_first (w : World) (u : User) :
  signedIn w u ->
  exists l,
    getCoverLetters w = (Return l, w)
    /\ Permutation (filter (ownedBy (user_id u)) (coverLetters w)) l
    /\ newestFirst l
    /\ (forall c, In c l <-> In c (coverLetters w) /\ cl_userId c = user_id u).
Proof. apply coverLetters_listed. Qed.

Lemma getCoverLetters_own_letters_newest_first_witness :
  getCoverLetters sharedWorld
  = (Return [letterOf 102 1 (8 * Scenario.day + Scenario.hour);
             letterOf 100 1 (8 * Scenario.day)], sharedWorld).
Proof.
  destruct (getCoverLetters_own_letters_newest_first sharedWorld Scenario.alice)
    as (l & H & _).
  - exists "user_alice". repeat split. discriminate.
  - rewrite H. vm_compute in H. injection H as <-. reflexivity.
Defined.

(** X18. [getCoverLetter] finds exactly what [getCoverLetters] lists: for
    the signed-in user it returns a letter with the given id that is in
    that list, and when the list has no letter with the id (the id is
    unknown, or the letter belongs to someone else) it throws
    [Cover letter not found]; either way the world is unchanged. *)
Theorem getCoverLetter_agrees_with_list (w : World) (u : User) (id : nat) :
  signedIn w u ->
  exists l,
    getCoverLetters w = (Return l, w)
    /\ ((exists c, getCoverLetter (Some id) w = (Return c, w)
                   /\ In c l /\ cl_id c = id /\ cl_userId c = user_id u)
        \/ (getCoverLetter (Some id) w
            = (Throw (Error "Cover letter not found"), w)
            /\ forall c, In c l -> cl_id c <> id)).
Proof.
  intros Hu.
  destruct (coverLetters_listed w u Hu) as (l & Hl & _ & _ & Hin).
  exists l. split; [exact Hl|].
  unfold getCoverLetter, getAuthenticatedUser, bind.
  rewrite (signedIn_reads w u Hu). unfold coverLetterFindUnique.
  destruct (find (letterKey id (user_id u)) (coverLetters w)) as [c|] eqn:Ef.
  - left. exists c. split; [reflexivity|].
    apply find_some in Ef as [Hc Hk]. apply letterKey_owner in Hk as [Hid Ho].
    split; [apply Hin; split; assumption|]. split; assumption.
  - right. split; [reflexivity|].
    intros c Hc Hid. apply Hin in Hc as [Hc Ho].
    apply (find_none _ _ Ef) in Hc.
    assert (letterKey id (user_id u) c = true) as Hk
        by (apply letterKey_owner; split; assumption).
    congruence.
Qed.

Lemma getCoverLetter_agrees_with_list_witness :
  getCoverLetter (Some 101) sharedWorld
  = (Throw (Error "Cover letter not found"), sharedWorld)
  /\ getCoverLetter (Some 102) sharedWorld
     = (Return (letterOf 102 1 (8 * Scenario.day + Scenario.hour)), sharedWorld).
Proof.
  assert (signedIn sharedWorld Scenario.alice) as Hu
      by (exists "user_alice"; repeat split; discriminate).
  split.
  - destruct (getCoverLetter_agrees_with_list sharedWorld Scenario.alice 101 Hu)
      as (l & _ & [(c & H & _) | (H & _)]).
    + vm_compute in H. discriminate H.
    + exact H.
  - destruct (getCoverLetter_agrees_with_list sharedWorld Scenario.alice 102 Hu)
      as (l & _ & [(c & H & _) | (H & _)]).
    + rewrite H. vm_compute in H. injection H as <-. reflexivity.
    + vm_compute in H. discriminate H.
Defined.

(** ** Generation and reading back *)

Lemma find_fresh_key n userId l row :
  Forall (fun c => cl_id c < n) l -> cl_id row = n -> cl_userId row = userId ->
  find (letterKey n userId) (l ++ [row]) = Some row.
Proof.
  intros Hl Hrow Hown. unfold letterKey.
  induction Hl as [|c l Hc Hl IH]; cbn [app find].
  - rewrite Hrow, Hown, !Nat.eqb_refl. reflexivity.
  - assert (Nat.eqb (cl_id c) n = false) as -> by (apply Nat.eqb_neq; lia).
    exact IH.
Qed.

Lemma generateCoverLetter_session P d w :
  session (snd (CoverLetterActions.generateCoverLetter P d w)) = session w
  /\ users (snd (CoverLetterActions.generateCoverLetter P d w)) = users w.
Proof.
  assert (CallSafe (same session)) as Hs by (split; reflexivity).
  assert (CallSafe (same users)) as Hu by (split; reflexivity).
  split.
  - revert w. change (keeps (same session)
                            (CoverLetterActions.generateCoverLetter P d)).
    unfold CoverLetterActions.generateCoverLetter,
      CoverLetterActions.getAuthenticatedUser.
    frame (same_preorder session);
      first [apply (keeps_generateContent _ Hs) | untouched].
  - revert w. change (keeps (same users)
                            (CoverLetterActions.generateCoverLetter P d)).
    unfold CoverLetterActions.generateCoverLetter,
      CoverLetterActions.getAuthenticatedUser.
    frame (same_preorder users);
      first [apply (keeps_generateContent _ Hu) | untouched].
Qed.

(** X19. A generated letter is read back by its id, whether or not the
    generation succeeded.  For a request that passes validation,
    authentication and the daily quota, [getCoverLetter] called with the
    id of the new row after [generateCoverLetter] returns the row as it
    was left: completed, with the trimmed non-empty text that
    [generateCoverLetter] returned, or failed, with empty content, when
    [generateCoverLetter] threw. *)
Theorem generated_letter_is_read_back (P : Platform) (w : World) (u : User)
        (d : CoverLetterInput) :
  signedIn w u ->
  CoverLetterActions.missingFields (Some d) = false ->
  countCoverLetters (user_id u) (startOfLocalDay P (clock w)) (coverLetters w)
  < CoverLetterActions.DAILY_LIMIT ->
  freshIds w ->
  let r := CoverLetterActions.generateCoverLetter P (Some d) w in
  exists row,
    getCoverLetter (Some (nextId w)) (snd r) = (Return row, snd r)
    /\ cl_id row = nextId w /\ cl_userId row = user_id u
    /\ (forall c, fst r = Return c ->
          c = row /\ cl_status row = "completed"
          /\ cl_content row <> "" /\ trim (cl_content row) = cl_content row)
    /\ (forall e, fst r = Throw e ->
          cl_status row = "failed" /\ cl_content row = "").
Proof.
  intros Hu Hin Hq Hfresh. cbv zeta.
  destruct (generateCoverLetter_session P (Some d) w) as [Hs Hus].
  destruct (QuotaProofs.coverLetter_under_quota P w u d Hu Hin Hq Hfresh)
    as (w' & Hrun & Hletters & _ & _).
  rewrite Hrun in *. cbn [fst snd] in *.
  exists (finalLetter P w u d).
  assert (cl_id (finalLetter P w u d) = nextId w
          /\ cl_userId (finalLetter P w u d) = user_id u) as [Hid Hown].
  { unfold finalLetter.
    destruct (callGeminiOutcome _); split; reflexivity. }
  split; [|split; [exact Hid|split; [exact Hown|split]]].
  - unfold getCoverLetter, getAuthenticatedUser, bind.
    rewrite (signedIn_reads w' u) by (eapply signedIn_frame; eassumption).
    unfold coverLetterFindUnique. rewrite Hletters.
    rewrite (find_fresh_key (nextId w) (user_id u)); [reflexivity | | |];
      assumption.
  - intros c Hc. unfold finalLetter in *.
    destruct (callGeminiOutcome
                (gemini w (geminiCalls w) (coverLetterPrompt P u d)))
      as [content|e] eqn:Eo; [|discriminate Hc].
    injection Hc as <-. cbn [letterRow cl_status cl_content].
    split; [reflexivity|]. split; [reflexivity|].
    eapply callGeminiOutcome_trimmed. exact Eo.
  - intros e He. unfold finalLetter in *.
    destruct (callGeminiOutcome
                (gemini w (geminiCalls w) (coverLetterPrompt P u d)))
      as [content|e'] eqn:Eo; [discriminate He|].
    split; reflexivity.
Qed.

Lemma generated_letter_is_read_back_witness :
  exists row,
    getCoverLetter (Some 200)
      (snd (CoverLetterActions.generateCoverLetter Scenario.platform
              (Some letterInput) noonWorld))
    = (Return row,
       snd (CoverLetterActions.generateCoverLetter Scenario.platform
              (Some letterInput) noonWorld))
    /\ cl_id row = 200 /\ cl_userId row = 1.
Proof.
  destruct (generated_letter_is_read_back Scenario.platform noonWorld
              Scenario.alice letterInput) as (row & H1 & H2 & H3 & _).
  - exists "user_alice". repeat split. discriminate.
  - reflexivity.
  - vm_compute. lia.
  - unfold freshIds. cbn. repeat constructor.
  - exists row. split; [exact H1 | split; [exact H2 | exact H3]].
Defined.

(** ** Deletion *)

Lemma removed_subset id userId (l : list CoverLetter) c :
  In c (filter (fun x => negb (letterKey id userId x)) l) ->
  In c l /\ letterKey id userId c = false.
Proof.
  intros H. apply filter_In in H as [Hin Hk]. apply negb_true_iff in Hk.
  split; assumption.
Qed.

Lemma unique_key_is_row id userId (l : list CoverLetter) c x :
  NoDup (map cl_id l) -> In c l -> In x l ->
  letterKey id userId c = true -> letterKey id userId x = true -> x = c.
Proof.
  intros Hnd Hc Hx Hkc Hkx.
  apply letterKey_owner in Hkc as [Hc1 _]. apply letterKey_owner in Hkx as [Hx1 _].
  induction l as [|y l IH]; [contradiction|].
  cbn [map] in Hnd. inversion Hnd as [|? ? Hnot Hrest]; subst.
  destruct Hc as [->|Hc], Hx as [->|Hx].
  - reflexivity.
  - exfalso. apply Hnot. rewrite <- Hx1. apply in_map. exact Hx.
  - exfalso. apply Hnot. rewrite Hx1. apply in_map. exact Hc.
  - apply IH; assumption.
Qed.

Lemma filter_all {A} (p : A -> bool) (l : list A) :
  (forall x, In x l -> p x = true) -> filter p l = l.
Proof.
  induction l as [|y l IH]; intros H; [reflexivity|].
  cbn [filter]. rewrite (H y (or_introl eq_refl)), IH; [reflexivity|].
  intros x Hx. apply H. right. exact Hx.
Qed.

Lemma count_after_removal id userId since (l : list CoverLetter) c :
  NoDup (map cl_id l) -> In c l -> letterKey id userId c = true ->
  (since <= cl_createdAt c)%Z ->
  S (countCoverLetters userId since
       (filter (fun x => negb (letterKey id userId x)) l))
  = countCoverLetters userId since l.
Proof.
  intros Hnd Hc Hk Hsince. unfold countCoverLetters.
  induction l as [|y l IH]; [contradiction|].
  cbn [map] in Hnd. inversion Hnd as [|? ? Hnot Hrest]; subst.
  destruct Hc as [->|Hc].
  - cbn [filter]. rewrite Hk. cbn [negb].
    pose proof Hk as Hk'. apply letterKey_owner in Hk' as [Hid Hown].
    rewrite Hown, Nat.eqb_refl. apply Z.leb_le in Hsince. rewrite Hsince.
    cbn [andb List.length]. f_equal. f_equal. f_equal.
    apply filter_all. intros x Hx. apply negb_true_iff.
    destruct (letterKey id userId x) eqn:Ex; [|reflexivity].
    exfalso. apply Hnot. apply letterKey_owner in Ex as [Ex _].
    rewrite Hid, <- Ex. apply in_map. exact Hx.
  - assert (letterKey id userId y = false) as Hy.
    { destruct (letterKey id userId y) eqn:Ey; [|reflexivity].
      exfalso. apply Hnot.
      apply letterKey_owner in Ey as [Ey _]. apply letterKey_owner in Hk as [Hk _].
      rewrite Ey, <- Hk. apply in_map. exact Hc. }
    cbn [filter]. rewrite Hy. cbn [negb filter].
    destruct (Nat.eqb (cl_userId y) userId && Z.leb since (cl_createdAt y));
      cbn [List.length]; rewrite <- (IH Hrest Hc); reflexivity.
Qed.

(** X20. [deleteCoverLetter] removes the caller's letter and nothing
    else.  For a signed-in user: a letter that is missing afterwards had
    the given id and belonged to the caller, and no letter is added.
    When the caller owns a letter with the id (ids being unique), that
    letter is returned and removed, every other letter is kept,
    [getCoverLetter] then reports it as not found, and the caller's count
    of letters created since any instant not after its creation (the
    count the daily quota uses) drops by one.  When the caller owns no
    letter with the id, the call throws and changes nothing. *)
Theorem deleteCoverLetter_removes_own_letter_only (w : World) (u : User)
        (id : nat) :
  signedIn w u ->
  let r := deleteCoverLetter (Some id) w in
  (forall c, In c (coverLetters (snd r)) -> In c (coverLetters w))
  /\ (forall c, In c (coverLetters w) -> ~ In c (coverLetters (snd r)) ->
                cl_id c = id /\ cl_userId c = user_id u)
  /\ (forall c, uniqueLetterIds w ->
        find (letterKey id (user_id u)) (coverLetters w) = Some c ->
        fst r = Return c
        /\ (forall x, In x (coverLetters (snd r)) <-> In x (coverLetters w) /\ x <> c)
        /\ getCoverLetter (Some id) (snd r)
           = (Throw (Error "Cover letter not found"), snd r)
        /\ forall since, (since <= cl_createdAt c)%Z ->
             S (countCoverLetters (user_id u) since (coverLetters (snd r)))
             = countCoverLetters (user_id u) since (coverLetters w))
  /\ (find (letterKey id (user_id u)) (coverLetters w) = None ->
      exists e, r = (Throw e, w)).
Proof.
  intros Hu. cbv zeta.
  unfold deleteCoverLetter, getAuthenticatedUser, bind.
  rewrite (signedIn_reads w u Hu).
  unfold orThrow, tryStore, coverLetterDelete.
  destruct (find (letterKey id (user_id u)) (coverLetters w)) as [row|] eqn:Ef;
    cbn [ret throw fst snd]; world_simpl.
  - split; [intros c Hc; apply removed_subset in Hc; tauto|].
    split.
    { intros c Hc Hgone. apply letterKey_owner.
      destruct (letterKey id (user_id u) c) eqn:Ek; [reflexivity|].
      exfalso. apply Hgone. apply filter_In. rewrite Ek. split; [exact Hc | reflexivity]. }
    split; [|discriminate].
    intros c Hnd Hc. injection Hc as <-.
    pose proof (find_some _ _ Ef) as [Hin Hk].
    split; [reflexivity|]. split; [|split].
    + intros x. split.
      * intros Hx. apply removed_subset in Hx as [Hx Hkx].
        split; [exact Hx|]. intros ->. congruence.
      * intros [Hx Hne]. apply filter_In. split; [exact Hx|].
        apply negb_true_iff.
        destruct (letterKey id (user_id u) x) eqn:Ex; [|reflexivity].
        exfalso. apply Hne.
        apply (unique_key_is_row id (user_id u) (coverLetters w) row x); assumption.
    + unfold getCoverLetter, getAuthenticatedUser, bind.
      rewrite (signedIn_reads _ u) by (eapply signedIn_frame; [| |exact Hu]; reflexivity).
      unfold coverLetterFindUnique. world_simpl.
      assert (find (letterKey id (user_id u))
                   (filter (fun c => negb (letterKey id (user_id u) c))
                           (coverLetters w)) = None) as ->; [|reflexivity].
      destruct (find _ (filter _ _)) as [x|] eqn:Ex; [|reflexivity].
      apply find_some in Ex as [Hx Hkx]. apply removed_subset in Hx as [_ Hx].
      congruence.
    + intros since Hsince.
      apply (count_after_removal id (user_id u) since (coverLetters w) row);
        assumption.
  - split; [tauto|]. split; [intros c Hc Hgone; contradiction|].
    split; [discriminate|]. intros _. eexists. reflexivity.
Qed.

Lemma deleteCoverLetter_removes_own_letter_only_witness :
  fst (deleteCoverLetter (Some 100) sharedWorld)
  = Return (letterOf 100 1 (8 * Scenario.day))
  /\ S (countCoverLetters 1 (8 * Scenario.day)
          (coverLetters (snd (deleteCoverLetter (Some 100) sharedWorld))))
     = countCoverLetters 1 (8 * Scenario.day) (coverLetters sharedWorld).
Proof.
  destruct (deleteCoverLetter_removes_own_letter_only sharedWorld Scenario.alice 100)
    as (_ & _ & H & _).
  - exists "user_alice". repeat split. discriminate.
  - destruct (H (letterOf 100 1 (8 * Scenario.day))) as (H1 & _ & _ & H2).
    + unfold uniqueLetterIds. cbn. repeat constructor; cbn; intuition lia.
    + reflexivity.
    + split; [exact H1|]. apply H2. cbn. lia.
Defined.
End LetterProofs.

Module OnboardingProofs.
Import JsString Js Runtime Store StoreOps CacheSpec FrameSpec FrameProofs
       SkillsSpec SkillsProofs UserActions Onboarding OnboardingSpec.
Local Open Scope string_scope.

Ltac world_simpl :=
  cbn [afterCall emit advance countCall setUsers setInsights setCoverLetters
       setResumes setAssessments
       bumpId clock session users insights coverLetters assessments resumes
       nextId gemini geminiCalls trace] in *.

Lemma ensureIndustryInsight_keeps {X} (f : World -> X) P industry :
  (forall l w, f (setInsights l w) = f w) ->
  (forall ev w, f (emit ev w) = f w) ->
  (forall w, f (bumpId w) = f w) ->
  (forall w, f (countCall w) = f w) ->
  (forall ms w, f (advance ms w) = f w) ->
  keeps (same f) (ensureIndustryInsight P industry).
Proof.
  intros H1 H2 H3 H4 H5.
  assert (CallSafe (same f)) as HS.
  { split; intros; unfold same, afterCall; rewrite ?H2, ?H4, ?H5; reflexivity. }
  assert (forall d, keeps (same f) (insightCreate d)) as Hcreate.
  { intros d w. unfold same, insightCreate.
    destruct (newInsight (nextId w) (clock w) d) as [row|]; [|reflexivity].
    destruct (findInsight (ins_industry row) (insights w)); [reflexivity|].
    cbn [snd]. rewrite H2, H3, H1. reflexivity. }
  assert (forall sel d, keeps (same f) (insightUpdateWhere sel d)) as Hupdate.
  { intros sel d w. unfold same, insightUpdateWhere.
    destruct (find sel (insights w)); [|reflexivity].
    cbn [snd]. rewrite H2, H1. reflexivity. }
  unfold ensureIndustryInsight.
  frame (same_preorder f);
    first [ apply (keeps_reads _ (same_preorder f))
          | apply Hcreate
          | apply (keeps_generateAIInsights _ (same_preorder f) HS)
          | apply Hupdate ].
Qed.

Lemma ensureIndustryInsight_existing P industry w :
  findInsight industry (insights w) <> None ->
  ensureIndustryInsight P industry w = (Return tt, w).
Proof.
  intros H. unfold ensureIndustryInsight, bind, insightFindUnique.
  destruct (findInsight industry (insights w)); [reflexivity | contradiction H; reflexivity].
Qed.

(** After an upsert the row is the one found for the session. *)
Lemma find_after_upsert clerkId d w :
  exists row,
    fst (userUpsert clerkId d w) = Return row
    /\ find (fun u => String.eqb (user_clerkUserId u) clerkId)
            (users (snd (userUpsert clerkId d w))) = Some row
    /\ user_industry row = ud_industry d /\ user_skills row = ud_skills d
    /\ session (snd (userUpsert clerkId d w)) = session w
    /\ insights (snd (userUpsert clerkId d w)) = insights w
    /\ geminiCalls (snd (userUpsert clerkId d w)) = geminiCalls w.
Proof.
  unfold userUpsert.
  destruct (find (fun u => String.eqb (user_clerkUserId u) clerkId) (users w))
    as [old|] eqn:Ef; eexists; (split; [reflexivity|]); cbn [fst snd];
    world_simpl; (split; [|repeat split]).
  - cbn [user_id]. clear -Ef.
    induction (users w) as [|x l IH]; [discriminate Ef|].
    cbn [find map] in *.
    destruct (String.eqb (user_clerkUserId x) clerkId) eqn:Ex.
    + injection Ef as ->. rewrite Nat.eqb_refl. cbn [user_clerkUserId].
      rewrite Ex. reflexivity.
    + destruct (Nat.eqb (user_id x) (user_id old)).
      * cbn [user_clerkUserId].
        apply find_some in Ef as [_ Ho]. rewrite Ho. reflexivity.
      * rewrite Ex. apply IH. exact Ef.
  - clear -Ef. induction (users w) as [|x l IH]; cbn [app find] in *.
    + cbn [user_clerkUserId]. rewrite String.eqb_refl. reflexivity.
    + destruct (String.eqb (user_clerkUserId x) clerkId); [discriminate Ef|].
      apply IH. exact Ef.
Qed.

(** X21. A profile that was saved shows in the onboarding status.  When
    [updateUser] returns, the stored user has the industry of the
    request and its skills normalised (none empty, none with white space
    at either end), and [getUserOnboardingStatus], called next, reports
    the user as onboarded exactly when that industry is not the empty
    string; when an insight row for the industry existed already, the
    insight collection is untouched and the provider is not called.  For
    a session whose user has no row, [getUserOnboardingStatus] answers
    [isOnboarded: false] where the other actions throw
    [User not found]. *)
Theorem updateUser_then_onboarding_status (P : Platform) (w : World)
        (data : ProfileInput) :
  (forall u' w',
      updateUser P data w = (Return u', w') ->
      user_industry u' = Some (pi_industry data)
      /\ user_skills u' = normalizeSkills (pi_skills data)
      /\ Forall cleanSkill (user_skills u')
      /\ getUserOnboardingStatus w'
         = (Return (mkOnboardingStatus (nonEmpty (pi_industry data))), w')
      /\ (findInsight (pi_industry data) (insights w) <> None ->
          insights w' = insights w /\ geminiCalls w' = geminiCalls w))
  /\ (forall uid,
         session w = Some uid -> uid <> "" ->
         find (fun u => String.eqb (user_clerkUserId u) uid) (users w) = None ->
         getUserOnboardingStatus w = (Return (mkOnboardingStatus false), w)
         /\ ResumeActions.getAuthenticatedUser w
            = (Throw (Error "User not found"), w)).
Proof.
  split.
  - intros u' w' H.
    unfold updateUser, bind at 1, auth in H.
    destruct (session w) as [uid|] eqn:Es; [|discriminate H].
    cbn [falsy orElse] in H.
    destruct (String.eqb uid "") eqn:Euid; [discriminate H|].
    unfold tryCatch, bind in H.
    pose proof (ensureIndustryInsight_keeps session P (pi_industry data)
                  ltac:(reflexivity) ltac:(reflexivity) ltac:(reflexivity)
                  ltac:(reflexivity) ltac:(reflexivity) w) as Hsess.
    pose proof (ensureIndustryInsight_existing P (pi_industry data) w) as Hex.
    unfold same in Hsess.
    destruct (ensureIndustryInsight P (pi_industry data) w) as [[[]|e] w1];
      [|discriminate H].
    cbn [snd] in Hsess.
    destruct (find_after_upsert uid
                (mkUserData (pi_email data) (pi_name data)
                            (Some (pi_industry data)) (pi_experience data)
                            (pi_bio data) (normalizeSkills (pi_skills data))) w1)
      as (row & Hrow & Hfind & Hind & Hsk & Hs2 & Hi2 & Hc2).
    destruct (userUpsert uid _ w1) as [[x|e] w2]; cbn [fst snd] in *;
      [|discriminate Hrow].
    injection Hrow as ->. injection H as -> ->.
    cbn [ud_industry ud_skills] in *.
    split; [exact Hind|]. split; [exact Hsk|].
    split; [rewrite Hsk; apply normalizeSkills_clean|].
    split.
    + unfold getUserOnboardingStatus, bind, auth, userFindIndustry.
      rewrite Hs2, Hsess, Es. cbn [falsy orElse]. rewrite Euid, Hfind.
      cbn [option_map hasIndustry]. rewrite Hind. reflexivity.
    + intros Hsome. specialize (Hex Hsome). injection Hex as <-.
      split; assumption.
  - intros uid Hs Hne Hnone. apply String.eqb_neq in Hne.
    unfold getUserOnboardingStatus, ResumeActions.getAuthenticatedUser, bind,
      auth, userFindIndustry, userFindUnique.
    rewrite Hs. cbn [falsy orElse]. rewrite Hne, Hnone. split; reflexivity.
Qed.

Lemma updateUser_then_onboarding_status_witness :
  getUserOnboardingStatus
    (snd (updateUser Scenario.platform Scenario.aliceProfile
                     (Scenario.emptyWorld Scenario.unavailable)))
  = (Return (mkOnboardingStatus true),
     snd (updateUser Scenario.platform Scenario.aliceProfile
                     (Scenario.emptyWorld Scenario.unavailable)))
  /\ getUserOnboardingStatus newcomerWorld
     = (Return (mkOnboardingStatus false), newcomerWorld).
Proof.
  split.
  - destruct (updateUser Scenario.platform Scenario.aliceProfile
                         (Scenario.emptyWorld Scenario.unavailable))
      as [[u'|e] w'] eqn:E; [|vm_compute in E; discriminate E].
    apply (proj1 (updateUser_then_onboarding_status Scenario.platform
                    (Scenario.emptyWorld Scenario.unavailable)
                    Scenario.aliceProfile) u' w' E).
  - apply (proj2 (updateUser_then_onboarding_status Scenario.platform
                    newcomerWorld Scenario.aliceProfile) "user_carol");
      [reflexivity | discriminate | reflexivity].
Defined.
End OnboardingProofs.

Module AccountingProofs.
Import JsString Js Runtime Store StoreOps Retry AttemptSpec AttemptProofs
       FrameSpec FrameProofs InngestFunctions AccountingSpec.
Local Open Scope string_scope.

Ltac world_simpl :=
  cbn [afterCall emit advance countCall setUsers setInsights setCoverLetters
       setResumes setAssessments
       bumpId clock session users insights coverLetters assessments resumes
       nextId gemini geminiCalls trace] in *.

Lemma insightUpsert_calls industry d1 d2 w :
  geminiCalls (snd (insightUpsert industry d1 d2 w)) = geminiCalls w.
Proof.
  unfold insightUpsert, insightUpdateByIndustry, insightUpdateWhere, insightCreate.
  destruct (findInsight industry (insights w)).
  - destruct (find _ (insights w)); reflexivity.
  - destruct (newInsight (nextId w) (clock w) d2) as [row|]; [|reflexivity].
    destruct (findInsight (ins_industry row) (insights w)); reflexivity.
Qed.

(** One industry costs at most three provider calls. *)
Lemma refreshIndustry_calls P industry w :
  callsWithin 3 w (snd (refreshIndustry P industry w)).
Proof.
  remember (refreshIndustry P industry w) as r eqn:E.
  unfold refreshIndustry, stepRun, bind at 1 in E.
  unfold bind at 1, now in E.
  pose proof (generateWithRetry_bounds P (createPrompt P (clock w) industry)
                industry w) as Hb.
  cbv zeta in Hb. destruct Hb as (Hc & _ & _).
  destruct (generateWithRetry P (createPrompt P (clock w) industry) industry w)
    as [[v|e] w1]; cbn [fst snd] in *;
    [|subst r; unfold callsWithin; cbn [snd]; lia].
  unfold bind, now in E.
  pose proof (insightUpsert_calls industry (refreshData v (clock w1))
                (Dashboard.withIndustry (Some industry) None
                                        (refreshData v (clock w1))) w1) as Hu.
  destruct (insightUpsert industry _ _ w1) as [[row|e] w2];
    cbn [fst snd] in *; subst r; unfold callsWithin, ret; cbn [snd]; lia.
Qed.

(** The loop handles every industry left, never throws, and records one
    failure entry per failed industry. *)
Lemma processIndustries_accounts P len :
  forall rest i stats w,
  exists stats' w',
    processIndustries P len i rest stats w = (Return stats', w')
    /\ handled stats' = handled stats + List.length rest
    /\ failed stats <= failed stats'
    /\ List.length (failures stats') + failed stats
       = List.length (failures stats) + failed stats'
    /\ statsMessage stats' = statsMessage stats
    /\ startTime stats' = startTime stats
    /\ callsWithin (3 * List.length rest) w w'.
Proof.
  induction rest as [|industry tl IH]; intros i stats w.
  - exists stats, w. cbn [processIndustries ret List.length].
    unfold callsWithin. repeat split; lia.
  - cbn [processIndustries].
    destruct (String.eqb industry "" || Nat.eqb (String.length (trim industry)) 0).
    + destruct (IH (S i) (skippedOne stats) w)
        as (s' & w' & Hrun & Hh & Hf & Hl & Hm & Hst & Hc).
      exists s', w'. split; [exact Hrun|].
      unfold handled, callsWithin in *.
      cbn [skippedOne successful failed skipped failures statsMessage startTime
           List.length] in *.
      repeat split; lia || assumption.
    + unfold bind at 1, tryCatch, bind at 1.
      pose proof (refreshIndustry_calls P industry w) as Hcalls.
      destruct (refreshIndustry P industry w) as [[[]|e] w1]; cbn [snd] in Hcalls.
      * cbn [ret]. unfold bind at 1.
        set (w2 := snd ((if Nat.ltb i (len - 1)
                         then sleep DELAY_BETWEEN_INDUSTRIES_MS
                         else ret tt) w1)).
        assert (geminiCalls w2 = geminiCalls w1) as Hw2.
        { unfold w2. destruct (Nat.ltb i (len - 1)); reflexivity. }
        assert ((if Nat.ltb i (len - 1)
                 then sleep DELAY_BETWEEN_INDUSTRIES_MS
                 else ret tt) w1 = (Return tt, w2)) as ->.
        { unfold w2. destruct (Nat.ltb i (len - 1)); reflexivity. }
        destruct (IH (S i) (succeeded stats) w2)
          as (s' & w' & Hrun & Hh & Hf & Hl & Hm & Hst & Hc).
        exists s', w'. split; [exact Hrun|].
        unfold handled, callsWithin in *.
        cbn [succeeded successful failed skipped failures statsMessage startTime
             List.length] in *.
        repeat split; lia || assumption.
      * unfold bind at 1, now. cbn [ret]. unfold bind at 1.
        set (w2 := snd ((if Nat.ltb i (len - 1)
                         then sleep DELAY_BETWEEN_INDUSTRIES_MS
                         else ret tt) w1)).
        assert (geminiCalls w2 = geminiCalls w1) as Hw2.
        { unfold w2. destruct (Nat.ltb i (len - 1)); reflexivity. }
        assert ((if Nat.ltb i (len - 1)
                 then sleep DELAY_BETWEEN_INDUSTRIES_MS
                 else ret tt) w1 = (Return tt, w2)) as ->.
        { unfold w2. destruct (Nat.ltb i (len - 1)); reflexivity. }
        destruct (IH (S i)
                     (failedWith (mkFailure industry (message e) (clock w1)) stats)
                     w2)
          as (s' & w' & Hrun & Hh & Hf & Hl & Hm & Hst & Hc).
        exists s', w'. split; [exact Hrun|].
        unfold handled, callsWithin in *.
        cbn [failedWith successful failed skipped failures statsMessage startTime
             List.length] in *.
        rewrite length_app in Hl. cbn [List.length] in Hl.
        repeat split; lia || assumption.
Qed.

(** X22. The scheduled job accounts for every industry and never
    throws.  In every world and whatever the provider does,
    [generateIndustryInsights] returns a report in which the industries
    counted as successful, failed and skipped add up to the number of
    distinct industries of the insight collection, with exactly one
    failure entry per failed industry; it makes at most three provider
    calls per industry; and it reports [No industries to update] exactly
    when the collection has no industry. *)
Theorem batch_accounts_for_every_industry (P : Platform) (w : World) :
  exists stats w',
    generateIndustryInsights P w = (Return stats, w')
    /\ successful stats + failed stats + skipped stats
       = List.length (industriesOf w)
    /\ List.length (failures stats) = failed stats
    /\ startTime stats = clock w
    /\ geminiCalls w <= geminiCalls w'
       <= geminiCalls w + 3 * List.length (industriesOf w)
    /\ (statsMessage stats = Some "No industries to update"
        <-> industriesOf w = []).
Proof.
  unfold generateIndustryInsights, bind at 1, now.
  unfold bind at 1, stepRun, insightDistinctIndustries.
  fold (industriesOf w).
  destruct (industriesOf w) as [|ind rest] eqn:El.
  - cbn [List.length Nat.eqb ret]. eexists. eexists.
    split; [reflexivity|].
    cbn [successful failed skipped failures statsMessage startTime List.length].
    repeat split; lia.
  - cbn [List.length Nat.eqb].
    destruct (processIndustries_accounts P (S (List.length rest)) (ind :: rest) 0
                (mkStats (S (List.length rest)) 0 0 0 (clock w) [] None None None
                         None) w)
      as (s' & w' & Hrun & Hh & Hf & Hl & Hm & Hst & Hc).
    unfold bind at 1. rewrite Hrun. unfold bind, now, ret.
    eexists. eexists. split; [reflexivity|].
    unfold handled, callsWithin in *.
    cbn [successful failed skipped failures statsMessage startTime
         List.length] in *.
    split; [lia|]. split; [lia|]. split; [exact Hst|]. split; [lia|].
    rewrite Hm. split; discriminate.
Qed.
End AccountingProofs.

Module ReadBackProofs.
Import JsString Js Runtime Store Dashboard ValidatorSpec ValidatorProofs
       CacheSpec CacheProofs AttemptSpec AttemptProofs ReadBackSpec.
Local Open Scope string_scope.

Ltac world_simpl :=
  cbn [afterCall emit advance countCall setUsers setInsights setCoverLetters
       bumpId clock session users insights coverLetters assessments resumes
       nextId gemini geminiCalls trace] in *.

Lemma getAuthenticatedUser_inv w u ins w0 :
  getAuthenticatedUser w = (Return (u, ins), w0) ->
  w0 = w /\ ins = industryInsightOf u w /\ signedIn w u.
Proof.
  unfold getAuthenticatedUser, bind, auth, userFindUnique.
  destruct (session w) as [uid|] eqn:Es; cbn [falsy orElse]; [|discriminate].
  destruct (String.eqb uid "") eqn:Euid; [discriminate|].
  destruct (find _ (users w)) as [x|] eqn:Ef; [|discriminate].
  intros H. injection H as -> <- <-.
  split; [reflexivity|]. split; [reflexivity|].
  exists uid. split; [exact Es|]. split; [|exact Ef].
  apply String.eqb_neq. exact Euid.
Qed.

Lemma signedIn_after w w' u :
  session w' = session w -> users w' = users w -> signedIn w u -> signedIn w' u.
Proof.
  intros Hs Hu (uid & H1 & H2 & H3). exists uid. rewrite Hs, Hu. auto.
Qed.

Lemma served_from_cache P w u row :
  signedIn w u -> blank (user_industry u) = false ->
  industryInsightOf u w = Some row ->
  (clock w <= ins_nextUpdate row)%Z ->
  getIndustryInsights P w = (Return row, w).
Proof.
  intros Hu Hind Hrow Hfresh.
  unfold getIndustryInsights, bind at 1.
  rewrite (getAuthenticatedUser_signedIn w u Hu), Hind, Hrow.
  unfold bind, shouldRefreshInsights, bind, now, ret.
  apply Z.ltb_ge in Hfresh. rewrite Hfresh. reflexivity.
Qed.

Lemma findInsight_mapped industry f l :
  (forall i, ins_industry (f i) = ins_industry i) ->
  findInsight industry (map f l) = option_map f (findInsight industry l).
Proof.
  intros Hf. unfold findInsight. induction l as [|x l IH]; [reflexivity|].
  cbn [map find]. rewrite Hf.
  destruct (String.eqb (ins_industry x) industry); [reflexivity | exact IH].
Qed.

Lemma findInsight_appended industry row l :
  findInsight industry l = None -> ins_industry row = industry ->
  findInsight industry (l ++ [row]) = Some row.
Proof.
  intros Hnone Hrow. unfold findInsight in *.
  induction l as [|x l IH]; cbn [app find] in *.
  - rewrite Hrow, String.eqb_refl. reflexivity.
  - destruct (String.eqb (ins_industry x) industry); [discriminate Hnone|].
    apply IH. exact Hnone.
Qed.

Lemma same_id_same_row (l : list Insight) a b :
  NoDup (map ins_id l) -> In a l -> In b l -> ins_id a = ins_id b -> a = b.
Proof.
  induction l as [|x l IH]; intros Hnd Ha Hb Hid; [contradiction|].
  cbn [map] in Hnd. inversion Hnd as [|? ? Hnot Hrest]; subst.
  destruct Ha as [->|Ha], Hb as [->|Hb].
  - reflexivity.
  - exfalso. apply Hnot. rewrite Hid. apply in_map. exact Hb.
  - exfalso. apply Hnot. rewrite <- Hid. apply in_map. exact Ha.
  - apply IH; assumption.
Qed.

Lemma validateInsightsResponse_returns_wellFormed data ok :
  validateInsightsResponse data = Return ok -> insightsWellFormed data.
Proof.
  intros H.
  assert (Hobj : (exists fields, data = JObj fields)
                 \/ (exists items, data = JArr items)).
  { destruct data; eauto; discriminate H. }
  destruct (insight_validators_verdict data "" Hobj)
    as [(Hwf & _) | (f & _ & _ & (m & Hm & _) & _)]; [exact Hwf | congruence].
Qed.

Lemma insightsOutcome_cases P r :
  (exists v, insightsOutcome P r = Return v /\ insightsWellFormed v)
  \/ (exists e, insightsOutcome P r = Throw e /\ kind e = KError).
Proof.
  unfold insightsOutcome.
  destruct r as [text|msg]; [|right; eexists; split; reflexivity].
  destruct (JSON_parse P (cleanText text)) as [v|msg];
    [|right; eexists; split; reflexivity].
  destruct (validateInsightsResponse v) as [ok|e] eqn:Ev.
  - left. exists v. split; [reflexivity|].
    eapply validateInsightsResponse_returns_wellFormed. exact Ev.
  - right. eexists. split; [reflexivity|].
    unfold wrapInsightError. destruct (kind e); reflexivity.
Qed.

(** X23. [generateAIInsights] makes a single attempt and hands on only
    checked reports and plain errors.  For a missing or blank industry it
    throws [Industry is required to generate insights] and does nothing
    else; otherwise it calls the provider exactly once, with the
    insights prompt of the industry, and does not retry.  It never
    changes the session or a
    collection; a report it returns has passed the validator (all seven
    fields present, at least 3 salary ranges, at least 5 top skills,
    demand level and market outlook among the allowed values); and
    whatever goes wrong inside (a provider error, text that does not
    parse, a value the validator rejects or cannot read) reaches the
    caller as a plain [Error], never as a [SyntaxError] or a
    [TypeError]. *)
Theorem generateAIInsights_single_checked_attempt (P : Platform)
        (industry : option string) (w : World) :
  let r := generateAIInsights P industry w in
  sameStore w (snd r)
  /\ (if blank industry
      then r = (Throw (Error "Industry is required to generate insights"), w)
      else exists ind,
             industry = Some ind
             /\ trace (snd r)
                = (trace w ++ [EvGenerate (insightsPrompt P (clock w) ind)])%list)
  /\ geminiCalls (snd r) = (if blank industry then geminiCalls w
                            else geminiCalls w + 1)
  /\ (forall v, fst r = Return v -> insightsWellFormed v)
  /\ (forall e, fst r = Throw e -> kind e = KError).
Proof.
  cbv zeta. destruct (blank industry) eqn:Hb.
  - rewrite (generateAIInsights_blank P industry w Hb). cbn [fst snd].
    split; [apply sameStore_refl|]. split; [reflexivity|].
    split; [reflexivity|].
    split; [intros v Hv; discriminate Hv|].
    intros e He. injection He as <-. reflexivity.
  - destruct (blank_some_industry _ Hb) as (ind & -> & Hnb).
    rewrite (generateAIInsights_shape P ind w Hnb). cbn [fst snd].
    split; [repeat split|].
    split; [exists ind; split; reflexivity|].
    split; [world_simpl; lia|].
    unfold nextInsights.
    destruct (insightsOutcome_cases P
                (gemini w (geminiCalls w) (insightsPrompt P (clock w) ind)))
      as [(v & -> & Hwf) | (e & -> & Hk)].
    + split; [intros x Hx; injection Hx as <-; exact Hwf|].
      intros x Hx. discriminate Hx.
    + split; [intros x Hx; discriminate Hx|].
      intros x Hx. injection Hx as <-. exact Hk.
Qed.

(** X24. What [getIndustryInsights] returns is served from the cache
    next time.  Whenever a call returns a row (ids being unique in the
    insight collection), whether it found a fresh row, refreshed a stale
    one or created the first, the row's [nextUpdate] is not before the
    current time, at most one provider call was made, and a second call
    made in the resulting world returns the same row without any
    provider call or write. *)
Theorem getIndustryInsights_then_cache_hit (P : Platform) (w : World)
        (r : Insight) (w' : World) :
  uniqueInsightIds w ->
  getIndustryInsights P w = (Return r, w') ->
  getIndustryInsights P w' = (Return r, w')
  /\ (clock w' <= ins_nextUpdate r)%Z
  /\ geminiCalls w <= geminiCalls w' <= geminiCalls w + 1.
Proof.
  intros Hnd H.
  unfold getIndustryInsights, bind at 1 in H.
  destruct (getAuthenticatedUser w) as [[[u ins]|e] w0] eqn:Ea; [|discriminate H].
  apply getAuthenticatedUser_inv in Ea as (-> & -> & Hu).
  destruct (blank (user_industry u)) eqn:Hblank; [discriminate H|].
  destruct (blank_some_industry _ Hblank) as (ind & Hind & Hnb).
  assert (forall row w2,
             session w2 = session w -> users w2 = users w ->
             clock w2 = clock w ->
             industryInsightOf u w2 = Some row ->
             ins_nextUpdate row = (clock w + CACHE_DURATION_DAYS * msPerDay)%Z ->
             getIndustryInsights P w2 = (Return row, w2)
             /\ (clock w2 <= ins_nextUpdate row)%Z) as Hhit.
  { intros row w2 Hs Hus Hc Hrow Hnext.
    assert ((clock w2 <= ins_nextUpdate row)%Z) as Hle.
    { rewrite Hnext, Hc. unfold CACHE_DURATION_DAYS, msPerDay. lia. }
    split; [|exact Hle].
    apply (served_from_cache P w2 u row); try assumption.
    eapply signedIn_after; eassumption. }
  destruct (industryInsightOf u w) as [row|] eqn:Hrow.
  - unfold bind at 1, shouldRefreshInsights, bind, now, ret in H.
    destruct (Z.ltb (ins_nextUpdate row) (clock w)) eqn:Estale; cbn [negb] in H.
    + (* stale: refreshed in place *)
      unfold generateAndStore, bind at 1 in H. rewrite Hind in H.
      rewrite (generateAIInsights_shape P ind w Hnb) in H.
      destruct (nextInsights P ind w) as [v|e]; [|discriminate H].
      unfold bind, getNextUpdateDate, bind, now, ret, insightUpdateById,
        insightUpdateWhere in H.
      cbn [afterCall emit countCall insights clock] in H.
      destruct (find (fun i => Nat.eqb (ins_id i) (ins_id row)) (insights w))
        as [old|] eqn:Eold; [|discriminate H].
      assert (old = row) as ->.
      { unfold industryInsightOf in Hrow. rewrite Hind in Hrow.
        unfold findInsight in Hrow.
        apply find_some in Hrow as [Hin _]. apply find_some in Eold as [Hin' Hid].
        apply Nat.eqb_eq in Hid.
        apply (same_id_same_row (insights w)); assumption. }
      injection H as <- <-. world_simpl.
      destruct (Hhit (patchInsight
                        (withNextUpdate (clock w + CACHE_DURATION_DAYS * msPerDay)
                                        (insightColumns v)) row)
                     (emit (EvWrite TInsight (ins_id row))
                        (setInsights
                           (map (fun i => if Nat.eqb (ins_id i) (ins_id row)
                                          then patchInsight
                                                 (withNextUpdate
                                                    (clock w + CACHE_DURATION_DAYS * msPerDay)
                                                    (insightColumns v)) i
                                          else i) (insights w))
                           (afterCall (insightsPrompt P (clock w) ind) w))))
        as [Hget Hle]; try reflexivity.
      * unfold industryInsightOf. rewrite Hind. world_simpl.
        unfold industryInsightOf in Hrow. rewrite Hind in Hrow.
        rewrite findInsight_mapped
          by (intros i; destruct (Nat.eqb (ins_id i) (ins_id row)); reflexivity).
        rewrite Hrow. cbn [option_map]. rewrite Nat.eqb_refl. reflexivity.
      * cbn [patchInsight ins_id] in *.
        split; [exact Hget|]. split; [exact Hle | lia].
    + (* fresh: served as it is *)
      injection H as <- <-. apply Z.ltb_ge in Estale.
      split; [apply (served_from_cache P w u row); assumption|].
      split; [exact Estale | lia].
  - (* no row yet: created *)
    unfold generateAndStore, bind at 1 in H. rewrite Hind in H.
    rewrite (generateAIInsights_shape P ind w Hnb) in H.
    destruct (nextInsights P ind w) as [v|e]; [|discriminate H].
    unfold bind, getNextUpdateDate, bind, now, ret, insightCreate in H.
    cbn [afterCall emit countCall insights clock nextId] in H.
    destruct (newInsight (nextId w) (clock w) _) as [row|] eqn:Enew;
      [|discriminate H].
    destruct (findInsight (ins_industry row) (insights w)); [discriminate H|].
    injection H as <- <-. world_simpl.
    assert (ins_industry row = ind
            /\ ins_nextUpdate row = (clock w + CACHE_DURATION_DAYS * msPerDay)%Z)
      as [Hri Hrn].
    { unfold newInsight in Enew.
      cbn [withNextUpdate withIndustry insightColumns d_industry d_userId
           d_salaryRanges d_growthRate d_demandLevel d_topSkills
           d_marketOutlook d_keyTrends d_recommendedSkills d_lastUpdated
           d_nextUpdate] in Enew.
      repeat match type of Enew with
             | match ?x with _ => _ end = _ => destruct x; try discriminate Enew
             end.
      injection Enew as <-. split; reflexivity. }
    destruct (Hhit row
                   (emit (EvWrite TInsight (ins_id row))
                      (bumpId
                         (setInsights (insights w ++ [row])
                            (afterCall (insightsPrompt P (clock w) ind) w)))))
      as [Hget Hle]; try reflexivity; try assumption.
    * unfold industryInsightOf. rewrite Hind. world_simpl.
      unfold industryInsightOf in Hrow. rewrite Hind in Hrow.
      apply findInsight_appended; assumption.
    * split; [exact Hget|]. split; [exact Hle | lia].
Qed.

Lemma getIndustryInsights_then_cache_hit_witness :
  exists r w',
    getIndustryInsights Scenario.platform
                        (Scenario.staleWorld (Scenario.answering Scenario.insightsText))
    = (Return r, w')
    /\ getIndustryInsights Scenario.platform w' = (Return r, w')
    /\ geminiCalls w' = 1.
Proof.
  destruct (getIndustryInsights Scenario.platform
              (Scenario.staleWorld (Scenario.answering Scenario.insightsText)))
    as [[r|e] w'] eqn:E; [|vm_compute in E; discriminate E].
  exists r, w'. split; [reflexivity|].
  destruct (getIndustryInsights_then_cache_hit Scenario.platform
              (Scenario.staleWorld (Scenario.answering Scenario.insightsText))
              r w') as (H1 & _ & _).
  - unfold uniqueInsightIds. cbn. repeat constructor. intros [].
  - exact E.
  - split; [exact H1|]. vm_compute in E. injection E as _ <-. reflexivity.
Defined.
End ReadBackProofs.

Module ResultProofs.
Import JsString Js JsOps Runtime Store StoreOps QuizSpec QuizProofs CacheSpec
       AttemptSpec AttemptProofs FrameSpec FrameProofs ImproveProofs
       ResumeProofs Interview QuizResults ResultSpec.
Local Open Scope string_scope.

Ltac world_simpl :=
  cbn [afterCall emit advance countCall setUsers setInsights setCoverLetters
       setResumes setAssessments
       bumpId clock session users insights coverLetters assessments resumes
       nextId gemini geminiCalls trace] in *.

(** ** [generateQuiz] *)

Lemma validateQuizResponse_true quiz b :
  validateQuizResponse quiz = Return b -> quizWellFormed quiz.
Proof.
  intros H. apply validateQuizResponse_accepts.
  unfold validateQuizResponse in *.
  destruct (if truthy quiz then asArray (getProp quiz "questions") else None)
    as [qs|]; [|discriminate H].
  destruct (negb (Nat.eqb (List.length qs) 10)); [discriminate H|].
  destruct (validateQuestions 0 qs); [|discriminate H].
  reflexivity.
Qed.

(** X25. [validateQuizResponse] accepts a value exactly when it is a
    well-formed quiz: an object whose [questions] are exactly ten items,
    each with a non-empty string as question text, exactly four options,
    a truthy correct answer that is one of the options, and a non-empty
    string as explanation.  It never returns anything but [true]. *)
Theorem quiz_accepted_exactly_when_well_formed (quiz : json) :
  (validateQuizResponse quiz = Return true <-> quizWellFormed quiz)
  /\ (forall b, validateQuizResponse quiz = Return b -> b = true).
Proof.
  split; [apply validateQuizResponse_accepts|].
  intros b H. unfold validateQuizResponse in H.
  destruct (if truthy quiz then asArray (getProp quiz "questions") else None)
    as [qs|]; [|discriminate H].
  destruct (negb (Nat.eqb (List.length qs) 10)); [discriminate H|].
  destruct (validateQuestions 0 qs); [|discriminate H].
  injection H as <-. reflexivity.
Qed.

(** X26. What [validateQuizResponse] reports on a quiz whose
    [questions] array holds no [null]: a wrong number of questions is
    reported with the number found; otherwise the quiz is accepted, or
    the error names the first question that is not well formed, by its
    1-indexed position, together with one of the four clauses, every
    question before it being well formed. *)
Theorem quiz_rejection_names_first_offender (quiz : json) (qs : list json) :
  getProp quiz "questions" = Some (JArr qs) ->
  ~ In JNull qs ->
  (List.length qs <> 10 ->
   validateQuizResponse quiz
   = Throw (Error ("Invalid quiz format: expected 10 questions, got "
                     ++ showNat (List.length qs))))
  /\ (List.length qs = 10 ->
      validateQuizResponse quiz = Return true
      \/ exists k q clause,
           nth_error qs k = Some q
           /\ ~ questionWellFormed q
           /\ Forall questionWellFormed (firstn k qs)
           /\ In clause clauseTexts
           /\ validateQuizResponse quiz
              = Throw (Error ("Question " ++ showNat (k + 1) ++ ": " ++ clause))).
Proof.
  intros Hq Hnull. split.
  - apply validateQuizResponse_wrong_count. exact Hq.
  - intros Hlen. unfold validateQuizResponse.
    assert (truthy quiz = true) as ->
        by (destruct quiz; try discriminate Hq; reflexivity).
    rewrite Hq. cbn [asArray]. rewrite Hlen. cbn [Nat.eqb negb].
    destruct (validateQuestions_identifies qs 0 Hnull)
      as [[-> _] | (k & q & clause & Hk & Hbad & Hpre & Hin & ->)].
    + left. reflexivity.
    + right. exists k, q, clause. auto.
Qed.

Lemma quiz_rejection_names_first_offender_witness :
  validateQuizResponse
    (JObj [("questions",
            JArr (repeat goodQuestion 9 ++ [JObj [("question", JStr "Why?")]]))])
  = Return true
  \/ exists k q clause,
       nth_error (repeat goodQuestion 9 ++ [JObj [("question", JStr "Why?")]]) k
       = Some q
       /\ ~ questionWellFormed q
       /\ Forall questionWellFormed
                 (firstn k (repeat goodQuestion 9
                              ++ [JObj [("question", JStr "Why?")]]))
       /\ In clause clauseTexts
       /\ validateQuizResponse
            (JObj [("questions",
                    JArr (repeat goodQuestion 9
                            ++ [JObj [("question", JStr "Why?")]]))])
          = Throw (Error ("Question " ++ showNat (k + 1) ++ ": " ++ clause)).
Proof.
  apply (quiz_rejection_names_first_offender
           (JObj [("questions",
                   JArr (repeat goodQuestion 9
                           ++ [JObj [("question", JStr "Why?")]]))])
           (repeat goodQuestion 9 ++ [JObj [("question", JStr "Why?")]])).
  - reflexivity.
  - cbn. intros H. repeat (destruct H as [H|H]; [discriminate H|]). exact H.
  - reflexivity.
Defined.

(** X27. Generating a quiz records nothing, so it does not count
    against the daily quiz quota.  Whatever the world and the provider,
    [generateQuiz] leaves the session and every collection (the
    assessments the quota counts among them) as they were and calls the
    provider at most once; the questions it returns are exactly ten,
    each with a non-empty question text, four options, a correct answer
    that is one of them and a non-empty explanation. *)
Theorem generateQuiz_records_nothing (P : Platform) (w : World) :
  let r := generateQuiz P w in
  sameStore w (snd r)
  /\ geminiCalls w <= geminiCalls (snd r) <= geminiCalls w + 1
  /\ (forall since userId,
        countAssessments userId since (assessments (snd r))
        = countAssessments userId since (assessments w))
  /\ (forall qs, fst r = Return qs ->
        List.length qs = 10 /\ Forall questionWellFormed qs
        /\ geminiCalls (snd r) = geminiCalls w + 1).
Proof.
  cbv zeta.
  assert (forall r : Outcome (list json) * World,
             sameStore w (snd r) ->
             geminiCalls w <= geminiCalls (snd r) <= geminiCalls w + 1 ->
             (forall qs, fst r = Return qs ->
                List.length qs = 10 /\ Forall questionWellFormed qs
                /\ geminiCalls (snd r) = geminiCalls w + 1) ->
             sameStore w (snd r)
             /\ geminiCalls w <= geminiCalls (snd r) <= geminiCalls w + 1
             /\ (forall since userId,
                   countAssessments userId since (assessments (snd r))
                   = countAssessments userId since (assessments w))
             /\ (forall qs, fst r = Return qs ->
                   List.length qs = 10 /\ Forall questionWellFormed qs
                   /\ geminiCalls (snd r) = geminiCalls w + 1)) as Hpack.
  { intros r Hs Hc Hr. split; [exact Hs|]. split; [exact Hc|].
    split; [|exact Hr]. intros since userId.
    destruct Hs as (_ & _ & _ & _ & -> & _). reflexivity. }
  assert (forall e w1, sameStore w w1 ->
             geminiCalls w <= geminiCalls w1 <= geminiCalls w + 1 ->
             forall r, r = (@Throw (list json) e, w1) ->
             sameStore w (snd r)
             /\ geminiCalls w <= geminiCalls (snd r) <= geminiCalls w + 1
             /\ (forall since userId,
                   countAssessments userId since (assessments (snd r))
                   = countAssessments userId since (assessments w))
             /\ (forall qs, fst r = Return qs ->
                   List.length qs = 10 /\ Forall questionWellFormed qs
                   /\ geminiCalls (snd r) = geminiCalls w + 1)) as Hthrow.
  { intros e w1 Hs Hc r ->. apply Hpack; cbn [fst snd];
      [exact Hs | exact Hc | intros qs Hq; discriminate Hq]. }
  remember (generateQuiz P w) as r eqn:E.
  unfold generateQuiz, Interview.getAuthenticatedUser, bind at 1 in E.
  destruct (getAuthenticatedUser_cases w) as [(u & Hu) | (e & Hu)];
    rewrite Hu in E;
    [|apply (Hthrow e w (sameStore_refl w) ltac:(lia) r E)].
  unfold bind at 1, now in E. unfold bind at 1, assessmentCount in E.
  destruct (Nat.leb DAILY_QUIZ_LIMIT _);
    [apply (Hthrow _ w (sameStore_refl w) ltac:(lia) r E)|].
  destruct (falsy (user_industry u));
    [apply (Hthrow _ w (sameStore_refl w) ltac:(lia) r E)|].
  unfold tryCatch, bind at 1, generateContent in E.
  assert (sameStore w (afterCall (quizPrompt P u) w)) as Hs by (repeat split).
  assert (geminiCalls w <= geminiCalls (afterCall (quizPrompt P u) w)
          <= geminiCalls w + 1) as Hc by (world_simpl; lia).
  destruct (gemini w (geminiCalls w) (quizPrompt P u)) as [text|msg].
  - destruct (String.eqb (trim text) "").
    + apply (Hthrow _ _ Hs Hc r E).
    + unfold bind at 1, parseJson in E.
      destruct (JSON_parse P (cleanText text)) as [quiz|m].
      * unfold ret at 1, bind at 1, lift in E.
        destruct (validateQuizResponse quiz) as [b|e] eqn:Ev.
        -- subst r. apply Hpack; cbn [ret fst snd]; [exact Hs | exact Hc|].
           intros qs Hq. injection Hq as <-.
           apply validateQuizResponse_true in Ev.
           destruct Ev as (l & -> & Hlen & Hall). cbn [asArray orElse].
           split; [exact Hlen|]. split; [exact Hall|]. world_simpl. lia.
        -- destruct (kind e); apply (Hthrow _ _ Hs Hc r E).
      * apply (Hthrow _ _ Hs Hc r E).
  - apply (Hthrow _ _ Hs Hc r E).
Qed.

(** ** [saveQuizResult] *)

Lemma questionResultsFrom_total answers :
  forall qs k,
    Forall (fun q => q <> JNull) qs ->
    exists results,
      questionResultsFrom k qs answers = Return results
      /\ List.length results = List.length qs
      /\ forall i q,
           nth_error qs i = Some q ->
           exists r, nth_error results i = Some r
             /\ qr_isCorrect r
                = strictEquals (getProp q "correctAnswer")
                               (nth_error answers (k + i))
             /\ qr_userAnswer r
                = orValue (nth_error answers (k + i)) (JStr "Not answered").
Proof.
  induction qs as [|q qs IH]; intros k Hall.
  - exists []. split; [reflexivity|]. split; [reflexivity|].
    intros i x Hx. destruct i; discriminate Hx.
  - inversion Hall as [|? ? Hq Hrest]; subst.
    destruct (IH (S k) Hrest) as (results & Hrun & Hlen & Hnth).
    cbn [questionResultsFrom]. rewrite (readProp_not_null q "question" Hq).
    cbn [obind]. rewrite Hrun. cbn [obind].
    eexists. split; [reflexivity|]. split; [cbn [List.length]; lia|].
    intros i x Hx. destruct i as [|i].
    + injection Hx as <-. eexists. split; [reflexivity|].
      cbn [qr_isCorrect qr_userAnswer]. rewrite Nat.add_0_r. split; reflexivity.
    + cbn [nth_error] in *. destruct (Hnth i x Hx) as (r & Hr & Hc & Ha).
      exists r. split; [exact Hr|].
      replace (k + S i) with (S k + i) by lia. split; assumption.
Qed.

Lemma countAssessments_snoc userId since l row :
  as_userId row = userId -> (since <= as_createdAt row)%Z ->
  countAssessments userId since (l ++ [row])
  = S (countAssessments userId since l).
Proof.
  intros Hu Hc. unfold countAssessments.
  rewrite filter_app, length_app. cbn [filter].
  rewrite Hu, Nat.eqb_refl. apply Z.leb_le in Hc. rewrite Hc.
  cbn [andb List.length]. lia.
Qed.

Section Save.
Variable improvementPrompt : User -> nat -> list QuestionResult -> string.

(** X28. A quiz result is saved whatever the provider does.  For a
    signed-in user, a non-empty list of questions none of which is
    [null], as many answers, and a score that is a number neither below
    0 nor above 100, [saveQuizResult] returns the saved assessment
    with the given score and one result per question, marked correct
    exactly when the answer is strictly equal to the question's
    correct answer.  With no wrong answer the tip is the fixed
    perfect-score text and the provider is not called; otherwise the
    provider is called exactly once, with the number of wrong answers
    and the first three of them, and the tip is its trimmed text, or
    the fixed fallback text when the call fails.  One assessment row,
    dated now, is added for the user, so the count the daily quiz
    quota uses grows by one. *)
Theorem saveQuizResult_saves_whatever_the_provider_does (w : World) (u : User)
        (qs ans : list json) (x : float) :
  signedIn w u -> qs <> [] -> List.length qs = List.length ans ->
  invalidScore (Some (JNum x)) = false ->
  Forall (fun q => q <> JNull) qs ->
  exists results tip w',
    saveQuizResult improvementPrompt (Some (JArr qs)) (Some (JArr ans))
                   (Some (JNum x)) w
    = (Return (mkSavedAssessment
                 (mkAssessment (nextId w) (user_id u) (clock w)) x results
                 "Technical" tip), w')
    /\ List.length results = List.length qs
    /\ (forall i q,
          nth_error qs i = Some q ->
          exists r, nth_error results i = Some r
            /\ qr_isCorrect r
               = strictEquals (getProp q "correctAnswer") (nth_error ans i))
    /\ assessments w'
       = (assessments w ++ [mkAssessment (nextId w) (user_id u) (clock w)])%list
    /\ (forall since, (since <= clock w)%Z ->
          countAssessments (user_id u) since (assessments w')
          = S (countAssessments (user_id u) since (assessments w)))
    /\ match wrongAnswers results with
       | [] => tip = perfectTip /\ geminiCalls w' = geminiCalls w
       | first :: others =>
           geminiCalls w' = geminiCalls w + 1
           /\ tip = match gemini w (geminiCalls w)
                            (improvementPrompt u
                               (List.length (wrongAnswers results))
                               (firstn 3 (wrongAnswers results))) with
                    | GenText text => trim text
                    | GenFail _ => fallbackTip
                    end
       end.
Proof.
  intros Hu Hne Hlen Hscore Hall.
  destruct (questionResultsFrom_total ans qs 0 Hall)
    as (results & Hrun & Hrl & Hnth).
  assert (forall tip w1,
             assessments w1 = assessments w -> nextId w1 = nextId w ->
             clock w1 = clock w ->
             exists w',
               tryCatch
                 (bind (assessmentCreate (user_id u))
                       (fun row => ret (mkSavedAssessment row
                                          (scoreOf (Some (JNum x))) results
                                          "Technical" tip)))
                 (fun error =>
                    throw (Error ("Failed to save quiz result: "
                                    ++ message error))) w1
               = (Return (mkSavedAssessment
                            (mkAssessment (nextId w) (user_id u) (clock w)) x
                            results "Technical" tip), w')
               /\ assessments w'
                  = (assessments w
                       ++ [mkAssessment (nextId w) (user_id u) (clock w)])%list
               /\ geminiCalls w' = geminiCalls w1) as Hcreate.
  { intros tip w1 Ha Hn Hc. unfold tryCatch, bind, assessmentCreate, ret.
    rewrite Ha, Hn, Hc. eexists. split; [reflexivity|].
    world_simpl. split; reflexivity. }
  assert (forall w', assessments w'
                     = (assessments w
                          ++ [mkAssessment (nextId w) (user_id u) (clock w)])%list ->
                     forall since, (since <= clock w)%Z ->
                       countAssessments (user_id u) since (assessments w')
                       = S (countAssessments (user_id u) since (assessments w)))
    as Hcount.
  { intros w' Hw' since Hsince. rewrite Hw'.
    apply countAssessments_snoc; [reflexivity | exact Hsince]. }
  assert (forall i q,
             nth_error qs i = Some q ->
             exists r, nth_error results i = Some r
               /\ qr_isCorrect r
                  = strictEquals (getProp q "correctAnswer") (nth_error ans i))
    as Hnth'.
  { intros i q Hq. destruct (Hnth i q Hq) as (r & Hr & Hc & _).
    exists r. split; [exact Hr | exact Hc]. }
  unfold saveQuizResult. cbn [asArray].
  assert (Nat.eqb (List.length qs) 0 = false) as ->.
  { apply Nat.eqb_neq. destruct qs; [contradiction Hne; reflexivity | discriminate]. }
  rewrite Hscore.
  assert (negb (Nat.eqb (List.length qs) (List.length ans)) = false) as ->.
  { rewrite Hlen, Nat.eqb_refl. reflexivity. }
  unfold getAuthenticatedUser, bind at 1.
  rewrite (QuotaProofs.plainUser_signedIn w u Hu).
  unfold bind at 1, lift. rewrite Hrun.
  fold (wrongAnswers results).
  destruct (wrongAnswers results) as [|first others] eqn:Ew.
  - cbn [List.length Nat.ltb Nat.leb]. unfold bind at 1, ret at 1.
    destruct (Hcreate perfectTip w eq_refl eq_refl eq_refl)
      as (w' & Hsave & Hrows & Hcalls).
    exists results, perfectTip, w'. split; [exact Hsave|].
    split; [exact Hrl|]. split; [exact Hnth'|]. split; [exact Hrows|].
    split; [apply Hcount; exact Hrows|]. rewrite Ew.
    split; [reflexivity | exact Hcalls].
  - cbn [List.length Nat.ltb Nat.leb].
    unfold bind at 1, tryCatch at 1, bind at 1, generateContent.
    set (prompt := improvementPrompt u (S (List.length others))
                                     (firstn 3 (first :: others))).
    destruct (gemini w (geminiCalls w) prompt) as [text|msg] eqn:Eg;
      unfold prompt in Eg.
    + unfold ret at 1.
      destruct (Hcreate (trim text) (afterCall prompt w) eq_refl eq_refl eq_refl)
        as (w' & Hsave & Hrows & Hcalls).
      exists results, (trim text), w'. split; [exact Hsave|].
      split; [exact Hrl|]. split; [exact Hnth'|]. split; [exact Hrows|].
      split; [apply Hcount; exact Hrows|]. rewrite Ew.
      split; [rewrite Hcalls; world_simpl; lia|].
      cbn [List.length]. rewrite Eg. reflexivity.
    + unfold ret at 1.
      destruct (Hcreate fallbackTip (afterCall prompt w) eq_refl eq_refl eq_refl)
        as (w' & Hsave & Hrows & Hcalls).
      exists results, fallbackTip, w'. split; [exact Hsave|].
      split; [exact Hrl|]. split; [exact Hnth'|]. split; [exact Hrows|].
      split; [apply Hcount; exact Hrows|]. rewrite Ew.
      split; [rewrite Hcalls; world_simpl; lia|].
      cbn [List.length]. rewrite Eg. reflexivity.
Qed.
End Save.

Lemma saveQuizResult_saves_whatever_the_provider_does_witness :
  exists results w',
    saveQuizResult tipPrompt
      (Some (JArr [question "What is a closure?" "B";
                   question "What is a monad?" "C"]))
      (Some (JArr [JStr "B"; JStr "A"])) (Some (JNum 50%float)) quizWorld
    = (Return (mkSavedAssessment
                 (mkAssessment 200 1 (8 * Scenario.day + 12 * Scenario.hour))
                 50%float results "Technical" fallbackTip), w')
    /\ List.length (assessments w') = 5.
Proof.
  destruct (saveQuizResult_saves_whatever_the_provider_does tipPrompt quizWorld
              Scenario.alice
              [question "What is a closure?" "B"; question "What is a monad?" "C"]
              [JStr "B"; JStr "A"] 50%float)
    as (results & tip & w' & Hrun & _ & _ & Hrows & _ & Htip).
  - exists "user_alice". repeat split. discriminate.
  - discriminate.
  - reflexivity.
  - reflexivity.
  - repeat constructor; discriminate.
  - assert (tip = fallbackTip) as ->.
    { pose proof Hrun as H2. vm_compute in H2. injection H2 as _ Ht _.
      symmetry. exact Ht. }
    exists results, w'. split; [exact Hrun|]. rewrite Hrows. reflexivity.
Defined.

(** ** [deleteAssessment] *)

Lemma assessmentKey_owner id userId a :
  assessmentKey id userId a = true <-> as_id a = id /\ as_userId a = userId.
Proof.
  unfold assessmentKey. rewrite andb_true_iff, !Nat.eqb_eq. tauto.
Qed.

Lemma filter_keeps_all {A} (p : A -> bool) (l : list A) :
  (forall x, In x l -> p x = true) -> filter p l = l.
Proof.
  induction l as [|y l IH]; intros H; [reflexivity|].
  cbn [filter]. rewrite (H y (or_introl eq_refl)), IH; [reflexivity|].
  intros x Hx. apply H. right. exact Hx.
Qed.

Lemma assessments_after_removal id userId (l : list Assessment) a :
  NoDup (map as_id l) -> In a l -> assessmentKey id userId a = true ->
  (forall x, In x (filter (fun y => negb (assessmentKey id userId y)) l)
             <-> In x l /\ x <> a)
  /\ forall since, (since <= as_createdAt a)%Z ->
       S (countAssessments userId since
            (filter (fun y => negb (assessmentKey id userId y)) l))
       = countAssessments userId since l.
Proof.
  intros Hnd Ha Hk.
  assert (forall x, In x l -> assessmentKey id userId x = true -> x = a) as Honly.
  { intros x Hx Hkx.
    apply assessmentKey_owner in Hk as [Hk _].
    apply assessmentKey_owner in Hkx as [Hkx _].
    clear -Hnd Ha Hx Hk Hkx.
    induction l as [|y l IH]; [contradiction|].
    cbn [map] in Hnd. inversion Hnd as [|? ? Hnot Hrest]; subst.
    destruct Ha as [->|Ha], Hx as [->|Hx].
    - reflexivity.
    - exfalso. apply Hnot. rewrite <- Hkx. apply in_map. exact Hx.
    - exfalso. apply Hnot. rewrite Hkx. apply in_map. exact Ha.
    - apply IH; assumption. }
  split.
  - intros x. rewrite filter_In, negb_true_iff. split.
    + intros [Hx Hkx]. split; [exact Hx|]. intros ->. congruence.
    + intros [Hx Hne]. split; [exact Hx|].
      destruct (assessmentKey id userId x) eqn:Ex; [|reflexivity].
      exfalso. apply Hne. apply Honly; assumption.
  - intros since Hsince. unfold countAssessments.
    clear Honly. induction l as [|y l IH]; [contradiction|].
    cbn [map] in Hnd. inversion Hnd as [|? ? Hnot Hrest]; subst.
    destruct Ha as [->|Ha].
    + cbn [filter]. rewrite Hk. cbn [negb].
      pose proof Hk as Hk'. apply assessmentKey_owner in Hk' as [Hid Hown].
      rewrite Hown, Nat.eqb_refl. apply Z.leb_le in Hsince. rewrite Hsince.
      cbn [andb List.length]. f_equal. f_equal. f_equal.
      apply filter_keeps_all. intros x Hx. apply negb_true_iff.
      destruct (assessmentKey id userId x) eqn:Ex; [|reflexivity].
      exfalso. apply Hnot. apply assessmentKey_owner in Ex as [Ex _].
      rewrite Hid, <- Ex. apply in_map. exact Hx.
    + assert (assessmentKey id userId y = false) as Hy.
      { destruct (assessmentKey id userId y) eqn:Ey; [|reflexivity].
        exfalso. apply Hnot.
        apply assessmentKey_owner in Ey as [Ey _].
        apply assessmentKey_owner in Hk as [Hk _].
        rewrite Ey, <- Hk. apply in_map. exact Ha. }
      cbn [filter]. rewrite Hy. cbn [negb filter].
      destruct (Nat.eqb (as_userId y) userId && Z.leb since (as_createdAt y));
        cbn [List.length]; rewrite <- (IH Hrest Ha); reflexivity.
Qed.

(** X29. [deleteAssessment] removes the caller's assessment and nothing
    else, and gives back quiz quota.  For a signed-in user: an
    assessment that is missing afterwards had the given id and belonged
    to the caller.  When the caller owns an assessment with the id (ids
    being unique), it is returned and removed, every other one is kept,
    and the caller's count of assessments created since any instant not
    after its creation (the count the daily quiz quota uses) drops by
    one.  When the caller owns none with the id, the call throws and
    changes nothing. *)
Theorem deleteAssessment_removes_own_assessment_only (w : World) (u : User)
        (id : nat) :
  signedIn w u ->
  let r := deleteAssessment (Some id) w in
  (forall a, In a (assessments w) -> ~ In a (assessments (snd r)) ->
             as_id a = id /\ as_userId a = user_id u)
  /\ (forall a, uniqueAssessmentIds w ->
        find (assessmentKey id (user_id u)) (assessments w) = Some a ->
        fst r = Return a
        /\ (forall x, In x (assessments (snd r)) <-> In x (assessments w) /\ x <> a)
        /\ forall since, (since <= as_createdAt a)%Z ->
             S (countAssessments (user_id u) since (assessments (snd r)))
             = countAssessments (user_id u) since (assessments w))
  /\ (find (assessmentKey id (user_id u)) (assessments w) = None ->
      exists e, r = (Throw e, w)).
Proof.
  intros Hu. cbv zeta.
  unfold deleteAssessment, getAuthenticatedUser, bind.
  rewrite (QuotaProofs.plainUser_signedIn w u Hu).
  unfold orThrow, tryStore, assessmentDelete.
  destruct (find (assessmentKey id (user_id u)) (assessments w)) as [row|] eqn:Ef;
    cbn [ret throw fst snd]; world_simpl.
  - split.
    { intros a Ha Hgone. apply assessmentKey_owner.
      destruct (assessmentKey id (user_id u) a) eqn:Ek; [reflexivity|].
      exfalso. apply Hgone. apply filter_In. rewrite Ek.
      split; [exact Ha | reflexivity]. }
    split; [|discriminate].
    intros a Hnd Ha. injection Ha as <-.
    pose proof (find_some _ _ Ef) as [Hin Hk].
    destruct (assessments_after_removal id (user_id u) (assessments w) row
                Hnd Hin Hk) as [Hkept Hcount].
    split; [reflexivity|]. split; [exact Hkept | exact Hcount].
  - split; [intros a Ha Hgone; contradiction|].
    split; [discriminate|]. intros _. eexists. reflexivity.
Qed.

Lemma deleteAssessment_removes_own_assessment_only_witness :
  fst (deleteAssessment (Some 100) quizWorld)
  = Return (mkAssessment 100 1 (8 * Scenario.day + Scenario.hour))
  /\ S (countAssessments 1 (8 * Scenario.day)
          (assessments (snd (deleteAssessment (Some 100) quizWorld))))
     = countAssessments 1 (8 * Scenario.day) (assessments quizWorld).
Proof.
  destruct (deleteAssessment_removes_own_assessment_only quizWorld Scenario.alice 100)
    as (_ & H & _).
  - exists "user_alice". repeat split. discriminate.
  - destruct (H (mkAssessment 100 1 (8 * Scenario.day + Scenario.hour)))
      as (H1 & _ & H2).
    + unfold uniqueAssessmentIds. cbn. repeat constructor; cbn; intuition lia.
    + reflexivity.
    + split; [exact H1|]. apply H2. cbn. lia.
Defined.
End ResultProofs.
